(** * Gnoke Gas: persistence engine, schema guard and legacy importer

    A shallow embedding of [scripts/migrate.js], [db-sales.js] and
    [db-core.js], and the properties of the specification settled on it.

    Conventions of the embedding.
    - A JavaScript string is a [string] of 8-bit characters: the strings
      whose code units are below 256.
    - A JavaScript number that the code computes with is an exact rational
      [Q], kept in lowest terms; [NaN] is the [None] of an [option].  The
      binary rounding of doubles, their overflow and the literal
      [Infinity] are outside the model.  [_parseCSV] does not depend on
      this: it is written over an interface of the number builtins it
      calls, and what is proved of it is proved for every reading of them.
    - Row ids and sequence numbers are integers [Z].
    - The module-level variables of [db-core.js] ([_db], [_dirty]) and the
      world around them (the IndexedDB entry, the seed file, the clock, the
      old LocalForage store) are the fields of one record, threaded through
      a state-and-exception monad: a JavaScript [throw], or a rejected
      promise, is the [inl] of the result, and the state carried with it is
      the state at the time of the throw.  An [await] is sequential
      composition: no other code runs in between.
    - A put to IndexedDB may fail; which puts do is read from a list of the
      outcomes to come.  Reading IndexedDB, loading sql.js and reading the
      old store once its keys were listed do not fail.
    - A ghost trace records each setting of the dirty flag, each entry into
      [persist] and each completed put, so that "once" can be stated.
    - sql.js is an external library: its [Database] is modelled by a record
      holding the catalog and the rows of the tables of the schema, each
      SQL text of the source is one constructor of [stmt] or [sql], a
      statement that fails changes nothing, and BEGIN, COMMIT and ROLLBACK
      save, drop and restore the content.  [export] is the image it
      returns: a handle that an export has touched is named by its content
      in the theorems of the properties. *)

From Stdlib Require Import List String Ascii ZArith QArith Qreduction Bool Lia.
From Stdlib Require Import Sorting.Sorted Sorting.Permutation.
From Stdlib Require Import Structures.OrderedTypeEx.
Import ListNotations.

Local Open Scope string_scope.
Local Open Scope Z_scope.

(* ================================================================== *)
(** ** JavaScript strings *)

Module JsString.

Definition chars (s : string) : list ascii := list_ascii_of_string s.
Definition of_chars (l : list ascii) : string := string_of_list_ascii l.

(** White space as [String.prototype.trim] and the number parsers see it,
    among the 8-bit characters: TAB, LF, VT, FF, CR, SPACE and the no-break
    space U+00A0.  (The other white space of JavaScript, U+FEFF and the
    space separators above U+00FF, is not 8-bit.) *)
Definition is_space (c : ascii) : bool :=
  let n := N_of_ascii c in
  ((9 <=? n)%N && (n <=? 13)%N) || (n =? 32)%N || (n =? 160)%N.

Fixpoint trim_start (l : list ascii) : list ascii :=
  match l with
  | c :: r => if is_space c then trim_start r else l
  | [] => []
  end.

Definition trim_end (l : list ascii) : list ascii :=
  rev (trim_start (rev l)).

(** [s.trim()] *)
Definition trim (s : string) : string :=
  of_chars (trim_end (trim_start (chars s))).

(** [s.split(c)] for a one-character separator: never an empty array. *)
Fixpoint split_chars (sep : ascii) (l : list ascii) : list (list ascii) :=
  match l with
  | [] => [[]]
  | c :: r =>
      if Ascii.eqb c sep then [] :: split_chars sep r
      else match split_chars sep r with
           | p :: ps => (c :: p) :: ps
           | [] => [[c]]
           end
  end.

Definition split (sep : ascii) (s : string) : list string :=
  map of_chars (split_chars sep (chars s)).

(** [s.startsWith(p)] *)
Definition startsWith (s p : string) : bool := String.prefix p s.

(** [s.replace(pat, rep)] with a string pattern: the first occurrence
    only. *)
Fixpoint replace_first (pat rep s : string) (fuel : nat) : string :=
  if String.prefix pat s
  then rep ++ substring (String.length pat) (String.length s - String.length pat) s
  else match fuel, s with
       | S f, String c r => String c (replace_first pat rep r f)
       | _, _ => s
       end.

Definition replace (s pat rep : string) : string :=
  replace_first pat rep s (String.length s).

(** A falsy string is the empty one. *)
Definition truthy (s : string) : bool :=
  match s with EmptyString => false | _ => true end.

End JsString.

(* ================================================================== *)
(** ** JavaScript numbers *)

Module JsNumber.

Local Open Scope Q_scope.

(** [x > 0] *)
Definition gt0 (x : Q) : bool := (0 <? Qnum x)%Z.
(** a number is falsy when it is zero (or [NaN], which is [None]) *)
Definition is_zero (x : Q) : bool := (Qnum x =? 0)%Z.

Definition add (x y : Q) : Q := Qred (x + y).
Definition sub (x y : Q) : Q := Qred (x - y).
Definition mul (x y : Q) : Q := Qred (x * y).

(** [Math.max(0, x)] *)
Definition max0 (x : Q) : Q := if gt0 x then x else 0.

(** [n || d] on a possibly-[NaN] number. *)
Definition or_else (n : option Q) (d : Q) : Q :=
  match n with
  | Some x => if is_zero x then d else x
  | None => d
  end.

Definition or_elseZ (n : option Z) (d : Z) : Z :=
  match n with
  | Some x => if (x =? 0)%Z then d else x
  | None => d
  end.

Definition digit (c : ascii) : option Z :=
  let n := Z.of_N (N_of_ascii c) in
  if ((48 <=? n) && (n <=? 57))%Z then Some (n - 48)%Z else None.

Definition hex_digit (c : ascii) : option Z :=
  let n := Z.of_N (N_of_ascii c) in
  if ((48 <=? n) && (n <=? 57))%Z then Some (n - 48)%Z
  else if ((97 <=? n) && (n <=? 102))%Z then Some (n - 87)%Z
  else if ((65 <=? n) && (n <=? 70))%Z then Some (n - 55)%Z
  else None.

(** The longest run of digits at the head of [l], most significant
    first, and what follows it. *)
Fixpoint span_digits (dig : ascii -> option Z) (l : list ascii)
  : list Z * list ascii :=
  match l with
  | c :: r =>
      match dig c with
      | Some d => let (ds, rest) := span_digits dig r in (d :: ds, rest)
      | None => ([], l)
      end
  | [] => ([], [])
  end.

Definition value (radix : Z) (ds : list Z) : Z :=
  fold_left (fun acc d => acc * radix + d)%Z ds 0%Z.

Definition is_char (n : N) (c : ascii) : bool := (N_of_ascii c =? n)%N.

(** An optional sign: the factor and the rest. *)
Definition sign (l : list ascii) : Z * list ascii :=
  match l with
  | c :: r =>
      if is_char 45 c then (-1, r)%Z
      else if is_char 43 c then (1, r)%Z
      else (1%Z, l)
  | [] => (1%Z, [])
  end.

(** [parseInt(s)] with no radix: leading white space, a sign, a [0x]
    prefix for radix 16, then the longest run of digits; [NaN] when there
    is none.  The value is the exact integer, also above 2^53. *)
Definition parseInt (s : string) : option Z :=
  let (sg, l) := sign (JsString.trim_start (JsString.chars s)) in
  let (radix, body) :=
    match l with
    | z :: x :: r =>
        if is_char 48 z && (is_char 120 x || is_char 88 x)
        then (16%Z, r) else (10%Z, l)
    | _ => (10%Z, l)
    end in
  let (ds, _) :=
    span_digits (if (radix =? 16)%Z then hex_digit else digit) body in
  match ds with
  | [] => None
  | _ => Some (sg * value radix ds)%Z
  end.

Definition pow10 (e : Z) : Q :=
  match e with
  | Z0 => 1
  | Zpos p => inject_Z (10 ^ Zpos p)
  | Zneg p => 1 # (10 ^ p)
  end.

(** The exponent part [e, sign, digits], taken only when it is complete. *)
Definition exponent (l : list ascii) : Z :=
  match l with
  | c :: r =>
      if is_char 101 c || is_char 69 c then
        let (sg, r') := sign r in
        match fst (span_digits digit r') with
        | [] => 0%Z
        | ds => (sg * value 10 ds)%Z
        end
      else 0%Z
  | [] => 0%Z
  end.

(** [parseFloat(s)]: leading white space, a sign, then the longest prefix
    that is a decimal literal ([ddd], [ddd.ddd], [.ddd], each with an
    optional exponent); [NaN] when there is none.  The value is the exact
    value of the literal, not the double nearest to it, and [Infinity] is
    not read. *)
Definition parseFloat (s : string) : option Q :=
  let (sg, l) := sign (JsString.trim_start (JsString.chars s)) in
  let (ip, r1) := span_digits digit l in
  let (fp, r2) :=
    match r1 with
    | c :: r => if is_char 46 c then span_digits digit r else ([], r1)
    | [] => ([], [])
    end in
  match ip, fp with
  | [], [] => None
  | _, _ =>
      let m := value 10 (ip ++ fp) in
      let e := (exponent r2 - Z.of_nat (List.length fp))%Z in
      Some (Qred (inject_Z (sg * m) * pow10 e))
  end.

(** [parseFloat(x)] where [x] may be [undefined]: the argument is first
    converted to a string. *)
Definition parseFloat_opt (x : option string) : option Q :=
  parseFloat (match x with Some s => s | None => "undefined" end).

(** The number builtins that [_parseCSV] calls, as an interface.  The parser
    is written over it, so that what is proved of the parser for every
    [Builtins] holds of it with the builtins of a JavaScript engine, whose
    numbers are doubles.  [int] is the type of what [parseInt] gives and
    [num] of what [parseFloat] gives (both are [number] in JavaScript); the
    argument is [None] for [undefined], an array element that is not
    there. *)
Class Builtins := {
  int : Type;
  num : Type;
  parseInt_or_0 : option string -> int;     (* parseInt(x) || 0 *)
  parseFloat_or_0 : option string -> num;   (* parseFloat(x) || 0 *)
  positive : num -> bool;                   (* x > 0 *)
  plus : num -> num -> num;                 (* x + y *)
  zero : num }.                             (* 0 *)

(** The builtins on exact values, which the rest of the embedding computes
    with. *)
#[global] Instance exact : Builtins := {|
  int := Z;
  num := Q;
  parseInt_or_0 x :=
    or_elseZ (parseInt (match x with Some s => s | None => "undefined" end)) 0;
  parseFloat_or_0 x := or_else (parseFloat_opt x) 0;
  positive := gt0;
  plus := add;
  zero := 0 |}.

End JsNumber.


(* ================================================================== *)
(** ** Sorting

    [Array.prototype.sort] and SQL's ORDER BY, as a stable insertion sort:
    elements that compare equal keep their order.  (JavaScript's sort is
    stable; with a comparator that is not a consistent order its result is
    implementation-defined, and this is one such result.) *)

Module Stable.

Fixpoint insert {A} (le : A -> A -> bool) (x : A) (l : list A) : list A :=
  match l with
  | [] => [x]
  | y :: r => if le x y then x :: l else y :: insert le x r
  end.

Definition sort {A} (le : A -> A -> bool) (l : list A) : list A :=
  fold_right (insert le) [] l.

End Stable.

(* ================================================================== *)
(** ** The relational store behind sql.js

    The tables of the schema ([company] has no modelled rows: no function
    below reads them), the catalog of table names, and the statements the
    source issues. *)

Module Sql.

Record day := mkDay {
  day_id : Z;
  day_date : string;
  day_opening_stock : Q;
  day_unit_price : Q }.

Record sale := mkSale {
  sale_id : Z;
  sale_day_id : Z;
  sale_seq : Z;
  sale_kg : Q;
  sale_price : Q;
  sale_comments : string }.

(** Modelled from the spec: the schema of the seed file [data/gas.db],
    which is not among the sources.  The specification gives it as
    days(id, date UNIQUE, opening_stock, unit_price), sales(id, day_id
    referencing days with cascading delete, seq, kg, price, comments),
    settings(key UNIQUE, value) and company.

    The image of a database: what [export()] serialises and what
    [new SQL.Database(bytes)] reads back.  Rows are in rowid order. *)
Record database := mkDatabase {
  tables : list string;              (* sqlite_master, type = 'table' *)
  days : list day;
  sales : list sale;
  settings : list (string * string) }.

Inductive sql_error :=
| NoSuchTable (name : string)
| UniqueViolation
| ForeignKeyViolation
| TransactionActive      (* BEGIN inside a transaction *)
| NoTransaction.         (* COMMIT or ROLLBACK outside one *)

(** An open [Database] object. *)
Record connection := mkConnection {
  content : database;
  tx_saved : option database;   (* the content at BEGIN, while a transaction is open *)
  foreign_keys : bool;          (* PRAGMA foreign_keys *)
  last_insert_rowid : Z;
  rows_modified : Z }.

Definition open (d : database) : connection :=
  mkConnection d None false 0 0.

(** The write statements of the source, one constructor per SQL text,
    the [?] parameters as arguments. *)
Inductive stmt :=
| InsertDayOrIgnore (date : string) (opening_stock unit_price : Q)
    (* INSERT OR IGNORE INTO days (date, opening_stock, unit_price) VALUES (?, ?, ?) *)
| InsertDay (date : string) (opening_stock unit_price : Q)
    (* INSERT INTO days (date, opening_stock, unit_price) VALUES (?, ?, ?) *)
| UpdateDayPriceByDate (unit_price : Q) (date : string)
    (* UPDATE days SET unit_price = ? WHERE date = ? *)
| UpdateDayPrice (unit_price : Q) (id : Z)
    (* UPDATE days SET unit_price = ? WHERE id = ? *)
| UpdateDayOpeningStock (opening_stock : Q) (id : Z)
    (* UPDATE days SET opening_stock = ? WHERE id = ? *)
| DeleteDay (id : Z)
    (* DELETE FROM days WHERE id = ? *)
| InsertSale (day_id seq : Z) (kg price : Q) (comments : string)
    (* INSERT INTO sales (day_id, seq, kg, price, comments) VALUES (?, ?, ?, ?, ?) *)
| DeleteSale (id : Z)
    (* DELETE FROM sales WHERE id = ? *)
| UpdateSaleSeq (seq id : Z)
    (* UPDATE sales SET seq = ? WHERE id = ? *)
| UpsertSetting (key value : string).
    (* INSERT INTO settings (key, value) VALUES (?, ?)
       ON CONFLICT(key) DO UPDATE SET value = excluded.value *)

Definition has_table (d : database) (t : string) : bool :=
  existsb (String.eqb t) (tables d).

(** The rowid given to a new row: 1 in an empty table, else one more
    than the largest. *)
Definition next_rowid (ids : list Z) : Z :=
  match ids with
  | [] => 1
  | i :: r => fold_left Z.max r i + 1
  end.

Definition set_days (d : database) (l : list day) : database :=
  mkDatabase (tables d) l (sales d) (settings d).
Definition set_sales (d : database) (l : list sale) : database :=
  mkDatabase (tables d) (days d) l (settings d).
Definition set_settings (d : database) (l : list (string * string)) : database :=
  mkDatabase (tables d) (days d) (sales d) l.

Definition count_if {A} (p : A -> bool) (l : list A) : Z :=
  Z.of_nat (List.length (filter p l)).

(** The effect of one statement that completed: the new image, the
    number of rows it changed and the rowid it inserted, if any. *)
Record effect := mkEffect {
  eff_db : database;
  eff_changes : Z;
  eff_rowid : option Z }.

Definition need (t : string) (d : database) (k : sql_error + effect)
  : sql_error + effect :=
  if has_table d t then k else inl (NoSuchTable t).

Definition date_is (date : string) (x : day) : bool :=
  String.eqb (day_date x) date.

Definition insert_day (d : database) (date : string) (os up : Q) : effect :=
  let id := next_rowid (map day_id (days d)) in
  mkEffect (set_days d (days d ++ [mkDay id date os up])) 1 (Some id).

Definition update_where {A} (p : A -> bool) (f : A -> A) (l : list A) : list A :=
  map (fun x => if p x then f x else x) l.

(** One statement on an image.  A statement that fails changes nothing.
    [fk] is the connection's [foreign_keys] pragma: when it is on, a sale
    must point to an existing day and deleting a day deletes its sales. *)
Definition exec_stmt (fk : bool) (s : stmt) (d : database)
  : sql_error + effect :=
  match s with
  | InsertDayOrIgnore date os up =>
      need "days" d
        (if existsb (date_is date) (days d)
         then inr (mkEffect d 0 None)
         else inr (insert_day d date os up))
  | InsertDay date os up =>
      need "days" d
        (if existsb (date_is date) (days d)
         then inl UniqueViolation
         else inr (insert_day d date os up))
  | UpdateDayPriceByDate up date =>
      need "days" d
        (inr (mkEffect
                (set_days d (update_where (date_is date)
                   (fun x => mkDay (day_id x) (day_date x) (day_opening_stock x) up)
                   (days d)))
                (count_if (date_is date) (days d)) None))
  | UpdateDayPrice up id =>
      need "days" d
        (inr (mkEffect
                (set_days d (update_where (fun x => day_id x =? id)
                   (fun x => mkDay (day_id x) (day_date x) (day_opening_stock x) up)
                   (days d)))
                (count_if (fun x => day_id x =? id) (days d)) None))
  | UpdateDayOpeningStock os id =>
      need "days" d
        (inr (mkEffect
                (set_days d (update_where (fun x => day_id x =? id)
                   (fun x => mkDay (day_id x) (day_date x) os (day_unit_price x))
                   (days d)))
                (count_if (fun x => day_id x =? id) (days d)) None))
  | DeleteDay id =>
      need "days" d
        (let ds := filter (fun x => negb (day_id x =? id)) (days d) in
         let ss := if fk
                   then filter (fun x => negb (sale_day_id x =? id)) (sales d)
                   else sales d in
         inr (mkEffect (mkDatabase (tables d) ds ss (settings d))
                (count_if (fun x => day_id x =? id) (days d)) None))
  | InsertSale day seq kg price comments =>
      need "sales" d
        (if fk && negb (existsb (fun x => day_id x =? day) (days d))
         then inl ForeignKeyViolation
         else
           let id := next_rowid (map sale_id (sales d)) in
           inr (mkEffect
                  (set_sales d (sales d ++ [mkSale id day seq kg price comments]))
                  1 (Some id)))
  | DeleteSale id =>
      need "sales" d
        (inr (mkEffect
                (set_sales d (filter (fun x => negb (sale_id x =? id)) (sales d)))
                (count_if (fun x => sale_id x =? id) (sales d)) None))
  | UpdateSaleSeq seq id =>
      need "sales" d
        (inr (mkEffect
                (set_sales d (update_where (fun x => sale_id x =? id)
                   (fun x => mkSale (sale_id x) (sale_day_id x) seq (sale_kg x)
                               (sale_price x) (sale_comments x))
                   (sales d)))
                (count_if (fun x => sale_id x =? id) (sales d)) None))
  | UpsertSetting key value =>
      need "settings" d
        (if existsb (fun kv => String.eqb (fst kv) key) (settings d)
         then inr (mkEffect
                     (set_settings d (update_where
                        (fun kv => String.eqb (fst kv) key)
                        (fun kv => (fst kv, value)) (settings d)))
                     1 None)
         else inr (mkEffect (set_settings d (settings d ++ [(key, value)]))
                     1 (Some (Z.of_nat (List.length (settings d)) + 1))))
  end.

(** [db.run(sql, params)] for a write statement. *)
Definition run (s : stmt) (c : connection) : sql_error + connection :=
  match exec_stmt (foreign_keys c) s (content c) with
  | inl e => inl e
  | inr eff =>
      inr (mkConnection (eff_db eff) (tx_saved c) (foreign_keys c)
             (match eff_rowid eff with
              | Some id => id
              | None => last_insert_rowid c
              end)
             (eff_changes eff))
  end.

(** [db.run('BEGIN;')], [db.run('COMMIT;')], [db.run('ROLLBACK;')] and
    [db.run('PRAGMA foreign_keys = ON;')]. *)
Definition begin (c : connection) : sql_error + connection :=
  match tx_saved c with
  | Some _ => inl TransactionActive
  | None => inr (mkConnection (content c) (Some (content c)) (foreign_keys c)
                   (last_insert_rowid c) (rows_modified c))
  end.

Definition commit (c : connection) : sql_error + connection :=
  match tx_saved c with
  | None => inl NoTransaction
  | Some _ => inr (mkConnection (content c) None (foreign_keys c)
                     (last_insert_rowid c) (rows_modified c))
  end.

Definition rollback (c : connection) : sql_error + connection :=
  match tx_saved c with
  | None => inl NoTransaction
  | Some d => inr (mkConnection d None (foreign_keys c)
                     (last_insert_rowid c) (rows_modified c))
  end.

Definition pragma_foreign_keys_on (c : connection) : connection :=
  mkConnection (content c) (tx_saved c) true
    (last_insert_rowid c) (rows_modified c).

(** [db.export()]: the image of the content.  sql.js serialises a database
    by closing it and opening it again, so the handle afterwards has the
    content it had and the pragmas and counters of a new one.  Of this the
    embedding has the image; the theorems of the properties speak of a
    handle that an export has touched through its content, on connections
    with no transaction open. *)
Definition export (c : connection) : database := content c.

End Sql.

(** *** Queries *)

Module Select.
Import Sql.

(** The row of the carry-forward query. *)
Record prev_row := mkPrev {
  prev_opening_stock : Q;
  prev_unit_price : Q;
  kg_sold : Q }.

(** The SELECT texts of the source, indexed by the type of their rows.
    [db.exec] also takes a write statement, which yields no rows. *)
Inductive sql : Type -> Type :=
| DayByDate (date : string) : sql day
    (* SELECT * FROM days WHERE date = ? *)
| PrevDay (date : string) : sql prev_row
    (* SELECT d.opening_stock, d.unit_price, COALESCE(SUM(s.kg), 0) AS kg_sold
       FROM days d LEFT JOIN sales s ON s.day_id = d.id
       WHERE d.date < ? GROUP BY d.id ORDER BY d.date DESC LIMIT 1 *)
| SalesOfDay (day : Z) : sql sale
    (* SELECT * FROM sales WHERE day_id = ? ORDER BY seq ASC *)
| NextSeq (day : Z) : sql Z
    (* SELECT COALESCE(MAX(seq), 0) + 1 AS next_seq FROM sales WHERE day_id = ? *)
| SaleIds (day : Z) : sql Z
    (* SELECT id FROM sales WHERE day_id = ? ORDER BY seq ASC *)
| SettingValue (key : string) : sql string
    (* SELECT value FROM settings WHERE key = ? *)
| Write (s : stmt) : sql Empty_set.

(** ORDER BY seq ASC: rows of equal [seq] stay in rowid order. *)
Definition order_by_seq (l : list sale) : list sale :=
  Stable.sort (fun x y => sale_seq x <=? sale_seq y) l.

Definition of_day (day : Z) (s : sale) : bool := sale_day_id s =? day.

Definition sales_of_day (d : database) (day : Z) : list sale :=
  order_by_seq (filter (of_day day) (sales d)).

(** SUM(s.kg) over the sales joined to a day, 0 when there is none. *)
Definition sum_kg (l : list sale) : Q :=
  fold_left (fun acc s => JsNumber.add acc (sale_kg s)) l 0%Q.

(** ORDER BY d.date DESC LIMIT 1 *)
Fixpoint latest (l : list day) : option day :=
  match l with
  | [] => None
  | x :: r =>
      match latest r with
      | Some y => if String.ltb (day_date x) (day_date y) then Some y else Some x
      | None => Some x
      end
  end.

Definition before (date : string) (x : day) : bool :=
  String.ltb (day_date x) date.

Definition max_seq (l : list sale) : option Z :=
  match l with
  | [] => None
  | x :: r => Some (fold_left (fun m s => Z.max m (sale_seq s)) r (sale_seq x))
  end.

Definition need {A} (t : string) (d : database) (k : sql_error + list A)
  : sql_error + list A :=
  if has_table d t then k else inl (NoSuchTable t).

Definition select {A} (c : connection) (r : sql_error + list A)
  : sql_error + (list A * connection) :=
  match r with
  | inl e => inl e
  | inr l => inr (l, c)
  end.

(** [db.exec(sql, params)]: the rows, and the connection after it. *)
Definition exec {A} (q : sql A) (c : connection)
  : sql_error + (list A * connection) :=
  let d := content c in
  match q in sql T return sql_error + (list T * connection) with
  | DayByDate date =>
      select c (need "days" d (inr (filter (date_is date) (days d))))
  | PrevDay date =>
      select c (need "days" d (need "sales" d
        (inr match latest (filter (before date) (days d)) with
             | Some x =>
                 [mkPrev (day_opening_stock x) (day_unit_price x)
                    (sum_kg (filter (of_day (day_id x)) (sales d)))]
             | None => []
             end)))
  | SalesOfDay day =>
      select c (need "sales" d (inr (sales_of_day d day)))
  | NextSeq day =>
      select c (need "sales" d
        (inr [match max_seq (filter (of_day day) (sales d)) with
              | Some m => m
              | None => 0
              end + 1]))
  | SaleIds day =>
      select c (need "sales" d (inr (map sale_id (sales_of_day d day))))
  | SettingValue key =>
      select c (need "settings" d
        (inr (map snd (filter (fun kv => String.eqb (fst kv) key) (settings d)))))
  | Write s =>
      match Sql.run s c with
      | inl e => inl e
      | inr c' => inr ([], c')
      end
  end.

End Select.

(* ================================================================== *)
(** ** State and exceptions *)

(** What [store.getItem] of the legacy LocalForage store can hold.  The
    elements of a chunk array are objects, a field being [None] when it is
    not there (an element that is no object reads like one without fields;
    [null] and [undefined] elements are not among the values). *)
Record chunk_entry := mkEntry {      (* {gas, price, comments} *)
  entry_gas : option string;
  entry_price : option string;
  entry_comments : option string }.

Record sales_meta := mkMeta {        (* {unitPrice, newStock, lastUpdated} *)
  meta_unitPrice : option string;
  meta_newStock : option string }.

Inductive legacy_item :=
| ItemString (s : string)
| ItemArray (l : list chunk_entry)
| ItemMeta (m : sales_meta)
| ItemOther.

Inductive error :=
| NotInitialised                  (* Error('[DB] Not initialised.') *)
| SeedFetchFailed                 (* Error('Seed DB fetch failed: ...') *)
| SqlError (e : Sql.sql_error)    (* thrown by sql.js *)
| IdbError                        (* a rejected IndexedDB request *)
| TypeError.                      (* a method call on null *)

(** Ghost events, newest first: they record what happened and take no part
    in what the code does. *)
Inductive event :=
| MarkedDirty                     (* _dirty = true *)
| PersistCalled                   (* persist() entered *)
| Saved (image : Sql.database).   (* a put of _saveToIDB completed *)

Record world := mkWorld {
  _db : option Sql.connection;    (* let _db *)
  _dirty : bool;                  (* let _dirty *)
  idb : option Sql.database;      (* the IndexedDB entry under IDB_KEY *)
  idb_faults : list bool;         (* the puts to come: true when the request fails *)
  seed : option Sql.database;     (* fetch(DB_URL): None when the response is not ok *)
  clock : string;                 (* the local date, as DB.today() formats it *)
  legacy : option (list (string * legacy_item));
                                  (* the old store: None when it cannot be read *)
  trace : list event }.

Definition M (A : Type) : Type := world -> (error + A) * world.

Definition ret {A} (a : A) : M A := fun w => (inr a, w).

Definition bind {A B} (m : M A) (k : A -> M B) : M B :=
  fun w =>
    match m w with
    | (inr a, w') => k a w'
    | (inl e, w') => (inl e, w')
    end.

Definition throw {A} (e : error) : M A := fun w => (inl e, w).

(** [try { m } catch (err) { h(err) }] *)
Definition try_catch {A} (m : M A) (h : error -> M A) : M A :=
  fun w =>
    match m w with
    | (inr a, w') => (inr a, w')
    | (inl e, w') => h e w'
    end.

Definition get : M world := fun w => (inr w, w).
Definition modify (f : world -> world) : M unit := fun w => (inr tt, f w).

Declare Scope monad_scope.
Delimit Scope monad_scope with monad.
Notation "x <- m ;; k" := (bind m (fun x => k))
  (at level 61, m at next level, right associativity) : monad_scope.
Notation "m ;; k" := (bind m (fun _ => k))
  (at level 61, right associativity) : monad_scope.
Local Open Scope monad_scope.

(** [for (const x of l) { body(acc, x) }] with the loop's variables in
    [acc]. *)
Fixpoint for_of {A S} (l : list A) (body : S -> A -> M S) (acc : S) : M S :=
  match l with
  | [] => ret acc
  | x :: r => acc' <- body acc x ;; for_of r body acc'
  end.

Definition set_db (c : option Sql.connection) (w : world) : world :=
  mkWorld c (_dirty w) (idb w) (idb_faults w) (seed w) (clock w) (legacy w) (trace w).
Definition set_dirty (b : bool) (w : world) : world :=
  mkWorld (_db w) b (idb w) (idb_faults w) (seed w) (clock w) (legacy w) (trace w).
Definition record (ev : event) (w : world) : world :=
  mkWorld (_db w) (_dirty w) (idb w) (idb_faults w) (seed w) (clock w) (legacy w)
    (ev :: trace w).

(* ================================================================== *)
(** ** db-core.js

    Not modelled: the two formatting helpers. *)

Module DB.
Import Sql.

Definition REQUIRED_TABLES : list string :=
  ["company"; "days"; "sales"; "settings"].

(** *** IndexedDB helpers *)

Definition _loadFromIDB : M (option database) :=
  w <- get ;; ret (idb w).

Definition _saveToIDB (image : database) : M unit :=
  fun w =>
    match idb_faults w with
    | true :: later =>
        (inl IdbError,
         mkWorld (_db w) (_dirty w) (idb w) later (seed w) (clock w)
           (legacy w) (trace w))
    | _ =>
        (inr tt,
         mkWorld (_db w) (_dirty w) (Some image) (tl (idb_faults w)) (seed w)
           (clock w) (legacy w) (Saved image :: trace w))
    end.

(** *** Schema validation *)

Definition _getExistingTables (db : connection) : list string :=
  tables (content db).

Definition includes (l : list string) (t : string) : bool :=
  existsb (String.eqb t) l.

Definition _isSchemaCurrent (db : connection) : bool :=
  let existing := _getExistingTables db in
  forallb (fun t => includes existing t) REQUIRED_TABLES.

(** *** The live handle *)

(** A method call on [_db]: a [TypeError] when it is null, the error of
    sql.js when the call throws. *)
Definition on_db {A} (f : connection -> sql_error + (A * connection)) : M A :=
  fun w =>
    match _db w with
    | None => (inl TypeError, w)
    | Some c =>
        match f c with
        | inl e => (inl (SqlError e), w)
        | inr (a, c') => (inr a, set_db (Some c') w)
        end
    end.

Definition db_run (f : connection -> sql_error + connection) : M unit :=
  on_db (fun c => match f c with
                  | inl e => inl e
                  | inr c' => inr (tt, c')
                  end).

Definition db_read {A} (f : connection -> A) : M A :=
  on_db (fun c => inr (f c, c)).

(** [if (!_db) throw new Error('[DB] Not initialised.')] *)
Definition require_db : M unit :=
  w <- get ;;
  match _db w with
  | None => throw NotInitialised
  | Some _ => ret tt
  end.

(** *** Initialisation *)

(** Both branches that load the seed file. *)
Definition load_seed : M unit :=
  w <- get ;;
  match seed w with
  | None => throw SeedFetchFailed
  | Some image =>
      modify (set_db (Some (pragma_foreign_keys_on (open image)))) ;;
      c <- db_read export ;;
      _saveToIDB c
  end.

Definition init : M connection :=
  w <- get ;;
  match _db w with
  | Some c => ret c
  | None =>
      saved <- _loadFromIDB ;;
      match saved with
      | Some image =>
          let candidate := open image in
          if _isSchemaCurrent candidate
          then modify (set_db (Some (pragma_foreign_keys_on candidate)))
          else load_seed
      | None => load_seed
      end ;;
      db_read (fun c => c)
  end.

(** *** Persistence *)

Definition persist : M unit :=
  modify (record PersistCalled) ;;
  w <- get ;;
  match _db w with
  | None => ret tt
  | Some c =>
      if negb (_dirty w) then ret tt
      else
        _saveToIDB (export c) ;;
        modify (set_dirty false)
  end.

Definition mark_dirty : M unit :=
  modify (fun w => record MarkedDirty (set_dirty true w)).

(** *** Query, run, transaction *)

Definition query {A} (q : Select.sql A) : M (list A) :=
  require_db ;;
  on_db (Select.exec q).

Record run_result := mkResult {
  changes : Z;
  lastInsertRowid : Z }.

Definition run (s : stmt) : M run_result :=
  require_db ;;
  db_run (Sql.run s) ;;
  mark_dirty ;;
  lastId <- db_read last_insert_rowid ;;
  changes <- db_read rows_modified ;;
  persist ;;
  ret (mkResult changes lastId).

(** Used inside [transaction]: does not persist. *)
Definition _runInTx (s : stmt) : M run_result :=
  db_run (Sql.run s) ;;
  changes <- db_read rows_modified ;;
  lastId <- db_read last_insert_rowid ;;
  ret (mkResult changes lastId).

Definition transaction (fn : (stmt -> M run_result) -> M unit) : M unit :=
  require_db ;;
  try_catch
    (db_run begin ;;
     fn _runInTx ;;
     db_run commit ;;
     mark_dirty ;;
     persist)
    (fun err =>
       db_run rollback ;;
       throw err).

(** *** Export / Restore *)

(** [exportDB(filename)]: the bytes handed to the download are
    [_db.export()]; the anchor and the object URL are not modelled. *)
Definition exportDB : M database :=
  require_db ;;
  db_read export.

(** [restoreDB(file)], the file given by the image its bytes hold.  [_SQL],
    the sql.js constructor, is not part of the world: [sqljs] says whether
    [init] has set it, and [new _SQL.Database] is a [TypeError] when it has
    not (then [_db] is null as well, nothing else assigns it).  Closing the
    old handle leaves nothing in the world. *)
Definition restoreDB (sqljs : bool) (file : database) : M unit :=
  if sqljs
  then
    modify (set_db (Some (pragma_foreign_keys_on (open file)))) ;;
    image <- db_read export ;;
    _saveToIDB image
  else throw TypeError.

(** *** Utilities *)

Definition today : M string :=
  w <- get ;; ret (clock w).

End DB.

(* ================================================================== *)
(** ** db-sales.js

    The day record, the sales line items and the settings.  Not modelled,
    since nothing below is about them: [updateUnitPrice] (its second
    statement rounds in SQL), [updateSale], the totals, the history and the
    company profile. *)

Module DBSales.
Import Sql.

(** [rows[0]], [undefined] when there is none. *)
Definition first {A} (l : list A) : option A := hd_error l.

(** Persist the newly inserted day row: a write through [DB.run] whose
    failure is swallowed, [.catch(() => {})]. *)
Definition _persist (date : string) (opening_stock unit_price : Q) : M unit :=
  try_catch
    (DB.run (UpdateDayPriceByDate unit_price date) ;; ret tt)
    (fun _ => ret tt).

Definition getOrCreateToday : M (option day) :=
  date <- DB.today ;;
  existing <- DB.query (Select.DayByDate date) ;;
  match first existing with
  | Some x => ret (Some x)
  | None =>
      prev <- DB.query (Select.PrevDay date) ;;
      let opening_stock :=
        match first prev with
        | Some p => JsNumber.max0
                      (JsNumber.sub (Select.prev_opening_stock p) (Select.kg_sold p))
        | None => 0%Q
        end in
      let unit_price :=
        match first prev with
        | Some p => Select.prev_unit_price p
        | None => 0%Q
        end in
      DB.query (Select.Write (InsertDay date opening_stock unit_price)) ;;
      _persist date opening_stock unit_price ;;
      created <- DB.query (Select.DayByDate date) ;;
      ret (first created)
  end.

Definition getDay (date : string) : M (option day) :=
  l <- DB.query (Select.DayByDate date) ;; ret (first l).

Definition updateOpeningStock (dayId : Z) (openingStock : Q) : M unit :=
  DB.run (UpdateDayOpeningStock openingStock dayId) ;; ret tt.

Definition getSalesForDay (dayId : Z) : M (list sale) :=
  DB.query (Select.SalesOfDay dayId).

(** [addSale(dayId, {kg, price, comments})]: the new sale's id and seq. *)
Definition addSale (dayId : Z) (kg price : Q) (comments : string) : M (Z * Z) :=
  seqResult <- DB.query (Select.NextSeq dayId) ;;
  let seq :=
    match first seqResult with
    | Some next_seq => if next_seq =? 0 then 1 else next_seq
    | None => 1
    end in
  result <- DB.run (InsertSale dayId seq kg price comments) ;;
  ret (DB.lastInsertRowid result, seq).

(** [rows.forEach((row, i) => f(row, i))], from index [i]. *)
Fixpoint forEach {A} (l : list A) (f : A -> Z -> M unit) (i : Z) : M unit :=
  match l with
  | [] => ret tt
  | x :: r => f x i ;; forEach r f (i + 1)
  end.

Definition deleteSale (saleId dayId : Z) : M unit :=
  DB.transaction (fun tx =>
    tx (DeleteSale saleId) ;;
    rows <- DB.query (Select.SaleIds dayId) ;;
    forEach rows (fun id i => tx (UpdateSaleSeq (i + 1) id) ;; ret tt) 0).

Definition deleteDay (dayId : Z) : M unit :=
  DB.run (DeleteDay dayId) ;; ret tt.

Definition getSetting (key : string) : M (option string) :=
  l <- DB.query (Select.SettingValue key) ;; ret (first l).

Definition saveSetting (key value : string) : M unit :=
  DB.run (UpsertSetting key value) ;; ret tt.

End DBSales.

(* ================================================================== *)
(** ** migrate.js *)

Module Migrate.

Definition MIGRATION_DONE_KEY : string := "migration_v1_done".

Definition isDone : M bool :=
  v <- DBSales.getSetting MIGRATION_DONE_KEY ;;
  ret (match v with
       | Some s => String.eqb s "1"
       | None => false
       end).

(** *** One CSV string *)

Definition comma : ascii := ","%char.
Definition newline : ascii := "010"%char.

Definition csv_lines (csvString : string) : list string :=
  filter (fun l => JsString.truthy l && negb (JsString.startsWith l "S/NO"))
    (map JsString.trim (JsString.split newline csvString)).

Section Parser.

Context {B : JsNumber.Builtins}.

Record csv_sale := mkCsvSale {
  seq : JsNumber.int;
  kg : JsNumber.num;
  price : JsNumber.num;
  comments : string }.

Record parsed := mkParsed {
  unitPrice : JsNumber.num;
  openingStock : JsNumber.num;
  sales : list csv_sale }.

(** The variables of the loop of [_parseCSV]. *)
Record csv_state := mkCsvState {
  st_sales : list csv_sale;
  st_unitPrice : JsNumber.num;
  st_openStock : JsNumber.num;
  st_firstRow : bool }.

(** The six values read from the columns of one line. *)
Record csv_row := mkCsvRow {
  row_seq : JsNumber.int;
  row_kg : JsNumber.num;
  row_price : JsNumber.num;
  row_comments : string;
  row_unit : JsNumber.num;
  row_balance : JsNumber.num }.

Definition read_row (cols : list string) : csv_row :=
  mkCsvRow
    (JsNumber.parseInt_or_0 (nth_error cols 0))
    (JsNumber.parseFloat_or_0 (nth_error cols 1))
    (JsNumber.parseFloat_or_0 (nth_error cols 2))
    (JsString.trim (match nth_error cols 3 with
                    | Some s => s
                    | None => ""
                    end))
    (JsNumber.parseFloat_or_0 (nth_error cols 4))
    (JsNumber.parseFloat_or_0 (nth_error cols 5)).

(** The body of [for (const line of lines)]. *)
Definition csv_step (st : csv_state) (line : string) : csv_state :=
  let cols := JsString.split comma line in
  if (List.length cols <? 4)%nat then st
  else
    let r := read_row cols in
    let unitPrice := if JsNumber.positive (row_unit r) then row_unit r
                     else st_unitPrice st in
    let derive := st_firstRow st && JsNumber.positive (row_kg r) in
    let openStock := if derive then JsNumber.plus (row_balance r) (row_kg r)
                     else st_openStock st in
    let firstRow := if derive then false else st_firstRow st in
    let sales := if JsNumber.positive (row_kg r)
                 then (st_sales st ++ [mkCsvSale (row_seq r) (row_kg r)
                                         (row_price r) (row_comments r)])%list
                 else st_sales st in
    mkCsvState sales unitPrice openStock firstRow.

Definition _parseCSV (csvString : string) : option parsed :=
  let lines := csv_lines csvString in
  match lines with
  | [] => None
  | _ =>
      let st := fold_left csv_step lines
                  (mkCsvState [] JsNumber.zero JsNumber.zero true) in
      Some (mkParsed (st_unitPrice st) (st_openStock st) (st_sales st))
  end.

End Parser.


(** *** The old store *)

Definition items := list (string * legacy_item).

(** [store.keys()] *)
Definition keys (store : items) : list string := map fst store.

(** [store.getItem(key)], null when there is no such key. *)
Definition getItem (store : items) (key : string) : option legacy_item :=
  match find (fun kv => String.eqb (fst kv) key) store with
  | Some kv => Some (snd kv)
  | None => None
  end.

(** *** The migration *)

(** What [run] resolves to. *)
Inductive result :=
| AlreadyDone                            (* { skipped: true } *)
| StoreMissing                           (* { migrated: 0, skipped: true } *)
| StoreEmpty                             (* { migrated: 0 } *)
| Summary (migrated sales skipped : Z).  (* { migrated, sales, skipped } *)

(** The counters of [run]. *)
Record counters := mkCounters {
  migratedDays : Z;
  migratedSales : Z;
  skippedDays : Z }.

(** Insert sales rows: the inner loop of step 3. *)
Definition insert_parsed_sales (dayId : Z) (l : list csv_sale) (n : counters)
  : M counters :=
  for_of l
    (fun n s =>
       DB.run (Sql.InsertSale dayId (seq s) (kg s) (price s) (comments s)) ;;
       ret (mkCounters (migratedDays n) (migratedSales n + 1) (skippedDays n)))
    n.

(** The body of [for (const key of dailyKeys)]; each [continue] is a
    [ret n]. *)
Definition migrate_daily (store : items) (n : counters) (key : string)
  : M counters :=
  let date := JsString.replace key "dailySales_" "" in
  existing <- DBSales.getDay date ;;
  match existing with
  | Some _ =>
      ret (mkCounters (migratedDays n) (migratedSales n) (skippedDays n + 1))
  | None =>
      match getItem store key with
      | Some (ItemString csv) =>
          if negb (JsString.truthy csv) then ret n
          else
            match _parseCSV csv with
            | None => ret n
            | Some p =>
                match sales p with
                | [] => ret n
                | _ =>
                    dayResult <- DB.run (Sql.InsertDayOrIgnore date
                                           (openingStock p) (unitPrice p)) ;;
                    let dayId := DB.lastInsertRowid dayResult in
                    if dayId =? 0 then ret n
                    else
                      n' <- insert_parsed_sales dayId (sales p) n ;;
                      ret (mkCounters (migratedDays n' + 1) (migratedSales n')
                             (skippedDays n'))
                end
            end
      | _ => ret n
      end
  end.

(** [for (let i = 0; i < validSales.length; i++)], from index [i]. *)
Fixpoint insert_chunk_sales (dayId : Z) (unitPrice : Q)
    (validSales : list chunk_entry) (i : Z) (n : counters) : M counters :=
  match validSales with
  | [] => ret n
  | s :: r =>
      let kg := JsNumber.or_else (JsNumber.parseFloat_opt (entry_gas s)) 0 in
      let price := JsNumber.or_else (JsNumber.parseFloat_opt (entry_price s))
                     (JsNumber.mul kg unitPrice) in
      DB.run (Sql.InsertSale dayId (i + 1) kg price
                (match entry_comments s with
                 | Some c => if JsString.truthy c then c else ""
                 | None => ""
                 end)) ;;
      insert_chunk_sales dayId unitPrice r (i + 1)
        (mkCounters (migratedDays n) (migratedSales n + 1) (skippedDays n))
  end.

Definition positive_gas (s : chunk_entry) : bool :=
  match JsNumber.parseFloat_opt (entry_gas s) with
  | Some x => JsNumber.gt0 x
  | None => false
  end.

(** Step 4: today's live chunks. *)
Definition migrate_chunks (store : items) (chunkKeys : list string)
    (n : counters) : M counters :=
  let meta := getItem store "salesMeta" in
  todayDate <- DB.today ;;
  todayExists <- DBSales.getDay todayDate ;;
  match todayExists with
  | Some _ => ret n
  | None =>
      let field (f : sales_meta -> option string) :=
        match meta with
        | Some (ItemMeta m) => f m
        | _ => None
        end in
      let unitPrice := JsNumber.or_else
                         (JsNumber.parseFloat_opt (field meta_unitPrice)) 0 in
      let openStock := JsNumber.or_else
                         (JsNumber.parseFloat_opt (field meta_newStock)) 0 in
      let allSales :=
        fold_left
          (fun all key =>
             match getItem store key with
             | Some (ItemArray chunk) => (all ++ chunk)%list
             | _ => all
             end)
          chunkKeys [] in
      let validSales := filter positive_gas allSales in
      match validSales with
      | [] => ret n
      | _ =>
          dayResult <- DB.run (Sql.InsertDayOrIgnore todayDate openStock unitPrice) ;;
          let dayId := DB.lastInsertRowid dayResult in
          if dayId =? 0 then ret n
          else
            n' <- insert_chunk_sales dayId unitPrice validSales 0 n ;;
            ret (mkCounters (migratedDays n' + 1) (migratedSales n')
                   (skippedDays n'))
      end
  end.

(** The comparator of the chunk keys, [na - nb <= 0]; a [NaN] difference
    counts as equal. *)
Definition chunk_le (a b : string) : bool :=
  match JsNumber.parseInt (JsString.replace a "salesChunk_" ""),
        JsNumber.parseInt (JsString.replace b "salesChunk_" "") with
  | Some na, Some nb => na <=? nb
  | _, _ => true
  end.

(** [run(onProgress)]; the log lines are not modelled. *)
Definition run : M result :=
  done <- isDone ;;
  if done then ret AlreadyDone
  else
    w <- get ;;
    match legacy w with
    | None =>
        DBSales.saveSetting MIGRATION_DONE_KEY "1" ;;
        ret StoreMissing
    | Some store =>
        let allKeys := keys store in
        match allKeys with
        | [] =>
            DBSales.saveSetting MIGRATION_DONE_KEY "1" ;;
            ret StoreEmpty
        | _ =>
            let dailyKeys :=
              Stable.sort String.leb
                (filter (fun k => JsString.startsWith k "dailySales_") allKeys) in
            let chunkKeys :=
              Stable.sort chunk_le
                (filter (fun k => JsString.startsWith k "salesChunk_") allKeys) in
            n <- for_of dailyKeys (migrate_daily store) (mkCounters 0 0 0) ;;
            n <- match chunkKeys with
                 | [] => ret n
                 | _ => migrate_chunks store chunkKeys n
                 end ;;
            DBSales.saveSetting MIGRATION_DONE_KEY "1" ;;
            ret (Summary (migratedDays n) (migratedSales n) (skippedDays n))
        end
    end.

End Migrate.


(* ================================================================== *)
(** * Vocabulary of the properties *)

Import Sql.

(** No put of the IndexedDB entry is scheduled to fail. *)
Definition reliable (w : world) : Prop :=
  forallb negb (idb_faults w) = true.

(** The world after a [DB.run] whose statement took the connection to [c']
    and whose put completed. *)
Definition written (c' : connection) (w : world) : world :=
  mkWorld (Some c') false (Some (content c')) (tl (idb_faults w)) (seed w)
    (clock w) (legacy w)
    (Saved (content c') :: PersistCalled :: MarkedDirty :: trace w).

(** How often the flag was set, [persist] entered and the entry written,
    in a run of events. *)
Definition marks (t : list event) : nat :=
  List.length (filter (fun ev => match ev with MarkedDirty => true | _ => false end) t).
Definition calls (t : list event) : nat :=
  List.length (filter (fun ev => match ev with PersistCalled => true | _ => false end) t).
Definition saves (t : list event) : nat :=
  List.length (filter (fun ev => match ev with Saved _ => true | _ => false end) t).

(** [n] calls of [persist] in a row, whatever each of them answers. *)
Fixpoint persist_again (n : nat) (w : world) : world :=
  match n with
  | O => w
  | S k => persist_again k (snd (DB.persist w))
  end.

(** The caller of [transaction] that issues the statements [ops] through
    [tx], in order. *)
Fixpoint in_order (ops : list stmt) (tx : stmt -> M DB.run_result) : M unit :=
  match ops with
  | [] => ret tt
  | s :: r => tx s ;; in_order r tx
  end.

(** The statements [ops] one after the other on a connection, up to the
    first that fails. *)
Fixpoint run_all (ops : list stmt) (c : connection) : sql_error + connection :=
  match ops with
  | [] => inr c
  | s :: r =>
      match Sql.run s c with
      | inl e => inl e
      | inr c' => run_all r c'
      end
  end.

(** The connection once BEGIN has run on an idle connection [c]. *)
Definition begun (c : connection) : connection :=
  mkConnection (content c) (Some (content c)) (foreign_keys c)
    (last_insert_rowid c) (rows_modified c).

(** A small initialised world: the seed image loaded, nothing to write. *)
Definition seed_image : database := mkDatabase DB.REQUIRED_TABLES [] [] [].

Definition fresh_world : world :=
  mkWorld (Some (pragma_foreign_keys_on (open seed_image))) false (Some seed_image)
    [] (Some seed_image) "2026-02-03" None [].

(** The connection after ROLLBACK, reached from [begun c] at [ck]. *)
Definition rolled_back (c ck : connection) : connection :=
  mkConnection (content c) None (foreign_keys ck)
    (last_insert_rowid ck) (rows_modified ck).

(** The connection after COMMIT at [cn]. *)
Definition committed (cn : connection) : connection :=
  mkConnection (content cn) None (foreign_keys cn)
    (last_insert_rowid cn) (rows_modified cn).

(** A stored image without the sales table. *)
Definition no_sales_image : database :=
  mkDatabase ["company"; "days"; "settings"] [] [] [].

Section ParserWords.

Context {B : JsNumber.Builtins}.

(** The rows of a CSV text in the words of the specification: of its
    lines, trimmed, those that are not blank, do not start with the header
    and have at least four columns, each read as six values. *)
Definition csv_rows (lines : list string) : list Migrate.csv_row :=
  map Migrate.read_row
    (filter (fun cols => negb (List.length cols <? 4)%nat)
       (map (JsString.split Migrate.comma) lines)).

Definition positive_kg (r : Migrate.csv_row) : bool :=
  JsNumber.positive (Migrate.row_kg r).

(** The rows with a positive quantity, as sales. *)
Definition spec_sales (rows : list Migrate.csv_row) : list Migrate.csv_sale :=
  map (fun r => Migrate.mkCsvSale (Migrate.row_seq r) (Migrate.row_kg r)
                  (Migrate.row_price r) (Migrate.row_comments r))
    (filter positive_kg rows).

(** The last positive unit-price value in file order, [d] when there is
    none. *)
Definition spec_unitPrice (rows : list Migrate.csv_row) (d : JsNumber.num)
  : JsNumber.num :=
  last (filter JsNumber.positive (map Migrate.row_unit rows)) d.

(** Balance plus quantity of the first row with a positive quantity. *)
Definition spec_openingStock (rows : list Migrate.csv_row) (d : JsNumber.num)
  : JsNumber.num :=
  match find positive_kg rows with
  | Some r => JsNumber.plus (Migrate.row_balance r) (Migrate.row_kg r)
  | None => d
  end.

End ParserWords.

(** The two rows of the specification's example. *)
Definition example_csv : string :=
  "1,5,6250,Paid,1250,115.00" ++ String Migrate.newline "2,3,3750,Paid,1250,112.00".

(** The Day that [getOrCreateToday] carries forward from: of the days dated
    before [today], the one dated last. *)
Definition prior_day (d : database) (today : string) : option day :=
  Select.latest (filter (Select.before today) (days d)).

(** The kg sold on a day: the sum over its sales. *)
Definition kg_sold_on (d : database) (x : day) : Q :=
  Select.sum_kg (filter (Select.of_day (day_id x)) (sales d)).

(** The opening stock and unit price that a new Day is given. *)
Definition carried (d : database) (today : string) : Q * Q :=
  match prior_day d today with
  | Some p => (JsNumber.max0 (JsNumber.sub (day_opening_stock p) (kg_sold_on d p)),
               day_unit_price p)
  | None => (0%Q, 0%Q)
  end.

Definition new_day (d : database) (today : string) : day :=
  mkDay (next_rowid (map day_id (days d))) today
    (fst (carried d today)) (snd (carried d today)).

(** A world whose last Day opened with [stock] kg and sold [sold]: one Day
    on 2026-02-02 with its sales, today being 2026-02-03. *)
Definition day_before (stock : Q) (sold : list Q) : database :=
  mkDatabase DB.REQUIRED_TABLES
    [mkDay 1 "2026-02-02" stock 1250]
    (map (fun kq => mkSale (fst kq) 1 (fst kq) (snd kq) 0 "")
       (combine (map Z.of_nat (seq 1 (List.length sold))) sold))
    [].

Definition world_after (stock : Q) (sold : list Q) : world :=
  mkWorld (Some (pragma_foreign_keys_on (open (day_before stock sold)))) false
    (Some (day_before stock sold)) [] (Some seed_image) "2026-02-03" None [].

(** An engine that is initialised on a database with the required tables,
    whose puts do not fail. *)
Definition ready (w : world) (c : connection) : Prop :=
  _db w = Some c /\ DB._isSchemaCurrent c = true /\ reliable w.

(** The marker is set: [isDone] answers true (it never changes the
    world). *)
Definition marker_set (w : world) : Prop :=
  Migrate.isDone w = (inr true, w).

(** The integers [start+1, ..., start+len]. *)
Fixpoint count_from (start : Z) (len : nat) : list Z :=
  match len with
  | O => []
  | S k => (start + 1) :: count_from (start + 1) k
  end.

(** A ready engine in front of an old store with one historical day (the
    CSV of the specification's example) and one live chunk. *)
Definition old_store : list (string * legacy_item) :=
  [("salesMeta", ItemMeta (mkMeta (Some "1300") (Some "50")));
   ("salesChunk_0", ItemArray [mkEntry (Some "4") (Some "5200") (Some "Paid");
                               mkEntry (Some "0") None None;
                               mkEntry (Some "2") None None]);
   ("dailySales_2026-02-01", ItemString example_csv)].

Definition world_with (store : option (list (string * legacy_item))) : world :=
  mkWorld (Some (pragma_foreign_keys_on (open seed_image))) false (Some seed_image)
    [] (Some seed_image) "2026-02-03" store [].

(** The comparison of ORDER BY: by a key. *)
Definition key_le (A : Type) (key : A -> Z) (x y : A) : bool := key x <=? key y.

(** A sale with another sequence number. *)
Definition with_seq (n : Z) (x : sale) : sale :=
  mkSale (sale_id x) (sale_day_id x) n (sale_kg x) (sale_price x) (sale_comments x).

(** The sales of a list numbered [i+1], [i+2], ... in the order of the
    list. *)
Fixpoint renumber (i : Z) (l : list sale) : list sale :=
  match l with
  | [] => []
  | x :: r => with_seq (i + 1) x :: renumber (i + 1) r
  end.

(** The Sales of a Day have the sequence numbers 1, ..., count, in the
    order of [getSalesForDay]. *)
Definition dense (d : database) (day : Z) : Prop :=
  map sale_seq (Select.sales_of_day d day) =
    count_from 0 (List.length (Select.sales_of_day d day)).

(** The table after the updates [UPDATE sales SET seq = i+1+k WHERE id =
    ids[k]], one after the other. *)
Fixpoint assign (ids : list Z) (i : Z) (l : list sale) : list sale :=
  match ids with
  | [] => l
  | id :: r =>
      assign r (i + 1)
        (update_where (fun x => sale_id x =? id) (with_seq (i + 1)) l)
  end.

Fixpoint position (id : Z) (ids : list Z) : option Z :=
  match ids with
  | [] => None
  | j :: r => if j =? id then Some 0 else option_map Z.succ (position id r)
  end.

Definition numbered (ids : list Z) (i : Z) (x : sale) : sale :=
  match position (sale_id x) ids with
  | Some k => with_seq (i + k + 1) x
  | None => x
  end.

(** What [addSale] reads as the next sequence number of a Day. *)
Definition next_seq (d : database) (day : Z) : Z :=
  match Select.max_seq (filter (Select.of_day day) (sales d)) with
  | Some m => m
  | None => 0
  end + 1.

(** A historical CSV in which the second of three rows sold nothing. *)
Definition gap_csv : string :=
  "1,5,6250,Paid,1250,115.00" ++ String Migrate.newline
  ("2,0,0,,1250,115.00" ++ String Migrate.newline
   "3,4,5000,Paid,1250,111.00").

Definition gap_store : list (string * legacy_item) :=
  [("dailySales_2026-02-01", ItemString gap_csv)].





(** The world that an [init] leaves which fetched the seed and failed to
    put it. *)
Definition init_failed_world : world :=
  Eval vm_compute in
    snd (DB.init (mkWorld None false None [true] (Some seed_image) "2026-02-03"
                    None [])).

(** ** Vocabulary of the further properties *)

(** No stored image, or one that the guard rejects. *)
Definition must_reseed (w : world) : Prop :=
  match idb w with
  | Some image => DB._isSchemaCurrent (open image) = false
  | None => True
  end.

(** A SELECT, as opposed to a write statement handed to [query]. *)
Definition is_select {A} (q : Select.sql A) : bool :=
  match q with
  | Select.Write _ => false
  | _ => true
  end.

(** The IndexedDB entry holds the image of the live database and nothing
    is waiting to be written. *)
Definition synced (w : world) : Prop :=
  exists c, _db w = Some c /\ idb w = Some (content c) /\ _dirty w = false.

(** The connection after [getOrCreateToday] has created today's Day. *)
Definition with_today (c : connection) (today : string) : connection :=
  mkConnection
    (set_days (content c) (days (content c) ++ [new_day (content c) today]))
    (tx_saved c) (foreign_keys c) (day_id (new_day (content c) today)) 1.

(** The world after [getOrCreateToday] has created today's Day: the put of
    its write either completed or failed. *)
Definition today_created (w : world) (c : connection) : world :=
  match idb_faults w with
  | true :: later =>
      mkWorld (Some (with_today c (clock w))) true (idb w) later (seed w)
        (clock w) (legacy w) (PersistCalled :: MarkedDirty :: trace w)
  | _ =>
      mkWorld (Some (with_today c (clock w))) false
        (Some (content (with_today c (clock w)))) (tl (idb_faults w)) (seed w)
        (clock w) (legacy w)
        (Saved (content (with_today c (clock w)))
           :: PersistCalled :: MarkedDirty :: trace w)
  end.

(** Two Days, of three Sales and of one, the Sales numbered from 1 in each. *)
Definition two_days : database :=
  mkDatabase DB.REQUIRED_TABLES
    [mkDay 1 "2026-02-01" 100 1250; mkDay 2 "2026-02-02" 80 1250]
    [mkSale 1 1 1 5 6250 "a"; mkSale 2 1 2 3 3750 "b"; mkSale 3 1 3 4 5000 "c";
     mkSale 4 2 1 2 2500 "d"]
    [].

Definition two_days_world : world :=
  mkWorld (Some (pragma_foreign_keys_on (open two_days))) false (Some two_days)
    [] (Some seed_image) "2026-02-03" None [].

(** The call [addSale(1, 7, 8750, 'e')] on the two Days, evaluated. *)
Definition sale_added : (error + Z * Z) * world :=
  Eval vm_compute in DBSales.addSale 1 (7 # 1) (8750 # 1) "e" two_days_world.

(** The rowids of the Days are positive, as the rowids sqlite gives are. *)
Definition positive_day_ids (d : database) : Prop :=
  forall x, In x (days d) -> 0 < day_id x.

(** [d'] is [d] with the Days [nd] and the Sales [ns] added at the end, the
    Sales all of the added Days. *)
Definition appended (d d' : database) (nd : list day) (ns : list sale) : Prop :=
  days d' = (days d ++ nd)%list /\
  sales d' = (sales d ++ ns)%list /\
  incl (map sale_day_id ns) (map day_id nd).

(** A daily record that the importer can read: a non-empty CSV string with
    at least one row that sold something. *)
Definition importable (store : Migrate.items) (key : string) : bool :=
  match Migrate.getItem store key with
  | Some (ItemString csv) =>
      JsString.truthy csv &&
      match Migrate._parseCSV csv with
      | Some p => match Migrate.sales p with [] => false | _ => true end
      | None => false
      end
  | _ => false
  end.

(** The two Days with the old store beside them: its daily record is of a
    date that has a Day, its live chunk is of today, which has none. *)
Definition two_days_store_world : world :=
  mkWorld (Some (pragma_foreign_keys_on (open two_days))) false (Some two_days)
    [] (Some seed_image) "2026-02-03" (Some old_store) [].

Definition two_days_imported : world :=
  Eval vm_compute in snd (Migrate.run two_days_store_world).

Definition old_store_imported : world :=
  Eval vm_compute in snd (Migrate.run (world_with (Some old_store))).

Definition carriage_return : ascii := "013"%char.

(** The text with every line feed turned into carriage return, line
    feed. *)
Fixpoint crlf_chars (l : list ascii) : list ascii :=
  match l with
  | [] => []
  | c :: r =>
      if Ascii.eqb c Migrate.newline
      then carriage_return :: c :: crlf_chars r
      else c :: crlf_chars r
  end.

Definition crlf (s : string) : string :=
  JsString.of_chars (crlf_chars (JsString.chars s)).

(** A carriage return after every piece but the last. *)
Fixpoint returns_added (pieces : list (list ascii)) : list (list ascii) :=
  match pieces with
  | [] => []
  | p :: rest =>
      match rest with
      | [] => [p]
      | _ => (p ++ [carriage_return])%list :: returns_added rest
      end
  end.

(** The world of the next page load: the variables of the module are
    initial again, IndexedDB and the rest are as they were. *)
Definition reloaded (w : world) : world :=
  mkWorld None false (idb w) (idb_faults w) (seed w) (clock w) (legacy w) (trace w).

(* ================================================================== *)
(** * Properties *)

(** ** Running in the monad *)

Lemma bind_inr {A B} (m : M A) (k : A -> M B) (w w' : world) (b : B) :
  bind m k w = (inr b, w') ->
  exists a w1, m w = (inr a, w1) /\ k a w1 = (inr b, w').
Proof.
  unfold bind. destruct (m w) as [[e | a] w1]; intros H.
  - discriminate.
  - exists a, w1. split; [reflexivity | exact H].
Qed.

Lemma bind_ok {A B} (m : M A) (k : A -> M B) (w w1 : world) (a : A) :
  m w = (inr a, w1) -> bind m k w = k a w1.
Proof. unfold bind. intros ->. reflexivity. Qed.

Lemma bind_fail {A B} (m : M A) (k : A -> M B) (w w1 : world) (e : error) :
  m w = (inl e, w1) -> bind m k w = (inl e, w1).
Proof. unfold bind. intros ->. reflexivity. Qed.

Lemma reliable_written c' w : reliable w -> reliable (written c' w).
Proof.
  unfold reliable, written; simpl.
  destruct (idb_faults w) as [| b l]; simpl; [auto |].
  intros H. apply andb_prop in H. tauto.
Qed.

Lemma reliable_head w :
  reliable w ->
  match idb_faults w with true :: _ => False | _ => True end.
Proof.
  unfold reliable. destruct (idb_faults w) as [| [|] l]; simpl; auto.
  discriminate.
Qed.

Lemma require_db_some w c : _db w = Some c -> DB.require_db w = (inr tt, w).
Proof. unfold DB.require_db, bind, get. intros ->. reflexivity. Qed.

Lemma require_db_none w : _db w = None -> DB.require_db w = (inl NotInitialised, w).
Proof. unfold DB.require_db, bind, get. intros ->. reflexivity. Qed.

(** [DB.run] before initialisation. *)
Lemma run_not_initialised s w :
  _db w = None -> DB.run s w = (inl NotInitialised, w).
Proof.
  intros H. unfold DB.run.
  rewrite (bind_fail _ _ _ _ _ (require_db_none w H)). reflexivity.
Qed.

(** [DB.run] when the statement throws. *)
Lemma run_statement_fails s w c e :
  _db w = Some c -> Sql.run s c = inl e ->
  DB.run s w = (inl (SqlError e), w).
Proof.
  intros H E. unfold DB.run.
  rewrite (bind_ok _ _ _ _ _ (require_db_some w c H)).
  unfold bind, DB.db_run, DB.on_db. rewrite H, E. reflexivity.
Qed.

(** [DB.run] when the statement completes: the dirty mark, then
    [persist]. *)
Lemma run_statement_ok s w c c' :
  _db w = Some c -> Sql.run s c = inr c' ->
  DB.run s w =
    (DB.persist ;; ret (DB.mkResult (rows_modified c') (last_insert_rowid c')))
      (record MarkedDirty (set_dirty true (set_db (Some c') w))).
Proof.
  intros H E. unfold DB.run.
  rewrite (bind_ok _ _ _ _ _ (require_db_some w c H)).
  unfold bind at 1. unfold DB.db_run, DB.on_db. rewrite H, E.
  reflexivity.
Qed.

Lemma persist_dirty_ok w c :
  _db w = Some c -> _dirty w = true ->
  match idb_faults w with true :: _ => False | _ => True end ->
  DB.persist w =
    (inr tt,
     mkWorld (Some c) false (Some (content c)) (tl (idb_faults w)) (seed w)
       (clock w) (legacy w) (Saved (content c) :: PersistCalled :: trace w)).
Proof.
  intros H D F. unfold DB.persist, bind, modify, get, record, DB._saveToIDB; simpl.
  rewrite H, D; simpl.
  destruct (idb_faults w) as [| [|] l]; simpl; try contradiction; reflexivity.
Qed.

Lemma run_ok s w c c' :
  _db w = Some c -> Sql.run s c = inr c' -> reliable w ->
  DB.run s w =
    (inr (DB.mkResult (rows_modified c') (last_insert_rowid c')), written c' w).
Proof.
  intros H E R. rewrite (run_statement_ok s w c c' H E).
  erewrite bind_ok.
  2:{ apply persist_dirty_ok with (c := c'); simpl; auto.
      apply (reliable_head w R). }
  reflexivity.
Qed.

(** ** The engine: [run], [persist], [transaction] *)

Lemma persist_idle w :
  _dirty w = false \/ _db w = None ->
  DB.persist w = (inr tt, record PersistCalled w).
Proof.
  intros H. unfold DB.persist, bind, modify, get; simpl.
  destruct (_db w) as [c |]; [| reflexivity].
  destruct H as [H | H]; [rewrite H; reflexivity | discriminate].
Qed.

Lemma persist_dirty_fault w c later :
  _db w = Some c -> _dirty w = true -> idb_faults w = true :: later ->
  DB.persist w =
    (inl IdbError,
     mkWorld (Some c) true (idb w) later (seed w) (clock w) (legacy w)
       (PersistCalled :: trace w)).
Proof.
  intros H D F. unfold DB.persist, bind, modify, get, record, DB._saveToIDB; simpl.
  rewrite H, D; simpl. rewrite F. reflexivity.
Qed.

(** What one call of [persist] does, case by case. *)
Lemma persist_cases w :
  (DB.persist w = (inr tt, record PersistCalled w) /\
   (_dirty w = false \/ _db w = None)) \/
  (exists c later, _db w = Some c /\ _dirty w = true /\
     idb_faults w = true :: later /\
     DB.persist w =
       (inl IdbError,
        mkWorld (Some c) true (idb w) later (seed w) (clock w) (legacy w)
          (PersistCalled :: trace w))) \/
  (exists c, _db w = Some c /\ _dirty w = true /\
     DB.persist w =
       (inr tt,
        mkWorld (Some c) false (Some (content c)) (tl (idb_faults w)) (seed w)
          (clock w) (legacy w) (Saved (content c) :: PersistCalled :: trace w))).
Proof.
  destruct (_db w) as [c |] eqn:H.
  - destruct (_dirty w) eqn:D.
    + destruct (idb_faults w) as [| [|] later] eqn:F.
      * right; right. exists c. repeat split; auto. rewrite <- F.
        apply persist_dirty_ok; auto. rewrite F; exact I.
      * right; left. exists c, later. repeat split; auto.
        apply persist_dirty_fault; auto.
      * right; right. exists c. repeat split; auto. rewrite <- F.
        apply persist_dirty_ok; auto. rewrite F; exact I.
    + left. split; [apply persist_idle |]; auto.
  - left. split; [apply persist_idle |]; auto.
Qed.

Lemma persist_again_idle n : forall w,
  _dirty w = false \/ _db w = None ->
  persist_again n w = Nat.iter n (record PersistCalled) w.
Proof.
  induction n as [| n IH]; intros w H; [reflexivity |].
  simpl. rewrite (persist_idle w H); simpl.
  rewrite IH.
  - clear. induction n as [| n IH]; [reflexivity |].
    simpl. rewrite IH. reflexivity.
  - destruct H as [H | H]; [left | right]; exact H.
Qed.

Lemma saves_iter_record n w :
  saves (trace (Nat.iter n (record PersistCalled) w)) = saves (trace w).
Proof.
  induction n as [| n IH]; [reflexivity |]. simpl. exact IH.
Qed.

Lemma saves_persist_again n : forall w,
  (saves (trace (persist_again n w)) <= saves (trace w) + 1)%nat.
Proof.
  induction n as [| n IH]; intros w; simpl; [lia |].
  destruct (persist_cases w) as [[E H] | [(c & later & H & D & F & E) | (c & H & D & E)]];
    rewrite E; simpl.
  - specialize (IH (record PersistCalled w)). simpl in IH. exact IH.
  - match goal with |- context [persist_again n ?x] => specialize (IH x) end.
    simpl in IH. exact IH.
  - rewrite persist_again_idle by (left; reflexivity).
    rewrite saves_iter_record. unfold saves; simpl. lia.
Qed.

(** C9. [DB.run] while there is no handle ([_db] is null) throws
    [NotInitialised] and leaves the world as it was; when the statement
    throws, the error of sql.js is what the caller gets and the world is as
    it was (the dirty flag not touched, [persist] not entered); when the
    statement completes, the flag is set and [persist] is then entered,
    once: with the put completing the result is read from the statement and
    the flag is clear again, with the put failing the caller gets that
    failure and the flag stays set.  With no transaction open, the database
    afterwards holds what the statement produced. *)
Theorem run_contract (s : stmt) (w : world) :
  (_db w = None -> DB.run s w = (inl NotInitialised, w)) /\
  (forall c e, _db w = Some c -> Sql.run s c = inl e ->
     DB.run s w = (inl (SqlError e), w)) /\
  (forall c c', _db w = Some c -> Sql.run s c = inr c' ->
     exists r w' evs,
       DB.run s w = (r, w') /\
       trace w' = (evs ++ [PersistCalled; MarkedDirty] ++ trace w)%list /\
       saves evs = List.length evs /\ marks evs = O /\ calls evs = O /\
       match idb_faults w with
       | true :: _ => r = inl IdbError /\ _dirty w' = true /\ idb w' = idb w
       | _ =>
           r = inr (DB.mkResult (rows_modified c') (last_insert_rowid c')) /\
           _dirty w' = false
       end /\
       (tx_saved c = None ->
        (exists h, _db w' = Some h /\ content h = content c') /\
        match idb_faults w with
        | true :: _ => True
        | _ => idb w' = Some (content c')
        end)).
Proof.
  split; [apply run_not_initialised |].
  split; [apply run_statement_fails |].
  intros c c' H E.
  rewrite (run_statement_ok s w c c' H E).
  set (m := record MarkedDirty (set_dirty true (set_db (Some c') w))).
  assert (Hm : _db m = Some c') by reflexivity.
  assert (Dm : _dirty m = true) by reflexivity.
  destruct (persist_cases m) as [[P [D | D]] | [(c1 & later & H1 & D1 & F1 & P) | (c1 & H1 & D1 & P)]].
  - rewrite Dm in D; discriminate.
  - rewrite Hm in D; discriminate.
  - rewrite (bind_fail _ _ _ _ _ P).
    eexists _, _, []. split; [reflexivity |]. cbn in F1. rewrite F1. cbn.
    rewrite Hm in H1. injection H1 as <-.
    repeat split. exists c'. split; reflexivity.
  - rewrite (bind_ok _ _ _ _ _ P).
    rewrite Hm in H1. injection H1 as <-.
    eexists _, _, [Saved (content c')]. split; [reflexivity |]. cbn.
    destruct (idb_faults w) as [| [|] later] eqn:F.
    + repeat split. exists c'. split; reflexivity.
    + exfalso. clear - P F.
      unfold DB.persist, bind, modify, get, record, DB._saveToIDB in P.
      cbn in P. rewrite F in P. discriminate P.
    + repeat split. exists c'. split; reflexivity.
Qed.

Lemma run_contract_witness :
  DB.run (InsertDay "2026-02-03" 0 0) (set_db None fresh_world)
    = (inl NotInitialised, set_db None fresh_world) /\
  DB.run (InsertSale 7 1 0 0 "") fresh_world
    = (inl (SqlError ForeignKeyViolation), fresh_world) /\
  exists r w' evs h,
    DB.run (InsertDay "2026-02-03" 0 0) fresh_world = (r, w') /\
    trace w' = (evs ++ [PersistCalled; MarkedDirty] ++ trace fresh_world)%list /\
    _db w' = Some h /\ List.length (days (content h)) = 1%nat.
Proof.
  split; [| split].
  - apply (proj1 (run_contract (InsertDay "2026-02-03" 0 0) (set_db None fresh_world))).
    reflexivity.
  - eapply (proj1 (proj2 (run_contract (InsertSale 7 1 0 0 "") fresh_world)));
      reflexivity.
  - destruct (proj2 (proj2 (run_contract (InsertDay "2026-02-03" 0 0) fresh_world))
                _ _ eq_refl eq_refl) as (r & w' & evs & E & T & _ & _ & _ & _ & K).
    destruct (K eq_refl) as ((h & Hh & Ch) & _).
    exists r, w', evs, h. split; [exact E |]. split; [exact T |].
    split; [exact Hh |]. rewrite Ch. reflexivity.
Defined.

(** C9, as the specification words it, fails: an [init] that throws on the
    put of the seed has not completed, yet it has set the handle, and a
    [run] after it does not throw [NotInitialised]: it executes the
    statement, which adds a Day here, and returns. *)
Lemma run_contract_counterexample :
  exists w1 r w2 h,
    DB.init (mkWorld None false None [true] (Some seed_image) "2026-02-03" None [])
      = (inl IdbError, w1) /\
    option_map (fun c => List.length (days (content c))) (_db w1) = Some 0%nat /\
    DB.run (InsertDay "2026-02-03" 0 0) w1 = (inr r, w2) /\
    _db w2 = Some h /\ List.length (days (content h)) = 1%nat.
Proof.
  exists init_failed_world.
  eexists _, (snd (DB.run (InsertDay "2026-02-03" 0 0) init_failed_world)), _.
  split; [vm_compute; reflexivity |].
  split; [vm_compute; reflexivity |].
  split; [vm_compute; reflexivity |].
  split; vm_compute; reflexivity.
Qed.

(** C3. [persist] writes the entry only when the flag is set (and a handle
    exists); when it returns after writing, the entry holds the image that
    was put, which with no transaction open is the content of the database,
    and the flag is cleared; when the put fails nothing is written and the
    flag stays; after a call that returned every later call is a no-op; so
    any number of calls in a row write at most once. *)
Theorem persist_gating (w : world) :
  (_dirty w = false \/ _db w = None ->
     DB.persist w = (inr tt, record PersistCalled w)) /\
  (forall c, _db w = Some c -> _dirty w = true ->
     (match idb_faults w with true :: _ => False | _ => True end ->
        exists w' image,
          DB.persist w = (inr tt, w') /\
          idb w' = Some image /\ _dirty w' = false /\
          trace w' = Saved image :: PersistCalled :: trace w /\
          (tx_saved c = None ->
           image = content c /\
           exists h, _db w' = Some h /\ content h = content c)) /\
     (forall e w', DB.persist w = (inl e, w') ->
        idb w' = idb w /\ _dirty w' = true /\ saves (trace w') = saves (trace w))) /\
  (forall w1, DB.persist w = (inr tt, w1) ->
     forall n, persist_again n w1 = Nat.iter n (record PersistCalled) w1) /\
  (forall n, (saves (trace (persist_again n w)) <= saves (trace w) + 1)%nat).
Proof.
  split; [apply persist_idle |].
  split; [| split].
  - intros c H D. split.
    + intros F. eexists _, (content c).
      split; [apply persist_dirty_ok; eassumption |].
      cbn. repeat split. exists c. split; reflexivity.
    + intros e w' P.
      destruct (persist_cases w) as [[E _] | [(c1 & later & _ & _ & _ & E) | (c1 & _ & _ & E)]];
        rewrite E in P; try discriminate.
      injection P as <- <-. simpl. auto.
  - intros w1 P n. apply persist_again_idle.
    destruct (persist_cases w) as [[E I] | [(c1 & later & _ & _ & _ & E) | (c1 & _ & _ & E)]];
      rewrite E in P; try discriminate; injection P as <-; simpl; auto.
  - intros n. apply saves_persist_again.
Qed.

Lemma persist_gating_witness :
  saves (trace (persist_again 2 (set_dirty true fresh_world))) = 1%nat /\
  persist_again 3 (set_dirty true fresh_world)
    = record PersistCalled (record PersistCalled
        (snd (DB.persist (set_dirty true fresh_world)))).
Proof.
  split; [reflexivity |].
  change (persist_again 3 (set_dirty true fresh_world))
    with (persist_again 2 (snd (DB.persist (set_dirty true fresh_world)))).
  apply (proj1 (proj2 (proj2 (persist_gating (set_dirty true fresh_world))))
           (snd (DB.persist (set_dirty true fresh_world))) eq_refl 2%nat).
Defined.

(** *** Transactions *)

Lemma sql_run_keeps s c c' :
  Sql.run s c = inr c' ->
  tx_saved c' = tx_saved c /\ foreign_keys c' = foreign_keys c.
Proof.
  unfold Sql.run. destruct (exec_stmt (foreign_keys c) s (content c)); intros H.
  - discriminate.
  - injection H as <-. split; reflexivity.
Qed.

Lemma run_all_keeps ops : forall c c',
  run_all ops c = inr c' ->
  tx_saved c' = tx_saved c /\ foreign_keys c' = foreign_keys c.
Proof.
  induction ops as [| s r IH]; simpl; intros c c' H.
  - injection H as <-. split; reflexivity.
  - destruct (Sql.run s c) as [e | c1] eqn:E; [discriminate |].
    destruct (sql_run_keeps s c c1 E) as [T F].
    destruct (IH c1 c' H) as [T' F'].
    split; congruence.
Qed.

Lemma runInTx_ok s w c c' :
  _db w = Some c -> Sql.run s c = inr c' ->
  DB._runInTx s w =
    (inr (DB.mkResult (rows_modified c') (last_insert_rowid c')), set_db (Some c') w).
Proof.
  intros H E. unfold DB._runInTx, bind, DB.db_run, DB.db_read, DB.on_db.
  rewrite H, E. reflexivity.
Qed.

Lemma runInTx_fail s w c e :
  _db w = Some c -> Sql.run s c = inl e ->
  DB._runInTx s w = (inl (SqlError e), w).
Proof.
  intros H E. unfold DB._runInTx, bind, DB.db_run, DB.db_read, DB.on_db.
  rewrite H, E. reflexivity.
Qed.

Lemma set_db_same w c : _db w = Some c -> set_db (Some c) w = w.
Proof. destruct w; simpl; intros ->; reflexivity. Qed.

Lemma in_order_ok ops : forall w c c',
  _db w = Some c -> run_all ops c = inr c' ->
  in_order ops DB._runInTx w = (inr tt, set_db (Some c') w).
Proof.
  induction ops as [| s r IH]; simpl; intros w c c' H E.
  - injection E as <-. rewrite set_db_same; auto.
  - destruct (Sql.run s c) as [e | c1] eqn:E1; [discriminate |].
    rewrite (bind_ok _ _ _ _ _ (runInTx_ok s w c c1 H E1)).
    rewrite (IH (set_db (Some c1) w) c1 c'); auto.
Qed.

Lemma in_order_fail pre : forall w c s post ck e,
  _db w = Some c -> run_all pre c = inr ck -> Sql.run s ck = inl e ->
  in_order (pre ++ s :: post) DB._runInTx w = (inl (SqlError e), set_db (Some ck) w).
Proof.
  induction pre as [| p r IH]; simpl; intros w c s post ck e H E F.
  - injection E as <-.
    rewrite (bind_fail _ _ _ _ _ (runInTx_fail s w c e H F)).
    rewrite set_db_same; auto.
  - destruct (Sql.run p c) as [e1 | c1] eqn:E1; [discriminate |].
    rewrite (bind_ok _ _ _ _ _ (runInTx_ok p w c c1 H E1)).
    rewrite (IH (set_db (Some c1) w) c1 s post ck e); auto.
Qed.

Lemma begin_ok w c :
  _db w = Some c -> tx_saved c = None ->
  DB.db_run begin w = (inr tt, set_db (Some (begun c)) w).
Proof.
  intros H T. unfold DB.db_run, DB.on_db, begin. rewrite H, T. reflexivity.
Qed.

Lemma transaction_rolls_back fn w c ck e :
  _db w = Some c -> tx_saved c = None ->
  fn DB._runInTx (set_db (Some (begun c)) w) = (inl e, set_db (Some ck) w) ->
  tx_saved ck = Some (content c) ->
  DB.transaction fn w = (inl e, set_db (Some (rolled_back c ck)) w).
Proof.
  intros H T F S. unfold DB.transaction.
  rewrite (bind_ok _ _ _ _ _ (require_db_some w c H)).
  unfold try_catch.
  rewrite (bind_ok _ _ _ _ _ (begin_ok w c H T)).
  rewrite (bind_fail _ _ _ _ _ F).
  unfold bind, DB.db_run, DB.on_db, rollback, throw; simpl.
  rewrite S. reflexivity.
Qed.

Lemma transaction_commits fn w c cn :
  _db w = Some c -> tx_saved c = None ->
  fn DB._runInTx (set_db (Some (begun c)) w) = (inr tt, set_db (Some cn) w) ->
  tx_saved cn = Some (content c) ->
  let m := record MarkedDirty (set_dirty true (set_db (Some (committed cn)) w)) in
  DB.transaction fn w =
    match idb_faults w with
    | true :: later =>
        (inl (SqlError NoTransaction),
         mkWorld (Some (committed cn)) true (idb w) later (seed w) (clock w)
           (legacy w) (PersistCalled :: MarkedDirty :: trace w))
    | _ =>
        (inr tt,
         mkWorld (Some (committed cn)) false (Some (content cn)) (tl (idb_faults w))
           (seed w) (clock w) (legacy w)
           (Saved (content cn) :: PersistCalled :: MarkedDirty :: trace w))
    end.
Proof.
  intros H T F S m. unfold DB.transaction.
  rewrite (bind_ok _ _ _ _ _ (require_db_some w c H)).
  unfold try_catch.
  rewrite (bind_ok _ _ _ _ _ (begin_ok w c H T)).
  rewrite (bind_ok _ _ _ _ _ F).
  assert (C : DB.db_run commit (set_db (Some cn) w)
              = (inr tt, set_db (Some (committed cn)) w)).
  { unfold DB.db_run, DB.on_db, commit; simpl. rewrite S. reflexivity. }
  rewrite (bind_ok _ _ _ _ _ C).
  unfold bind at 1. unfold DB.mark_dirty, modify.
  destruct (idb_faults w) as [| [|] later] eqn:Fl.
  - rewrite persist_dirty_ok with (c := committed cn); simpl; auto.
    + rewrite Fl. reflexivity.
    + rewrite Fl. exact I.
  - rewrite persist_dirty_fault with (c := committed cn) (later := later); simpl; auto.
  - rewrite persist_dirty_ok with (c := committed cn); simpl; auto.
    + rewrite Fl. reflexivity.
    + rewrite Fl. exact I.
Qed.

(** C1. A transaction over the statements [ops], on an initialised engine
    with no transaction open.  When the k-th statement fails (those before
    it having run), the caller gets that statement's error and the world is
    the one before the call with the database content restored: the dirty
    flag, the IndexedDB entry and the trace are untouched.  When all of
    them complete, the content is the one they produced, no transaction is
    left open, the flag was set once and [persist] entered once; with the
    put not failing, the call returns, the entry holds the new image and
    the flag is clear. *)
Theorem transaction_atomic (ops : list stmt) (w : world) (c : connection)
  (Hdb : _db w = Some c) (Hidle : tx_saved c = None) :
  (forall pre s post ck e,
     ops = (pre ++ s :: post)%list ->
     run_all pre (begun c) = inr ck -> Sql.run s ck = inl e ->
     exists w' c',
       DB.transaction (in_order ops) w = (inl (SqlError e), w') /\
       _db w' = Some c' /\ content c' = content c /\ tx_saved c' = None /\
       _dirty w' = _dirty w /\ idb w' = idb w /\ trace w' = trace w) /\
  (forall cn,
     run_all ops (begun c) = inr cn ->
     exists r w' c' evs,
       DB.transaction (in_order ops) w = (r, w') /\
       _db w' = Some c' /\ content c' = content cn /\ tx_saved c' = None /\
       trace w' = (evs ++ trace w)%list /\
       marks evs = 1%nat /\ calls evs = 1%nat /\
       (match idb_faults w with true :: _ => False | _ => True end ->
        r = inr tt /\ idb w' = Some (content cn) /\ _dirty w' = false)).
Proof.
  split.
  - intros pre s post ck e -> R F.
    exists (set_db (Some (rolled_back c ck)) w), (rolled_back c ck).
    split; [| repeat split].
    apply transaction_rolls_back; auto.
    + exact (in_order_fail pre (set_db (Some (begun c)) w) (begun c) s post ck e
               eq_refl R F).
    + destruct (run_all_keeps pre (begun c) ck R) as [T _]. exact T.
  - intros cn R.
    assert (S : tx_saved cn = Some (content c)).
    { destruct (run_all_keeps ops (begun c) cn R) as [T _]. exact T. }
    pose proof (transaction_commits (in_order ops) w c cn Hdb Hidle
                  (in_order_ok ops (set_db (Some (begun c)) w) (begun c) cn eq_refl R)
                  S) as E.
    simpl in E. rewrite E.
    destruct (idb_faults w) as [| [|] later].
    + eexists _, _, (committed cn), [Saved (content cn); PersistCalled; MarkedDirty].
      repeat split.
    + eexists _, _, (committed cn), [PersistCalled; MarkedDirty].
      repeat split; contradiction.
    + eexists _, _, (committed cn), [Saved (content cn); PersistCalled; MarkedDirty].
      repeat split.
Qed.

Lemma transaction_atomic_witness :
  (exists w' c',
     DB.transaction
       (in_order [InsertDay "2026-02-01" 100 1250; InsertSale 9 1 5 6250 "Paid"])
       fresh_world
     = (inl (SqlError ForeignKeyViolation), w') /\
     _db w' = Some c' /\ content c' = seed_image /\
     _dirty w' = false /\ trace w' = []) /\
  (exists r w' c',
     DB.transaction
       (in_order [InsertDay "2026-02-01" 100 1250; InsertSale 1 1 5 6250 "Paid"])
       fresh_world
     = (r, w') /\
     _db w' = Some c' /\ List.length (sales (content c')) = 1%nat /\ r = inr tt).
Proof.
  split.
  - destruct (proj1 (transaction_atomic
                       [InsertDay "2026-02-01" 100 1250; InsertSale 9 1 5 6250 "Paid"]
                       fresh_world _ eq_refl eq_refl)
                [InsertDay "2026-02-01" 100 1250] (InsertSale 9 1 5 6250 "Paid") []
                _ ForeignKeyViolation eq_refl eq_refl eq_refl)
      as (w' & c' & E & H & C & _ & D & _ & T).
    exists w', c'. repeat split; assumption.
  - destruct (proj2 (transaction_atomic
                       [InsertDay "2026-02-01" 100 1250; InsertSale 1 1 5 6250 "Paid"]
                       fresh_world _ eq_refl eq_refl)
                _ eq_refl)
      as (r & w' & c' & evs & E & D & C & _ & _ & _ & _ & Ok).
    exists r, w', c'. split; [exact E |]. split; [exact D |].
    split; [rewrite C; reflexivity |]. apply Ok. exact I.
Defined.

(** ** The schema guard *)

Lemma includes_In l t : DB.includes l t = true <-> In t l.
Proof.
  unfold DB.includes. rewrite existsb_exists. split.
  - intros (x & I & E). apply String.eqb_eq in E. subst. exact I.
  - intros I. exists t. split; [exact I | apply String.eqb_refl].
Qed.

Lemma schema_current_iff c :
  DB._isSchemaCurrent c = true <->
  (forall t, In t DB.REQUIRED_TABLES -> In t (tables (content c))).
Proof.
  unfold DB._isSchemaCurrent, DB._getExistingTables.
  rewrite forallb_forall. split; intros H t I.
  - apply includes_In. apply H. exact I.
  - apply includes_In. apply H. exact I.
Qed.

Lemma init_known_handle w c : _db w = Some c -> DB.init w = (inr c, w).
Proof. unfold DB.init, bind, get. intros ->. reflexivity. Qed.

(** [init] with a stored image that the guard rejects, or with none: the
    seed is loaded and written back. *)
Lemma init_reseeds w sd :
  _db w = None -> seed w = Some sd ->
  match idb w with
  | Some image => DB._isSchemaCurrent (open image) = false
  | None => True
  end ->
  match idb_faults w with true :: _ => False | _ => True end ->
  DB.init w =
    (inr (pragma_foreign_keys_on (open sd)),
     mkWorld (Some (pragma_foreign_keys_on (open sd))) (_dirty w) (Some sd)
       (tl (idb_faults w)) (seed w) (clock w) (legacy w) (Saved sd :: trace w)).
Proof.
  intros H S G F.
  destruct w as [db dirty entry faults sd0 clk leg tr]; simpl in *; subst.
  unfold DB.init, bind at 1, get; simpl.
  destruct entry as [image |].
  - unfold bind at 1. unfold bind at 1. unfold DB._loadFromIDB, bind at 1, get, ret.
    simpl. rewrite G.
    destruct faults as [| [|] l]; try contradiction; reflexivity.
  - destruct faults as [| [|] l]; try contradiction; reflexivity.
Qed.

Lemma init_reuses w image :
  _db w = None -> idb w = Some image ->
  DB._isSchemaCurrent (open image) = true ->
  DB.init w =
    (inr (pragma_foreign_keys_on (open image)),
     set_db (Some (pragma_foreign_keys_on (open image))) w).
Proof.
  intros H S G.
  unfold DB.init, bind, get, DB._loadFromIDB, ret, modify, DB.db_read, DB.on_db; simpl.
  rewrite H, S, G. reflexivity.
Qed.

(** C5. The guard accepts a database exactly when each of company, days,
    sales and settings is in its catalog: one without the sales table is
    rejected though the other three are there, further tables change
    nothing, and at [init] a stored image that is rejected is replaced by
    the seed, while an accepted one is kept: the handle that [init] returns
    holds the one or the other, and so does the IndexedDB entry. *)
Theorem schema_guard (c : connection) :
  (DB._isSchemaCurrent c = true <->
   (In "company" (tables (content c)) /\ In "days" (tables (content c)) /\
    In "sales" (tables (content c)) /\ In "settings" (tables (content c)))) /\
  (forall t, In t DB.REQUIRED_TABLES -> ~ In t (tables (content c)) ->
     DB._isSchemaCurrent c = false) /\
  (forall c', DB._isSchemaCurrent c = true ->
     incl (tables (content c)) (tables (content c')) ->
     DB._isSchemaCurrent c' = true) /\
  (forall w sd,
     _db w = None -> idb w = Some (content c) -> seed w = Some sd ->
     match idb_faults w with true :: _ => False | _ => True end ->
     exists h w',
       DB.init w = (inr h, w') /\ _db w' = Some h /\
       content h = (if DB._isSchemaCurrent c then content c else sd) /\
       idb w' = Some (if DB._isSchemaCurrent c then content c else sd) /\
       saves (trace w') =
         (if DB._isSchemaCurrent c then saves (trace w) else S (saves (trace w)))).
Proof.
  split; [| split; [| split]].
  - rewrite schema_current_iff. unfold DB.REQUIRED_TABLES. split.
    + intros H. repeat split; apply H; simpl; auto.
    + intros (A & B & C & D) t [<- | [<- | [<- | [<- | []]]]]; assumption.
  - intros t I N. destruct (DB._isSchemaCurrent c) eqn:E; [| reflexivity].
    exfalso. apply N. apply (proj1 (schema_current_iff c) E t I).
  - intros c' H I. apply schema_current_iff. intros t R.
    apply I. apply (proj1 (schema_current_iff c) H t R).
  - intros w sd H S Sd F.
    assert (G : DB._isSchemaCurrent (open (content c)) = DB._isSchemaCurrent c)
      by reflexivity.
    destruct (DB._isSchemaCurrent c) eqn:E.
    + rewrite (init_reuses w (content c) H S G).
      eexists _, _. split; [reflexivity |]. simpl.
      split; [reflexivity |]. split; [reflexivity |].
      split; [exact S | reflexivity].
    + rewrite (init_reseeds w sd H Sd).
      * eexists _, _. split; [reflexivity |]. simpl. repeat split.
      * rewrite S. exact G.
      * exact F.
Qed.

Lemma schema_guard_witness :
  DB._isSchemaCurrent (open no_sales_image) = false /\
  exists h w',
    DB.init (mkWorld None false (Some no_sales_image) [] (Some seed_image)
               "2026-02-03" None [])
    = (inr h, w') /\
    content h = seed_image /\ idb w' = Some seed_image.
Proof.
  split.
  - apply (proj1 (proj2 (schema_guard (open no_sales_image))) "sales").
    + simpl; auto.
    + simpl. intros [H | [H | [H | []]]]; discriminate.
  - destruct (proj2 (proj2 (proj2 (schema_guard (open no_sales_image))))
                (mkWorld None false (Some no_sales_image) [] (Some seed_image)
                   "2026-02-03" None [])
                seed_image eq_refl eq_refl eq_refl I) as (h & w' & E & _ & C & D & _).
    exists h, w'. split; [exact E |]. split; [exact C | exact D].
Defined.

(** ** The CSV of one day *)

Lemma last_cons {A} (a d : A) (l : list A) : last (a :: l) d = last l a.
Proof.
  revert a d. induction l as [| b l IH]; intros a d; [reflexivity |].
  change (last (a :: b :: l) d) with (last (b :: l) d).
  rewrite IH. symmetry. apply IH.
Qed.

Section ParserLoop.

Context {B : JsNumber.Builtins}.

Lemma csv_rows_cons line lines :
  csv_rows (line :: lines) =
    if (List.length (JsString.split Migrate.comma line) <? 4)%nat
    then csv_rows lines
    else Migrate.read_row (JsString.split Migrate.comma line) :: csv_rows lines.
Proof.
  unfold csv_rows; simpl.
  destruct (List.length (JsString.split Migrate.comma line) <? 4)%nat; reflexivity.
Qed.

Lemma spec_sales_cons r rows :
  spec_sales (r :: rows) =
    if positive_kg r
    then Migrate.mkCsvSale (Migrate.row_seq r) (Migrate.row_kg r)
           (Migrate.row_price r) (Migrate.row_comments r) :: spec_sales rows
    else spec_sales rows.
Proof. unfold spec_sales; simpl. destruct (positive_kg r); reflexivity. Qed.

Lemma spec_unitPrice_cons r rows d :
  spec_unitPrice (r :: rows) d =
    spec_unitPrice rows
      (if JsNumber.positive (Migrate.row_unit r) then Migrate.row_unit r else d).
Proof.
  unfold spec_unitPrice. cbn [map filter].
  destruct (JsNumber.positive (Migrate.row_unit r)); [apply last_cons | reflexivity].
Qed.

Lemma spec_openingStock_cons r rows d :
  spec_openingStock (r :: rows) d =
    if positive_kg r
    then JsNumber.plus (Migrate.row_balance r) (Migrate.row_kg r)
    else spec_openingStock rows d.
Proof. unfold spec_openingStock; simpl. destruct (positive_kg r); reflexivity. Qed.

(** The loop of [_parseCSV] from any state of its variables, for every
    reading of the number builtins. *)
Lemma csv_loop lines : forall st,
  let st' := fold_left Migrate.csv_step lines st in
  Migrate.st_sales st' = (Migrate.st_sales st ++ spec_sales (csv_rows lines))%list /\
  Migrate.st_unitPrice st' = spec_unitPrice (csv_rows lines) (Migrate.st_unitPrice st) /\
  Migrate.st_openStock st' =
    (if Migrate.st_firstRow st
     then spec_openingStock (csv_rows lines) (Migrate.st_openStock st)
     else Migrate.st_openStock st) /\
  Migrate.st_firstRow st' =
    (Migrate.st_firstRow st && negb (existsb positive_kg (csv_rows lines))).
Proof.
  induction lines as [| line lines IH]; intros st; cbn [fold_left].
  - cbn. rewrite app_nil_r, andb_true_r.
    destruct (Migrate.st_firstRow st); auto.
  - rewrite csv_rows_cons.
    destruct (IH (Migrate.csv_step st line)) as (S & U & O & F).
    cbv zeta. rewrite S, U, O, F. clear S U O F IH.
    unfold Migrate.csv_step.
    destruct (List.length (JsString.split Migrate.comma line) <? 4)%nat; [auto |].
    generalize (Migrate.read_row (JsString.split Migrate.comma line)).
    intros r. cbv zeta.
    rewrite spec_sales_cons, spec_unitPrice_cons, spec_openingStock_cons.
    cbn [existsb Migrate.st_sales Migrate.st_unitPrice Migrate.st_openStock
           Migrate.st_firstRow].
    change (JsNumber.positive (Migrate.row_kg r)) with (positive_kg r).
    destruct (positive_kg r), (Migrate.st_firstRow st); cbn [andb orb negb];
      rewrite <- ?app_assoc; auto.
Qed.

End ParserLoop.

Lemma csv_lines_spec csv l :
  In l (Migrate.csv_lines csv) <->
  exists raw,
    In raw (JsString.split Migrate.newline csv) /\ l = JsString.trim raw /\
    l <> "" /\ JsString.startsWith l "S/NO" = false.
Proof.
  unfold Migrate.csv_lines. rewrite filter_In, in_map_iff. split.
  - intros ((raw & E & I) & T). apply andb_prop in T. destruct T as [T1 T2].
    exists raw. repeat split; auto.
    + intros ->. discriminate.
    + apply negb_true_iff in T2. exact T2.
  - intros (raw & I & E & N & P). split.
    + exists raw. auto.
    + rewrite P. destruct l; [contradiction N; reflexivity | reflexivity].
Qed.

(** C4. [_parseCSV] reads the lines of the text that, once trimmed, are
    not blank and do not start with the header, and of those the ones with
    at least four columns; there is no result when no line is left.  Its
    sales are the rows with a positive quantity, in order; its unit price
    is the last positive unit-price value, 0 when there is none; its
    opening stock is balance plus quantity of the first row with a positive
    quantity, 0 when there is none.  This holds for every text and for
    every reading [B] of the number builtins ([parseInt], [parseFloat],
    [||], [>] and [+]), so also for the doubles of a JavaScript engine.
    The example of the specification, read with exact numbers, gives unit
    price 1250, opening stock 120 and the two sales. *)
Theorem parseCSV_derivation :
  (forall (B : JsNumber.Builtins) (csv : string),
     (forall l, In l (Migrate.csv_lines csv) <->
        exists raw,
          In raw (JsString.split Migrate.newline csv) /\ l = JsString.trim raw /\
          l <> "" /\ JsString.startsWith l "S/NO" = false) /\
     (@Migrate._parseCSV B csv = None <-> Migrate.csv_lines csv = []) /\
     (forall p, @Migrate._parseCSV B csv = Some p ->
        Migrate.sales p = spec_sales (csv_rows (Migrate.csv_lines csv)) /\
        Migrate.unitPrice p =
          spec_unitPrice (csv_rows (Migrate.csv_lines csv)) JsNumber.zero /\
        Migrate.openingStock p =
          spec_openingStock (csv_rows (Migrate.csv_lines csv)) JsNumber.zero)) /\
  @Migrate._parseCSV JsNumber.exact example_csv =
    Some (Migrate.mkParsed 1250%Q 120%Q
            [Migrate.mkCsvSale 1 5%Q 6250%Q "Paid";
             Migrate.mkCsvSale 2 3%Q 3750%Q "Paid"]).
Proof.
  split; [| reflexivity].
  intros B csv. split; [apply csv_lines_spec |]. split.
  - unfold Migrate._parseCSV.
    destruct (Migrate.csv_lines csv); split; intros H;
      try reflexivity; discriminate.
  - intros p H. unfold Migrate._parseCSV in H.
    destruct (csv_loop (Migrate.csv_lines csv)
                (Migrate.mkCsvState [] JsNumber.zero JsNumber.zero true))
      as (S & U & O & _).
    destruct (Migrate.csv_lines csv) as [| l ls] eqn:L; [discriminate |].
    injection H as <-. simpl in S, U, O. simpl.
    rewrite S, U, O. auto.
Qed.

Lemma parseCSV_derivation_witness :
  exists p,
    @Migrate._parseCSV JsNumber.exact example_csv = Some p /\
    Migrate.sales p =
      [Migrate.mkCsvSale 1 5%Q 6250%Q "Paid"; Migrate.mkCsvSale 2 3%Q 3750%Q "Paid"] /\
    Migrate.unitPrice p = 1250%Q /\ Migrate.openingStock p = 120%Q.
Proof.
  eexists. split; [exact (proj2 parseCSV_derivation) |].
  destruct (proj2 (proj2 (proj1 parseCSV_derivation JsNumber.exact example_csv)) _
              (proj2 parseCSV_derivation)) as (S & U & O).
  rewrite S, U, O. repeat split.
Defined.

(** ** Queries on the live handle *)

Lemma query_ok {A} (q : Select.sql A) w c l c' :
  _db w = Some c -> Select.exec q c = inr (l, c') ->
  DB.query q w = (inr l, set_db (Some c') w).
Proof.
  intros H E. unfold DB.query.
  rewrite (bind_ok _ _ _ _ _ (require_db_some w c H)).
  unfold DB.on_db. rewrite H, E. reflexivity.
Qed.

Lemma query_reads {A} (q : Select.sql A) w c l :
  _db w = Some c -> Select.exec q c = inr (l, c) ->
  DB.query q w = (inr l, w).
Proof.
  intros H E. rewrite (query_ok q w c l c H E). rewrite set_db_same; auto.
Qed.

Lemma query_not_initialised {A} (q : Select.sql A) w :
  _db w = None -> DB.query q w = (inl NotInitialised, w).
Proof.
  intros H. unfold DB.query.
  rewrite (bind_fail _ _ _ _ _ (require_db_none w H)). reflexivity.
Qed.

(** [DB.run] whose statement completes: whatever the put does, the handle
    holds the statement's result and the surroundings are the same. *)
Lemma run_leaves s w c c' :
  _db w = Some c -> Sql.run s c = inr c' ->
  exists r w', DB.run s w = (r, w') /\ _db w' = Some c' /\
               clock w' = clock w /\ legacy w' = legacy w /\
               (match idb_faults w with true :: _ => False | _ => True end ->
                r = inr (DB.mkResult (rows_modified c') (last_insert_rowid c'))).
Proof.
  intros H E. rewrite (run_statement_ok s w c c' H E).
  set (m := record MarkedDirty (set_dirty true (set_db (Some c') w))).
  destruct (persist_cases m) as [[P _] | [(c1 & later & H1 & _ & F1 & P) | (c1 & H1 & _ & P)]].
  - rewrite (bind_ok _ _ _ _ _ P). eexists _, _. split; [reflexivity |].
    repeat split.
  - rewrite (bind_fail _ _ _ _ _ P). eexists _, _. split; [reflexivity |].
    simpl in H1. injection H1 as <-. simpl in F1. repeat split.
    rewrite F1. contradiction.
  - rewrite (bind_ok _ _ _ _ _ P). eexists _, _. split; [reflexivity |].
    simpl in H1. injection H1 as <-. repeat split.
Qed.

Lemma update_where_id {A} (p : A -> bool) (f : A -> A) (l : list A) :
  (forall x, In x l -> p x = true -> f x = x) -> update_where p f l = l.
Proof.
  intros H. unfold update_where.
  rewrite <- (map_id l) at 2. apply map_ext_in.
  intros x I. destruct (p x) eqn:E; auto.
Qed.

Lemma existsb_false_filter {A} (p : A -> bool) (l : list A) :
  existsb p l = false -> filter p l = [].
Proof.
  induction l as [| x l IH]; simpl; [auto |].
  intros H. apply orb_false_iff in H. destruct H as [-> H]. auto.
Qed.

Lemma filter_nil_existsb {A} (p : A -> bool) (l : list A) :
  filter p l = [] -> existsb p l = false.
Proof.
  induction l as [| x l IH]; simpl; [auto |].
  destruct (p x); [discriminate | auto].
Qed.

(** ** Carry-forward *)

Lemma has_table_need {A} t d (k : sql_error + list A) :
  has_table d t = true -> Select.need t d k = k.
Proof. unfold Select.need. intros ->. reflexivity. Qed.

Lemma has_table_need_stmt t d k :
  has_table d t = true -> Sql.need t d k = k.
Proof. unfold Sql.need. intros ->. reflexivity. Qed.


(** *** The order of dates *)








(** *** Clamping *)











(** ** The importer *)

Lemma schema_has_table c t :
  DB._isSchemaCurrent c = true -> In t DB.REQUIRED_TABLES ->
  has_table (content c) t = true.
Proof.
  intros S I. unfold has_table. apply includes_In.
  apply (proj1 (schema_current_iff c) S t I).
Qed.

Lemma exec_stmt_tables fk s d eff :
  exec_stmt fk s d = inr eff -> tables (eff_db eff) = tables d.
Proof.
  destruct s; unfold exec_stmt, Sql.need;
    match goal with |- context [has_table d ?t] => destruct (has_table d t) end;
    try discriminate;
    repeat match goal with
           | |- context [if ?b then _ else _] => destruct b
           end;
    intros H; try discriminate; injection H as <-; reflexivity.
Qed.

Lemma sql_run_tables s c c' :
  Sql.run s c = inr c' -> tables (content c') = tables (content c).
Proof.
  unfold Sql.run.
  destruct (exec_stmt (foreign_keys c) s (content c)) as [e | eff] eqn:E; intros H.
  - discriminate.
  - injection H as <-. simpl. apply (exec_stmt_tables _ _ _ _ E).
Qed.

Lemma sql_run_schema s c c' :
  Sql.run s c = inr c' -> DB._isSchemaCurrent c = true ->
  DB._isSchemaCurrent c' = true.
Proof.
  intros R S. unfold DB._isSchemaCurrent, DB._getExistingTables in *.
  rewrite (sql_run_tables s c c' R). exact S.
Qed.

(** One [DB.run] on a ready engine. *)
Lemma run_ready s w c c' :
  ready w c -> Sql.run s c = inr c' ->
  DB.run s w =
    (inr (DB.mkResult (rows_modified c') (last_insert_rowid c')), written c' w) /\
  ready (written c' w) c'.
Proof.
  intros (H & S & R) E. split.
  - apply run_ok with (c := c); assumption.
  - split; [reflexivity |]. split.
    + apply (sql_run_schema s c c' E S).
    + apply reliable_written. exact R.
Qed.

(** What a [DB.run] that returned has done. *)
Lemma run_inr_inv s w r w' :
  DB.run s w = (inr r, w') ->
  exists c c', _db w = Some c /\ Sql.run s c = inr c' /\ _db w' = Some c'.
Proof.
  intros E. destruct (_db w) as [c |] eqn:H.
  - destruct (Sql.run s c) as [e | c'] eqn:R.
    + rewrite (run_statement_fails s w c e H R) in E. discriminate.
    + exists c, c'. split; [reflexivity |]. split; [exact R |].
      destruct (run_leaves s w c c' H R) as (r1 & w1 & E1 & H1 & _).
      rewrite E1 in E. injection E as _ <-. exact H1.
  - rewrite (run_not_initialised s w H) in E. discriminate.
Qed.

Lemma getSetting_reads key w c :
  _db w = Some c -> has_table (content c) "settings" = true ->
  DBSales.getSetting key w =
    (inr (DBSales.first
            (map snd (filter (fun kv => String.eqb (fst kv) key)
                        (settings (content c))))), w).
Proof.
  intros H T. unfold DBSales.getSetting.
  erewrite bind_ok.
  2:{ apply query_reads with (c := c); [exact H |].
      cbn [Select.exec]. rewrite has_table_need by exact T. reflexivity. }
  reflexivity.
Qed.

Lemma upsert_then_first key value l :
  DBSales.first
    (map snd
       (filter (fun kv : string * string => String.eqb (fst kv) key)
          (if existsb (fun kv => String.eqb (fst kv) key) l
           then update_where (fun kv => String.eqb (fst kv) key)
                  (fun kv => (fst kv, value)) l
           else (l ++ [(key, value)])%list)))
  = Some value.
Proof.
  induction l as [| [k v] l IH].
  - cbn. rewrite String.eqb_refl. reflexivity.
  - cbn [existsb fst]. destruct (String.eqb k key) eqn:E.
    + cbn [orb update_where map fst]. rewrite E. cbn [filter fst]. rewrite E.
      reflexivity.
    + cbn [orb].
      destruct (existsb (fun kv => String.eqb (fst kv) key) l) eqn:X.
      * cbn [update_where map fst] in *. rewrite E. cbn [filter fst]. rewrite E.
        exact IH.
      * cbn [app filter fst] in *. rewrite E. exact IH.
Qed.

(** After [saveSetting] has returned, [getSetting] reads the value back. *)
Lemma saveSetting_then_get key value w w' :
  DBSales.saveSetting key value w = (inr tt, w') ->
  DBSales.getSetting key w' = (inr (Some value), w').
Proof.
  unfold DBSales.saveSetting. intros E.
  apply bind_inr in E. destruct E as (r & w1 & E & F).
  injection F as <-.
  destruct (run_inr_inv _ _ _ _ E) as (c & c' & H & R & H').
  unfold Sql.run in R. cbn [exec_stmt] in R. unfold Sql.need in R.
  destruct (has_table (content c) "settings") eqn:T; [| discriminate].
  assert (C : content c' =
              set_settings (content c)
                (if existsb (fun kv => String.eqb (fst kv) key) (settings (content c))
                 then update_where (fun kv => String.eqb (fst kv) key)
                        (fun kv => (fst kv, value)) (settings (content c))
                 else (settings (content c) ++ [(key, value)])%list)).
  { destruct (existsb (fun kv => String.eqb (fst kv) key) (settings (content c)));
      injection R as <-; reflexivity. }
  rewrite (getSetting_reads key w1 c' H').
  - rewrite C. cbn [settings set_settings]. rewrite upsert_then_first. reflexivity.
  - rewrite C. exact T.
Qed.

Lemma isDone_after_save w w' :
  DBSales.saveSetting Migrate.MIGRATION_DONE_KEY "1" w = (inr tt, w') ->
  marker_set w'.
Proof.
  intros E. unfold marker_set, Migrate.isDone.
  rewrite (bind_ok _ _ _ _ _ (saveSetting_then_get _ _ _ _ E)). reflexivity.
Qed.

Lemma getSetting_world key w : snd (DBSales.getSetting key w) = w.
Proof.
  destruct (_db w) as [c |] eqn:H.
  - destruct (has_table (content c) "settings") eqn:T.
    + rewrite (getSetting_reads key w c H T). reflexivity.
    + destruct w as [db dirty entry faults sd clk leg tr]. simpl in H. subst db.
      unfold DBSales.getSetting, DB.query, DB.require_db, bind, get, DB.on_db.
      unfold ret. cbn [_db Select.exec]. unfold Select.need. rewrite T.
      reflexivity.
  - unfold DBSales.getSetting.
    rewrite (bind_fail _ _ _ _ _ (query_not_initialised _ w H)). reflexivity.
Qed.

Lemma isDone_world w : snd (Migrate.isDone w) = w.
Proof.
  unfold Migrate.isDone, bind.
  pose proof (getSetting_world Migrate.MIGRATION_DONE_KEY w) as G.
  destruct (DBSales.getSetting Migrate.MIGRATION_DONE_KEY w) as [[e | v] w1];
    simpl in *; exact G.
Qed.

Lemma run_done w :
  marker_set w -> Migrate.run w = (inr Migrate.AlreadyDone, w).
Proof.
  unfold marker_set. intros D. unfold Migrate.run.
  rewrite (bind_ok _ _ _ _ _ D). reflexivity.
Qed.

(** Every return of [run] other than the early one comes after a
    [saveSetting] of the marker that returned. *)
Lemma run_returns_after_save w r w' :
  Migrate.run w = (inr r, w') ->
  (r = Migrate.AlreadyDone /\ w' = w /\ marker_set w) \/
  (r <> Migrate.AlreadyDone /\
   exists w1, DBSales.saveSetting Migrate.MIGRATION_DONE_KEY "1" w1 = (inr tt, w')).
Proof.
  unfold Migrate.run. intros E.
  apply bind_inr in E. destruct E as (done & w0 & D & E).
  pose proof (isDone_world w) as W. rewrite D in W. simpl in W. subst w0.
  destruct done.
  - left. injection E as <- <-. auto.
  - right. apply bind_inr in E. destruct E as (wg & w1 & G & E).
    unfold get in G. injection G as <- <-.
    destruct (legacy w) as [store |].
    + destruct (Migrate.keys store) as [| k ks].
      * apply bind_inr in E. destruct E as ([] & w2 & S & E).
        injection E as <- <-. split; [discriminate | eauto].
      * apply bind_inr in E. destruct E as (n & w2 & _ & E).
        apply bind_inr in E. destruct E as (n' & w3 & _ & E).
        apply bind_inr in E. destruct E as ([] & w4 & S & E).
        injection E as <- <-. split; [discriminate | eauto].
    + apply bind_inr in E. destruct E as ([] & w2 & S & E).
      injection E as <- <-. split; [discriminate | eauto].
Qed.


Lemma run_twice w r w' :
  Migrate.run w = (inr r, w') -> Migrate.run w' = (inr Migrate.AlreadyDone, w').
Proof.
  intros E. apply run_done.
  destruct (run_returns_after_save w r w' E) as [(_ & -> & D) | (_ & w1 & S)].
  - exact D.
  - apply (isDone_after_save w1 w' S).
Qed.

Lemma getDay_reads date w c :
  _db w = Some c -> has_table (content c) "days" = true ->
  DBSales.getDay date w =
    (inr (DBSales.first (filter (date_is date) (days (content c)))), w).
Proof.
  intros H T. unfold DBSales.getDay.
  erewrite bind_ok.
  2:{ apply query_reads with (c := c); [exact H |].
      cbn [Select.exec]. rewrite has_table_need by exact T. reflexivity. }
  reflexivity.
Qed.

(** A daily key whose date has a Day already: skipped, nothing written. *)
Lemma migrate_daily_skips store n key w c :
  _db w = Some c -> has_table (content c) "days" = true ->
  existsb (date_is (JsString.replace key "dailySales_" "")) (days (content c)) = true ->
  Migrate.migrate_daily store n key w =
    (inr (Migrate.mkCounters (Migrate.migratedDays n) (Migrate.migratedSales n)
            (Migrate.skippedDays n + 1)), w).
Proof.
  intros H T X. unfold Migrate.migrate_daily.
  rewrite (bind_ok _ _ _ _ _ (getDay_reads _ w c H T)).
  destruct (filter (date_is (JsString.replace key "dailySales_" "")) (days (content c)))
    as [| x l] eqn:F.
  - apply filter_nil_existsb in F. rewrite F in X. discriminate.
  - reflexivity.
Qed.

(** *** Statements of the importer that complete *)

Lemma insert_sale_run c day seq kg price comments :
  has_table (content c) "sales" = true ->
  (foreign_keys c = true ->
   existsb (fun x => day_id x =? day) (days (content c)) = true) ->
  Sql.run (InsertSale day seq kg price comments) c =
    inr (mkConnection
           (set_sales (content c)
              (sales (content c) ++
               [mkSale (next_rowid (map sale_id (sales (content c)))) day seq kg
                  price comments]))
           (tx_saved c) (foreign_keys c)
           (next_rowid (map sale_id (sales (content c)))) 1).
Proof.
  intros T F. unfold Sql.run. cbn [exec_stmt].
  rewrite has_table_need_stmt by exact T.
  destruct (foreign_keys c) eqn:K.
  - rewrite (F eq_refl). reflexivity.
  - reflexivity.
Qed.

Lemma insert_day_or_ignore_run c date os up :
  has_table (content c) "days" = true ->
  existsb (date_is date) (days (content c)) = false ->
  Sql.run (InsertDayOrIgnore date os up) c =
    inr (mkConnection
           (set_days (content c)
              (days (content c) ++
               [mkDay (next_rowid (map day_id (days (content c)))) date os up]))
           (tx_saved c) (foreign_keys c)
           (next_rowid (map day_id (days (content c)))) 1).
Proof.
  intros T N. unfold Sql.run. cbn [exec_stmt].
  rewrite has_table_need_stmt by exact T. rewrite N. reflexivity.
Qed.

Lemma upsert_setting_run c key value :
  has_table (content c) "settings" = true ->
  exists c', Sql.run (UpsertSetting key value) c = inr c'.
Proof.
  intros T. unfold Sql.run. cbn [exec_stmt].
  rewrite has_table_need_stmt by exact T.
  destruct (existsb (fun kv => String.eqb (fst kv) key) (settings (content c)));
    eexists; reflexivity.
Qed.

Lemma ready_tables w c :
  ready w c ->
  has_table (content c) "days" = true /\
  has_table (content c) "sales" = true /\
  has_table (content c) "settings" = true.
Proof.
  intros (_ & S & _).
  repeat split; apply schema_has_table; auto; simpl; auto.
Qed.

Lemma saveSetting_ready key value w c :
  ready w c ->
  exists w' c', DBSales.saveSetting key value w = (inr tt, w') /\ ready w' c'.
Proof.
  intros R. destruct (ready_tables w c R) as (_ & _ & T).
  destruct (upsert_setting_run c key value T) as (c' & U).
  destruct (run_ready _ w c c' R U) as [E R'].
  exists (written c' w), c'. split; [| exact R'].
  unfold DBSales.saveSetting. rewrite (bind_ok _ _ _ _ _ E). reflexivity.
Qed.

(** The inner loop of step 3: one sale per parsed row, with the sequence
    number the CSV gave it. *)
Lemma insert_parsed_sales_ready dayId l : forall n w c,
  ready w c ->
  existsb (fun x => day_id x =? dayId) (days (content c)) = true ->
  exists w' c' rows,
    Migrate.insert_parsed_sales dayId l n w =
      (inr (Migrate.mkCounters (Migrate.migratedDays n)
              (Migrate.migratedSales n + Z.of_nat (List.length l))
              (Migrate.skippedDays n)), w') /\
    ready w' c' /\
    days (content c') = days (content c) /\
    sales (content c') = (sales (content c) ++ rows)%list /\
    map sale_seq rows = map Migrate.seq l /\
    map sale_day_id rows = map (fun _ => dayId) l.
Proof.
  unfold Migrate.insert_parsed_sales.
  induction l as [| s l IH]; intros n w c R D.
  - exists w, c, []. cbn [for_of List.length Z.of_nat]. rewrite Z.add_0_r, app_nil_r.
    destruct n. split; [reflexivity | split; [exact R | repeat split]].
  - destruct (ready_tables w c R) as (_ & Ts & _).
    pose proof (insert_sale_run c dayId (Migrate.seq s) (Migrate.kg s)
                  (Migrate.price s) (Migrate.comments s) Ts (fun _ => D)) as U.
    destruct (run_ready _ w c _ R U) as [E R1].
    cbn [for_of]. rewrite (bind_ok _ _ _ _ _ (bind_ok _ _ _ _ _ E)).
    cbv beta.
    edestruct (IH (Migrate.mkCounters (Migrate.migratedDays n)
                     (Migrate.migratedSales n + 1) (Migrate.skippedDays n))
                 _ _ R1) as (w' & c' & rows & E' & R' & Dy & Sa & Sq & Di).
    { exact D. }
    exists w', c', (mkSale (next_rowid (map sale_id (sales (content c)))) dayId
                      (Migrate.seq s) (Migrate.kg s) (Migrate.price s)
                      (Migrate.comments s) :: rows).
    rewrite E'. cbn [Migrate.migratedDays Migrate.migratedSales Migrate.skippedDays].
    split; [| split; [exact R' | split; [exact Dy | split; [| split]]]].
    + do 3 f_equal. cbn [List.length]. lia.
    + rewrite Sa. cbn [content sales set_sales]. rewrite <- app_assoc. reflexivity.
    + cbn [map sale_seq]. rewrite Sq. reflexivity.
    + cbn [map sale_day_id]. rewrite Di. reflexivity.
Qed.

(** The loop of step 4: the valid chunk entries become sales numbered from
    [i + 1] on, in array order. *)
Lemma insert_chunk_sales_ready dayId up l : forall i n w c,
  ready w c ->
  existsb (fun x => day_id x =? dayId) (days (content c)) = true ->
  exists w' c' rows,
    Migrate.insert_chunk_sales dayId up l i n w =
      (inr (Migrate.mkCounters (Migrate.migratedDays n)
              (Migrate.migratedSales n + Z.of_nat (List.length l))
              (Migrate.skippedDays n)), w') /\
    ready w' c' /\
    days (content c') = days (content c) /\
    sales (content c') = (sales (content c) ++ rows)%list /\
    map sale_seq rows = count_from i (List.length l) /\
    map sale_day_id rows = map (fun _ => dayId) l.
Proof.
  induction l as [| s l IH]; intros i n w c R D.
  - exists w, c, []. cbn [Migrate.insert_chunk_sales List.length Z.of_nat].
    rewrite Z.add_0_r, app_nil_r. destruct n.
    split; [reflexivity | split; [exact R | repeat split]].
  - destruct (ready_tables w c R) as (_ & Ts & _).
    cbn [Migrate.insert_chunk_sales]. cbv zeta.
    match goal with
    | |- context [DB.run (InsertSale ?d ?q ?k ?p ?m)] =>
        pose proof (insert_sale_run c d q k p m Ts (fun _ => D)) as U;
        set (row := mkSale (next_rowid (map sale_id (sales (content c)))) d q k p m)
    end.
    destruct (run_ready _ w c _ R U) as [E R1].
    rewrite (bind_ok _ _ _ _ _ E). cbv beta.
    edestruct (IH (i + 1) (Migrate.mkCounters (Migrate.migratedDays n)
                             (Migrate.migratedSales n + 1) (Migrate.skippedDays n))
                 _ _ R1) as (w' & c' & rows & E' & R' & Dy & Sa & Sq & Di).
    { exact D. }
    exists w', c', (row :: rows).
    rewrite E'. cbn [Migrate.migratedDays Migrate.migratedSales Migrate.skippedDays].
    split; [| split; [exact R' | split; [exact Dy | split; [| split]]]].
    + do 3 f_equal. cbn [List.length]. lia.
    + rewrite Sa. cbn [content sales set_sales]. rewrite <- app_assoc. reflexivity.
    + cbn [map sale_seq count_from List.length]. rewrite Sq. reflexivity.
    + cbn [map sale_day_id]. rewrite Di. reflexivity.
Qed.

Lemma new_day_exists d id date os up :
  existsb (fun x => day_id x =? id) (days d ++ [mkDay id date os up]) = true.
Proof.
  rewrite existsb_app. cbn [existsb day_id]. rewrite Z.eqb_refl.
  rewrite orb_true_r. reflexivity.
Qed.

(** One daily key on a ready engine: the body returns, the engine stays
    ready. *)
Lemma migrate_daily_ready store n key w c :
  ready w c ->
  exists n' w' c', Migrate.migrate_daily store n key w = (inr n', w') /\ ready w' c'.
Proof.
  intros R. destruct (ready_tables w c R) as (Td & Ts & _).
  assert (H : _db w = Some c) by apply R.
  unfold Migrate.migrate_daily. cbv zeta.
  rewrite (bind_ok _ _ _ _ _ (getDay_reads _ w c H Td)).
  destruct (filter (date_is (JsString.replace key "dailySales_" "")) (days (content c)))
    as [| x l] eqn:F; cbn [DBSales.first hd_error].
  2:{ eexists _, w, c. split; [reflexivity | exact R]. }
  destruct (Migrate.getItem store key) as [[csv | chunk | m |] |];
    try (exists n, w, c; split; [reflexivity | exact R]).
  destruct (JsString.truthy csv); cbn [negb];
    [| exists n, w, c; split; [reflexivity | exact R]].
  destruct (Migrate._parseCSV csv) as [p |];
    [| exists n, w, c; split; [reflexivity | exact R]].
  destruct (Migrate.sales p) as [| s0 ss] eqn:Sp;
    [exists n, w, c; split; [reflexivity | exact R] |].
  pose proof (insert_day_or_ignore_run c (JsString.replace key "dailySales_" "")
                (Migrate.openingStock p) (Migrate.unitPrice p) Td
                (filter_nil_existsb _ _ F)) as U.
  destruct (run_ready _ w c _ R U) as [E R1].
  rewrite (bind_ok _ _ _ _ _ E). cbv beta.
  cbn [DB.lastInsertRowid last_insert_rowid].
  destruct (next_rowid (map day_id (days (content c))) =? 0).
  - eexists n, _, _. split; [reflexivity | exact R1].
  - edestruct (insert_parsed_sales_ready
                 (next_rowid (map day_id (days (content c)))) (s0 :: ss) n _ _ R1)
      as (w' & c' & rows & E' & R' & _).
    { cbn [content days set_days]. apply new_day_exists. }
    rewrite (bind_ok _ _ _ _ _ E').
    eexists _, w', c'. split; [reflexivity | exact R'].
Qed.

Lemma getDay_ready date w c :
  ready w c ->
  DBSales.getDay date w =
    (inr (DBSales.first (filter (date_is date) (days (content c)))), w).
Proof.
  intros R. destruct (ready_tables w c R) as (Td & _).
  apply getDay_reads; [apply R | exact Td].
Qed.

(** The live chunks on a ready engine. *)
Lemma migrate_chunks_ready store chunkKeys n w c :
  ready w c ->
  exists n' w' c',
    Migrate.migrate_chunks store chunkKeys n w = (inr n', w') /\ ready w' c'.
Proof.
  intros R. destruct (ready_tables w c R) as (Td & Ts & _).
  unfold Migrate.migrate_chunks. cbv zeta.
  unfold DB.today at 1. unfold bind at 1. unfold bind at 1. unfold get, ret.
  rewrite (bind_ok _ _ _ _ _ (getDay_ready _ w c R)).
  destruct (filter (date_is (clock w)) (days (content c))) as [| x l] eqn:F;
    cbn [DBSales.first hd_error].
  2:{ exists n, w, c. split; [reflexivity | exact R]. }
  match goal with
  | |- context [match ?v with [] => _ | _ :: _ => _ end] =>
      destruct v as [| s0 ss] eqn:V
  end.
  { exists n, w, c. split; [reflexivity | exact R]. }
  match goal with
  | |- context [DB.run (InsertDayOrIgnore ?d ?o ?u)] =>
      pose proof (insert_day_or_ignore_run c d o u Td (filter_nil_existsb _ _ F)) as U
  end.
  destruct (run_ready _ w c _ R U) as [E R1].
  rewrite (bind_ok _ _ _ _ _ E). cbv beta.
  cbn [DB.lastInsertRowid last_insert_rowid].
  destruct (next_rowid (map day_id (days (content c))) =? 0).
  - eexists n, _, _. split; [reflexivity | exact R1].
  - match goal with
    | |- context [Migrate.insert_chunk_sales ?d ?u ?l ?i ?m] =>
        edestruct (insert_chunk_sales_ready d u l i m _ _ R1)
          as (w' & c' & rows & E' & R' & _)
    end.
    { cbn [content days set_days]. apply new_day_exists. }
    rewrite (bind_ok _ _ _ _ _ E').
    eexists _, w', c'. split; [reflexivity | exact R'].
Qed.

Lemma for_of_ready {A S} (body : S -> A -> M S) :
  (forall acc x w c, ready w c ->
     exists acc' w' c', body acc x w = (inr acc', w') /\ ready w' c') ->
  forall l acc w c, ready w c ->
    exists acc' w' c', for_of l body acc w = (inr acc', w') /\ ready w' c'.
Proof.
  intros B. induction l as [| x l IH]; intros acc w c R.
  - exists acc, w, c. split; [reflexivity | exact R].
  - destruct (B acc x w c R) as (acc1 & w1 & c1 & E & R1).
    cbn [for_of]. rewrite (bind_ok _ _ _ _ _ E).
    apply (IH acc1 w1 c1 R1).
Qed.

Lemma isDone_ready w c :
  ready w c -> exists b, Migrate.isDone w = (inr b, w).
Proof.
  intros R. destruct (ready_tables w c R) as (_ & _ & T).
  unfold Migrate.isDone.
  rewrite (bind_ok _ _ _ _ _ (getSetting_reads _ w c (proj1 R) T)).
  eexists. reflexivity.
Qed.

(** On a ready engine [run] returns. *)
Lemma run_ready_returns w c :
  ready w c -> exists r w', Migrate.run w = (inr r, w').
Proof.
  intros R. destruct (isDone_ready w c R) as (b & D).
  unfold Migrate.run. rewrite (bind_ok _ _ _ _ _ D).
  destruct b; [eexists _, _; reflexivity |].
  unfold bind at 1. unfold get at 1.
  destruct (legacy w) as [store |].
  - destruct (Migrate.keys store) as [| k ks] eqn:K.
    + destruct (saveSetting_ready Migrate.MIGRATION_DONE_KEY "1" w c R)
        as (w' & c' & E & _).
      rewrite (bind_ok _ _ _ _ _ E). eexists _, _; reflexivity.
    + cbv zeta.
      destruct (for_of_ready (Migrate.migrate_daily store)
                  (fun acc x w c => migrate_daily_ready store acc x w c)
                  (Stable.sort String.leb
                     (filter (fun k => JsString.startsWith k "dailySales_") (k :: ks)))
                  (Migrate.mkCounters 0 0 0) w c R)
        as (n1 & w1 & c1 & E1 & R1).
      rewrite (bind_ok _ _ _ _ _ E1).
      assert (X : exists n2 w2 c2,
                 match Stable.sort Migrate.chunk_le
                         (filter (fun k => JsString.startsWith k "salesChunk_") (k :: ks))
                 with
                 | [] => ret n1
                 | _ :: _ =>
                     Migrate.migrate_chunks store
                       (Stable.sort Migrate.chunk_le
                          (filter (fun k => JsString.startsWith k "salesChunk_") (k :: ks)))
                       n1
                 end w1 = (inr n2, w2) /\ ready w2 c2).
      { destruct (Stable.sort Migrate.chunk_le
                    (filter (fun k => JsString.startsWith k "salesChunk_") (k :: ks))).
        - exists n1, w1, c1. split; [reflexivity | exact R1].
        - apply migrate_chunks_ready with (c := c1). exact R1. }
      destruct X as (n2 & w2 & c2 & E2 & R2).
      rewrite (bind_ok _ _ _ _ _ E2).
      destruct (saveSetting_ready Migrate.MIGRATION_DONE_KEY "1" w2 c2 R2)
        as (w' & c' & E & _).
      rewrite (bind_ok _ _ _ _ _ E). eexists _, _; reflexivity.
  - destruct (saveSetting_ready Migrate.MIGRATION_DONE_KEY "1" w c R)
      as (w' & c' & E & _).
    rewrite (bind_ok _ _ _ _ _ E). eexists _, _; reflexivity.
Qed.




(** C2. With the marker set [run] returns [{skipped: true}] and leaves the
    world as it is; so after a first run that returned, a second run does
    exactly that, and the database (its Days and Sales) is the one the
    first run left.  Apart from the marker, a daily key whose date already
    has a Day is skipped: the skipped counter goes up by one and nothing is
    written. *)
Theorem import_idempotent :
  (forall w, marker_set w -> Migrate.run w = (inr Migrate.AlreadyDone, w)) /\
  (forall w r w',
     Migrate.run w = (inr r, w') ->
     Migrate.run w' = (inr Migrate.AlreadyDone, w')) /\
  (forall store n key w c,
     _db w = Some c -> has_table (content c) "days" = true ->
     existsb (date_is (JsString.replace key "dailySales_" "")) (days (content c)) = true ->
     Migrate.migrate_daily store n key w =
       (inr (Migrate.mkCounters (Migrate.migratedDays n) (Migrate.migratedSales n)
               (Migrate.skippedDays n + 1)), w)).
Proof.
  split; [apply run_done |]. split; [apply run_twice |].
  apply migrate_daily_skips.
Qed.

Lemma import_idempotent_witness :
  exists w' c',
    Migrate.run (world_with (Some old_store)) = (inr (Migrate.Summary 2 4 0), w') /\
    Migrate.run w' = (inr Migrate.AlreadyDone, w') /\
    _db w' = Some c' /\
    List.length (days (content c')) = 2%nat /\
    List.length (sales (content c')) = 4%nat /\
    Migrate.migrate_daily old_store (Migrate.mkCounters 0 0 0) "dailySales_2026-02-01" w'
      = (inr (Migrate.mkCounters 0 0 1), w').
Proof.
  exists (snd (Migrate.run (world_with (Some old_store)))).
  eexists.
  assert (E : Migrate.run (world_with (Some old_store))
              = (inr (Migrate.Summary 2 4 0),
                 snd (Migrate.run (world_with (Some old_store)))))
    by (vm_compute; reflexivity).
  split; [exact E |].
  split; [apply (proj1 (proj2 import_idempotent) _ _ _ E) |].
  split; [vm_compute; reflexivity |].
  split; [reflexivity |]. split; [reflexivity |].
  eapply (proj2 (proj2 import_idempotent)); vm_compute; reflexivity.
Defined.

(* ================================================================== *)
(** ** Sorting by a key *)

Section SortByKey.

Variable A : Type.
Variable key : A -> Z.

Local Abbreviation key_le := (key_le A key).
Local Abbreviation sorted := (StronglySorted (fun x y => key x <= key y)).
Local Abbreviation increasing := (StronglySorted (fun x y => key x < key y)).

Lemma insert_perm x l : Permutation (Stable.insert key_le x l) (x :: l).
Proof.
  induction l as [| y l IH]; cbn [Stable.insert]; [reflexivity |].
  destruct (key_le x y); [reflexivity |].
  rewrite IH. apply perm_swap.
Qed.

Lemma sort_perm l : Permutation (Stable.sort key_le l) l.
Proof.
  induction l as [| x l IH]; cbn; [reflexivity |].
  fold (Stable.sort key_le l). rewrite insert_perm, IH. reflexivity.
Qed.

Lemma insert_sorted x l : sorted l -> sorted (Stable.insert key_le x l).
Proof.
  induction 1 as [| y l S IH F]; cbn [Stable.insert].
  - constructor; constructor.
  - unfold key_le at 1. destruct (Z.leb_spec (key x) (key y)) as [L | L].
    + constructor; [constructor; assumption |].
      constructor; [exact L |].
      eapply Forall_impl; [| exact F]. cbv beta. intros z Hz. lia.
    + constructor; [exact IH |].
      apply (Permutation_Forall (Permutation_sym (insert_perm x l))).
      constructor; [lia | exact F].
Qed.

Lemma sort_sorted l : sorted (Stable.sort key_le l).
Proof.
  induction l as [| x l IH]; cbn; [constructor |].
  apply insert_sorted. exact IH.
Qed.

Lemma insert_first x l :
  Forall (fun z => key x <= key z) l -> Stable.insert key_le x l = x :: l.
Proof.
  destruct l as [| y l]; [reflexivity |].
  intros F. cbn [Stable.insert]. unfold key_le.
  apply Forall_inv in F. apply Z.leb_le in F. rewrite F. reflexivity.
Qed.

Lemma filter_insert p x l :
  sorted l ->
  filter p (Stable.insert key_le x l) =
    if p x then Stable.insert key_le x (filter p l) else filter p l.
Proof.
  induction 1 as [| y l S IH F]; cbn [Stable.insert filter].
  - destruct (p x); reflexivity.
  - unfold key_le at 1. destruct (Z.leb_spec (key x) (key y)) as [L | L].
    + cbn [filter]. destruct (p x) eqn:Px; [| reflexivity].
      destruct (p y) eqn:Py.
      * cbn [Stable.insert]. unfold key_le.
        apply Z.leb_le in L. rewrite L. reflexivity.
      * symmetry. apply insert_first.
        apply Forall_forall. intros z Iz. apply filter_In in Iz.
        rewrite Forall_forall in F. specialize (F z (proj1 Iz)). lia.
    + cbn [filter]. rewrite IH.
      destruct (p x) eqn:Px, (p y) eqn:Py; try reflexivity.
      cbn [Stable.insert]. unfold key_le at 2.
      apply Z.leb_gt in L. rewrite L. reflexivity.
Qed.

(** Filtering and sorting commute: the sort is stable. *)
Lemma filter_sort p l :
  filter p (Stable.sort key_le l) = Stable.sort key_le (filter p l).
Proof.
  induction l as [| x l IH]; [reflexivity |].
  cbn [Stable.sort fold_right filter]. fold (Stable.sort key_le l).
  rewrite filter_insert by apply sort_sorted. rewrite IH.
  destruct (p x); reflexivity.
Qed.

Lemma insert_before_last x y l :
  key x <= key y ->
  Stable.insert key_le x (l ++ [y]) = (Stable.insert key_le x l ++ [y])%list.
Proof.
  intros L. induction l as [| z l IH]; cbn [Stable.insert app].
  - unfold key_le. apply Z.leb_le in L. rewrite L. reflexivity.
  - destruct (key_le x z); [reflexivity |]. rewrite IH. reflexivity.
Qed.

(** An element that no key exceeds, added last, is sorted last. *)
Lemma sort_last l y :
  Forall (fun x => key x <= key y) l ->
  Stable.sort key_le (l ++ [y]) = (Stable.sort key_le l ++ [y])%list.
Proof.
  induction 1 as [| x l L F IH]; [reflexivity |].
  cbn [Stable.sort fold_right app]. fold (Stable.sort key_le (l ++ [y])).
  fold (Stable.sort key_le l). rewrite IH. apply insert_before_last. exact L.
Qed.

(** A list in increasing order of keys is the only sorted arrangement of
    its elements. *)
Lemma increasing_unique l1 : forall l2,
  increasing l1 -> sorted l2 -> Permutation l1 l2 -> l1 = l2.
Proof.
  induction l1 as [| a t1 IH]; intros l2 I S P.
  - apply Permutation_nil in P. auto.
  - destruct l2 as [| b t2].
    + apply Permutation_sym, Permutation_nil in P. discriminate.
    + apply StronglySorted_inv in I. destruct I as [I1 Fa].
      apply StronglySorted_inv in S. destruct S as [S2 Fb].
      assert (E : a = b).
      { assert (Ib : In b (a :: t1)).
        { apply (Permutation_in b (Permutation_sym P)). left. reflexivity. }
        assert (Ia : In a (b :: t2)).
        { apply (Permutation_in a P). left. reflexivity. }
        destruct Ib as [-> | Ib]; [reflexivity |].
        destruct Ia as [<- | Ia]; [reflexivity |].
        rewrite Forall_forall in Fa, Fb.
        specialize (Fa b Ib). specialize (Fb a Ia). lia. }
      subst b. f_equal. apply IH; auto.
      apply (Permutation_cons_inv P).
Qed.

Lemma sort_increasing l l' :
  increasing l' -> Permutation l' l -> Stable.sort key_le l = l'.
Proof.
  intros I P. symmetry. apply increasing_unique; auto.
  - apply sort_sorted.
  - rewrite P. symmetry. apply sort_perm.
Qed.

End SortByKey.

(* ================================================================== *)
(** ** Sequence numbers *)

Lemma position_none id ids : ~ In id ids -> position id ids = None.
Proof.
  induction ids as [| j r IH]; cbn [position]; [reflexivity |].
  intros N. destruct (Z.eqb_spec j id) as [-> | _].
  - exfalso. apply N. left. reflexivity.
  - rewrite IH; [reflexivity |]. intros I. apply N. right. exact I.
Qed.

Lemma assign_numbered ids : forall i l,
  NoDup ids -> assign ids i l = map (numbered ids i) l.
Proof.
  induction ids as [| id r IH]; intros i l N; cbn [assign].
  - unfold numbered. cbn [position]. rewrite map_id. reflexivity.
  - apply NoDup_cons_iff in N. destruct N as [Nid Nr].
    rewrite (IH (i + 1) _ Nr). unfold update_where. rewrite map_map.
    apply map_ext. intros x. unfold numbered. cbn [position].
    destruct (Z.eqb_spec (sale_id x) id) as [E | E].
    + cbn [with_seq sale_id]. rewrite E, Z.eqb_refl.
      rewrite (position_none id r Nid). unfold with_seq. f_equal. lia.
    + destruct (Z.eqb_spec id (sale_id x)) as [E' | _]; [congruence |].
      destruct (position (sale_id x) r) as [k |]; cbn [option_map]; [| reflexivity].
      unfold with_seq. f_equal. lia.
Qed.

Lemma renumber_numbered l : forall i,
  NoDup (map sale_id l) ->
  renumber i l = map (numbered (map sale_id l) i) l.
Proof.
  induction l as [| x r IH]; intros i N; [reflexivity |].
  cbn [map] in N. apply NoDup_cons_iff in N. destruct N as [Nx Nr].
  cbn [renumber map]. f_equal.
  - unfold numbered. cbn [position]. rewrite Z.eqb_refl.
    unfold with_seq. f_equal. lia.
  - rewrite (IH (i + 1) Nr). apply map_ext_in. intros y Iy.
    unfold numbered. cbn [position].
    destruct (Z.eqb_spec (sale_id x) (sale_id y)) as [E | _].
    + exfalso. apply Nx. rewrite E. apply in_map. exact Iy.
    + destruct (position (sale_id y) (map sale_id r)) as [k |]; cbn [option_map];
        [| reflexivity].
      unfold with_seq. f_equal. lia.
Qed.

Lemma renumber_seq l : forall i,
  map sale_seq (renumber i l) = count_from i (List.length l).
Proof.
  induction l as [| x r IH]; intros i; [reflexivity |].
  cbn [renumber map List.length count_from with_seq sale_seq]. rewrite IH.
  reflexivity.
Qed.

Lemma length_map_renumber l i : List.length (renumber i l) = List.length l.
Proof.
  rewrite <- (length_map sale_seq), renumber_seq.
  clear. revert i. induction l as [| x l IH]; intros i; cbn; [reflexivity |].
  rewrite IH. reflexivity.
Qed.

Lemma renumber_ids l : forall i, map sale_id (renumber i l) = map sale_id l.
Proof.
  induction l as [| x r IH]; intros i; [reflexivity |].
  cbn [renumber map with_seq sale_id]. rewrite IH. reflexivity.
Qed.

Lemma renumber_above l : forall i,
  Forall (fun x => i < sale_seq x) (renumber i l).
Proof.
  induction l as [| x r IH]; intros i; cbn [renumber]; constructor.
  - cbn. lia.
  - eapply Forall_impl; [| apply (IH (i + 1))]. cbv beta. intros y Hy. lia.
Qed.

Lemma renumber_increasing l : forall i,
  StronglySorted (fun x y => sale_seq x < sale_seq y) (renumber i l).
Proof.
  induction l as [| x r IH]; intros i; cbn [renumber]; constructor.
  - apply IH.
  - cbn [with_seq sale_seq]. apply renumber_above.
Qed.

(** Rows picked from a table with distinct ids have distinct ids. *)
Lemma kept_ids_distinct (keep : sale -> bool) (rows : list sale) :
  NoDup (map sale_id rows) -> NoDup (map sale_id (filter keep rows)).
Proof.
  induction rows as [| x rows IH]; cbn [map filter]; intros N; [constructor |].
  apply NoDup_cons_iff in N. destruct N as [Nx Nl].
  destruct (keep x); cbn [map]; [| auto].
  constructor; [| auto].
  intros I. apply Nx. apply in_map_iff in I. destruct I as (y & E & Iy).
  apply in_map_iff. exists y. split; [exact E |].
  apply filter_In in Iy. apply Iy.
Qed.

Lemma filter_map_same {A} (p : A -> bool) (g : A -> A) (l : list A) :
  (forall x, p (g x) = p x) -> filter p (map g l) = map g (filter p l).
Proof.
  intros H. induction l as [| x l IH]; cbn [map filter]; [reflexivity |].
  rewrite H. destruct (p x); cbn [map]; rewrite IH; reflexivity.
Qed.

Lemma filter_comm {A} (p q : A -> bool) (l : list A) :
  filter p (filter q l) = filter q (filter p l).
Proof.
  induction l as [| x l IH]; cbn [filter]; [reflexivity |].
  destruct (p x) eqn:P, (q x) eqn:Q; cbn [filter]; rewrite ?P, ?Q, IH; reflexivity.
Qed.

(** Renumbering a Day by the ids read in [seq] order puts its sales in the
    same order with the numbers 1, 2, ... *)
Lemma resequence_day day l :
  NoDup (map sale_id l) ->
  Select.order_by_seq
    (filter (Select.of_day day)
       (assign (map sale_id (Select.order_by_seq (filter (Select.of_day day) l))) 0 l))
  = renumber 0 (Select.order_by_seq (filter (Select.of_day day) l)).
Proof.
  intros N.
  set (t := Select.order_by_seq (filter (Select.of_day day) l)).
  assert (P : Permutation t (filter (Select.of_day day) l))
    by apply (sort_perm sale sale_seq).
  assert (Nt : NoDup (map sale_id t)).
  { apply (Permutation_NoDup (Permutation_map sale_id (Permutation_sym P))).
    apply kept_ids_distinct. exact N. }
  rewrite (assign_numbered _ 0 l Nt).
  rewrite filter_map_same.
  2:{ intros x. unfold numbered, Select.of_day.
      destruct (position (sale_id x) (map sale_id t)); reflexivity. }
  apply (sort_increasing sale sale_seq).
  - apply renumber_increasing.
  - rewrite (renumber_numbered t 0 Nt). apply Permutation_map. exact P.
Qed.

Lemma set_sales_same d : set_sales d (sales d) = d.
Proof. destruct d; reflexivity. Qed.

Lemma update_seq_run c n id :
  has_table (content c) "sales" = true ->
  exists c',
    Sql.run (UpdateSaleSeq n id) c = inr c' /\
    content c' = set_sales (content c)
                   (update_where (fun x => sale_id x =? id) (with_seq n)
                      (sales (content c))) /\
    tx_saved c' = tx_saved c.
Proof.
  intros T. unfold Sql.run. cbn [exec_stmt].
  rewrite has_table_need_stmt by exact T.
  eexists. split; [reflexivity |]. split; reflexivity.
Qed.

(** The renumbering loop of [deleteSale]. *)
Lemma forEach_assign ids : forall i w c,
  _db w = Some c -> has_table (content c) "sales" = true ->
  exists c',
    DBSales.forEach ids
      (fun id i => DB._runInTx (UpdateSaleSeq (i + 1) id) ;; ret tt) i w
    = (inr tt, set_db (Some c') w) /\
    content c' = set_sales (content c) (assign ids i (sales (content c))) /\
    tx_saved c' = tx_saved c.
Proof.
  induction ids as [| id r IH]; intros i w c H T.
  - exists c. cbn [DBSales.forEach assign].
    rewrite set_db_same by exact H. rewrite set_sales_same. auto.
  - destruct (update_seq_run c (i + 1) id T) as (c1 & U & C1 & X1).
    cbn [DBSales.forEach].
    rewrite (bind_ok _ _ _ _ _ (bind_ok _ _ _ _ _ (runInTx_ok _ w c c1 H U))).
    cbv beta.
    destruct (IH (i + 1) (set_db (Some c1) w) c1 eq_refl) as (c' & E & C & X).
    { rewrite C1. exact T. }
    exists c'. split; [exact E |]. split.
    + rewrite C, C1. cbn [assign set_sales sales tables days settings].
      reflexivity.
    + congruence.
Qed.

(** [deleteSale]: the sales of the Day [dayId] after it are those before
    it without the deleted one, in the same order, numbered from 1. *)
Lemma deleteSale_resequences saleId dayId w c :
  _db w = Some c -> tx_saved c = None ->
  has_table (content c) "sales" = true ->
  NoDup (map sale_id (sales (content c))) ->
  exists r w' c',
    DBSales.deleteSale saleId dayId w = (r, w') /\
    _db w' = Some c' /\
    Select.sales_of_day (content c') dayId =
      renumber 0 (filter (fun x => negb (sale_id x =? saleId))
                    (Select.sales_of_day (content c) dayId)) /\
    (match idb_faults w with true :: _ => False | _ => True end -> r = inr tt).
Proof.
  intros H I T N.
  set (keep := fun x : sale => negb (sale_id x =? saleId)).
  set (s1 := filter keep (sales (content c))).
  (* DELETE *)
  set (c1 := mkConnection (set_sales (content c) s1) (Some (content c))
               (foreign_keys c) (last_insert_rowid c)
               (count_if (fun x => sale_id x =? saleId) (sales (content c)))).
  assert (D : Sql.run (DeleteSale saleId) (begun c) = inr c1).
  { unfold Sql.run. cbn [exec_stmt begun content foreign_keys].
    rewrite has_table_need_stmt by exact T. reflexivity. }
  (* SELECT id ... ORDER BY seq *)
  set (ids := map sale_id (Select.sales_of_day (content c1) dayId)).
  assert (Q : Select.exec (Select.SaleIds dayId) c1 = inr (ids, c1)).
  { cbn [Select.exec]. rewrite has_table_need by exact T. reflexivity. }
  (* UPDATE ... *)
  destruct (forEach_assign ids 0 (set_db (Some c1) w) c1 eq_refl T)
    as (c2 & F & C2 & X2).
  assert (B : (fun tx : stmt -> M DB.run_result =>
                 tx (DeleteSale saleId) ;;
                 rows <- DB.query (Select.SaleIds dayId) ;;
                 DBSales.forEach rows (fun id i => tx (UpdateSaleSeq (i + 1) id) ;; ret tt) 0)
                DB._runInTx (set_db (Some (begun c)) w)
              = (inr tt, set_db (Some c2) w)).
  { cbv beta.
    rewrite (bind_ok _ _ _ _ _
               (runInTx_ok _ (set_db (Some (begun c)) w) (begun c) c1 eq_refl D)).
    rewrite (bind_ok _ _ _ _ _
               (query_reads _ (set_db (Some c1) (set_db (Some (begun c)) w)) c1 ids
                  eq_refl Q)).
    exact F. }
  pose proof (transaction_commits _ w c c2 H I B X2) as E.
  cbv zeta in E. unfold DBSales.deleteSale.
  assert (S : Select.sales_of_day (content (committed c2)) dayId =
              renumber 0 (filter keep (Select.sales_of_day (content c) dayId))).
  { cbn [committed content]. rewrite C2. unfold Select.sales_of_day.
    cbn [sales set_sales content c1].
    unfold ids, Select.sales_of_day. cbn [sales set_sales content c1].
    rewrite resequence_day by (apply kept_ids_distinct; exact N).
    f_equal. unfold s1. rewrite filter_comm.
    unfold Select.order_by_seq.
    symmetry. apply (filter_sort sale sale_seq). }
  destruct (idb_faults w) as [| [|] later].
  - eexists _, _, (committed c2). split; [exact E |]. split; [reflexivity |].
    split; [exact S | reflexivity].
  - eexists _, _, (committed c2). split; [exact E |]. split; [reflexivity |].
    split; [exact S | contradiction].
  - eexists _, _, (committed c2). split; [exact E |]. split; [reflexivity |].
    split; [exact S | reflexivity].
Qed.

Lemma fold_max_spec l : forall m0,
  let m := fold_left (fun m s => Z.max m (sale_seq s)) l m0 in
  m0 <= m /\ Forall (fun x => sale_seq x <= m) l /\
  (m = m0 \/ In m (map sale_seq l)).
Proof.
  induction l as [| x l IH]; intros m0; cbn [fold_left map].
  - split; [lia |]. split; [constructor | left; reflexivity].
  - destruct (IH (Z.max m0 (sale_seq x))) as (L & F & I).
    cbv zeta in *. split; [lia |]. split.
    + constructor; [lia | exact F].
    + destruct I as [I | I]; [rewrite I | right; right; exact I].
      destruct (Z.max_spec m0 (sale_seq x)) as [[_ E] | [_ E]]; rewrite E.
      * right. left. reflexivity.
      * left. reflexivity.
Qed.

Lemma max_seq_spec l :
  match Select.max_seq l with
  | Some m => In m (map sale_seq l) /\ Forall (fun x => sale_seq x <= m) l
  | None => l = []
  end.
Proof.
  destruct l as [| x l]; cbn [Select.max_seq]; [reflexivity |].
  destruct (fold_max_spec l (sale_seq x)) as (L & F & I). cbv zeta in *.
  split.
  - destruct I as [-> | I]; [left; reflexivity | right; exact I].
  - constructor; [exact L | exact F].
Qed.

Lemma count_from_In m k : forall i,
  In m (count_from i k) <-> i < m <= i + Z.of_nat k.
Proof.
  induction k as [| k IH]; intros i; cbn [count_from In].
  - split; [contradiction | lia].
  - rewrite IH. lia.
Qed.

Lemma count_from_snoc k : forall i,
  count_from i (S k) = (count_from i k ++ [i + Z.of_nat k + 1])%list.
Proof.
  induction k as [| k IH]; intros i.
  - cbn. f_equal. lia.
  - change (count_from i (S (S k))) with ((i + 1) :: count_from (i + 1) (S k)).
    rewrite IH. cbn [count_from app]. do 3 f_equal. lia.
Qed.

Lemma dense_bounds d day x :
  dense d day -> In x (filter (Select.of_day day) (sales d)) ->
  0 < sale_seq x <= Z.of_nat (List.length (Select.sales_of_day d day)).
Proof.
  intros D I.
  assert (Ix : In x (Select.sales_of_day d day)).
  { apply (Permutation_in x (Permutation_sym (sort_perm sale sale_seq _))). exact I. }
  apply (in_map sale_seq) in Ix. rewrite D in Ix.
  apply count_from_In in Ix. lia.
Qed.

(** On a dense Day the next sequence number is count + 1. *)
Lemma dense_next d day :
  dense d day ->
  next_seq d day = Z.of_nat (List.length (Select.sales_of_day d day)) + 1.
Proof.
  intros D. unfold next_seq.
  pose proof (max_seq_spec (filter (Select.of_day day) (sales d))) as M.
  pose proof (sort_perm sale sale_seq (filter (Select.of_day day) (sales d))) as P.
  fold (Select.order_by_seq (filter (Select.of_day day) (sales d))) in P.
  fold (Select.sales_of_day d day) in P.
  destruct (Select.max_seq (filter (Select.of_day day) (sales d))) as [m |].
  - destruct M as [I F]. f_equal.
    apply in_map_iff in I. destruct I as (x & <- & Ix).
    pose proof (dense_bounds d day x D Ix) as B.
    assert (G : Z.of_nat (List.length (Select.sales_of_day d day)) <= sale_seq x).
    { assert (In (Z.of_nat (List.length (Select.sales_of_day d day)))
                (map sale_seq (Select.sales_of_day d day))) as J.
      { rewrite D. apply count_from_In. lia. }
      apply in_map_iff in J. destruct J as (y & E & Iy).
      rewrite <- E. rewrite Forall_forall in F. apply F.
      apply (Permutation_in y P). exact Iy. }
    lia.
  - unfold Select.sales_of_day. rewrite M. reflexivity.
Qed.

(** A sale appended to a dense Day with the number count + 1 leaves the Day
    dense, the new sale last. *)
Lemma dense_append d d' day id kg price comments :
  dense d day ->
  sales d' =
    (sales d ++ [mkSale id day (Z.of_nat (List.length (Select.sales_of_day d day)) + 1)
                   kg price comments])%list ->
  Select.sales_of_day d' day =
    (Select.sales_of_day d day ++
     [mkSale id day (Z.of_nat (List.length (Select.sales_of_day d day)) + 1)
        kg price comments])%list /\
  dense d' day.
Proof.
  intros D E.
  assert (S : Select.sales_of_day d' day =
              (Select.sales_of_day d day ++
               [mkSale id day (Z.of_nat (List.length (Select.sales_of_day d day)) + 1)
                  kg price comments])%list).
  { unfold Select.sales_of_day at 1. rewrite E, filter_app. cbn [filter].
    unfold Select.of_day at 2. cbn [sale_day_id]. rewrite Z.eqb_refl.
    unfold Select.order_by_seq. rewrite (sort_last sale sale_seq); [reflexivity |].
    apply Forall_forall. intros x Ix. cbn [sale_seq].
    pose proof (dense_bounds d day x D Ix). lia. }
  split; [exact S |].
  unfold dense. rewrite S, map_app, length_app, D. cbn [map sale_seq List.length].
  rewrite Nat.add_1_r, count_from_snoc. reflexivity.
Qed.

(** [addSale]: the new row goes last in the table with the sequence number
    it read, or 1 when that is 0. *)
Lemma addSale_appends dayId kg price comments w c :
  _db w = Some c ->
  has_table (content c) "sales" = true ->
  (foreign_keys c = true ->
   existsb (fun x => day_id x =? dayId) (days (content c)) = true) ->
  exists r w' c',
    DBSales.addSale dayId kg price comments w = (r, w') /\
    _db w' = Some c' /\
    sales (content c') =
      (sales (content c) ++
       [mkSale (next_rowid (map sale_id (sales (content c)))) dayId
          (if next_seq (content c) dayId =? 0 then 1 else next_seq (content c) dayId)
          kg price comments])%list /\
    (match idb_faults w with true :: _ => False | _ => True end ->
     r = inr (next_rowid (map sale_id (sales (content c))),
              if next_seq (content c) dayId =? 0 then 1
              else next_seq (content c) dayId)).
Proof.
  intros H T F. unfold DBSales.addSale.
  assert (Q : Select.exec (Select.NextSeq dayId) c = inr ([next_seq (content c) dayId], c)).
  { cbn [Select.exec]. rewrite has_table_need by exact T. reflexivity. }
  rewrite (bind_ok _ _ _ _ _ (query_reads _ w c _ H Q)).
  cbn [DBSales.first hd_error]. cbv zeta.
  set (sq := if next_seq (content c) dayId =? 0 then 1 else next_seq (content c) dayId).
  pose proof (insert_sale_run c dayId sq kg price comments T F) as U.
  destruct (run_leaves _ w c _ H U) as (r & w' & E & H' & _ & _ & Ok).
  destruct r as [e | res].
  - rewrite (bind_fail _ _ _ _ _ E).
    eexists _, w', _. split; [reflexivity |]. split; [exact H' |].
    split; [reflexivity |]. intros G. specialize (Ok G). discriminate.
  - rewrite (bind_ok _ _ _ _ _ E).
    eexists _, w', _. split; [reflexivity |]. split; [exact H' |].
    split; [reflexivity |]. intros G. specialize (Ok G).
    injection Ok as ->. reflexivity.
Qed.

(** C8 as the specification words it fails for the importer: the Day it
    creates from [gap_csv] has two Sales, numbered 1 and 3. *)
Lemma dense_sequencing_counterexample :
  exists w' c',
    Migrate.run (world_with (Some gap_store)) = (inr (Migrate.Summary 1 2 0), w') /\
    _db w' = Some c' /\
    map sale_seq (Select.sales_of_day (content c') 1) = [1; 3] /\
    ~ dense (content c') 1.
Proof.
  exists (snd (Migrate.run (world_with (Some gap_store)))).
  eexists.
  split; [vm_compute; reflexivity |].
  split; [vm_compute; reflexivity |].
  split; [reflexivity |].
  intros D. vm_compute in D. discriminate D.
Qed.

(** C8, as the code has it.
    - [deleteSale saleId dayId] leaves the Sales of the Day [dayId] as they
      were in [seq] order, without the deleted one, numbered 1, ..., count.
    - [addSale] appends a Sale numbered max(seq) + 1 (1 on a Day without
      Sales, and 1 when max(seq) + 1 is 0); on a dense Day that is
      count + 1, and the Day stays dense.
    - The importer numbers the Sales of the live chunks 1, ..., N in array
      order.
    - The importer gives a historical Sale the sequence number of its CSV
      row, whatever it is. *)
Theorem dense_sequencing :
  (forall saleId dayId w c,
     _db w = Some c -> tx_saved c = None ->
     has_table (content c) "sales" = true ->
     NoDup (map sale_id (sales (content c))) ->
     exists r w' c',
       DBSales.deleteSale saleId dayId w = (r, w') /\
       _db w' = Some c' /\
       Select.sales_of_day (content c') dayId =
         renumber 0 (filter (fun x => negb (sale_id x =? saleId))
                       (Select.sales_of_day (content c) dayId)) /\
       dense (content c') dayId /\
       (match idb_faults w with true :: _ => False | _ => True end -> r = inr tt)) /\
  (forall dayId kg price comments w c,
     _db w = Some c ->
     has_table (content c) "sales" = true ->
     (foreign_keys c = true ->
      existsb (fun x => day_id x =? dayId) (days (content c)) = true) ->
     exists r w' c' sq,
       DBSales.addSale dayId kg price comments w = (r, w') /\
       _db w' = Some c' /\
       sq = (if next_seq (content c) dayId =? 0 then 1 else next_seq (content c) dayId) /\
       sales (content c') =
         (sales (content c) ++
          [mkSale (next_rowid (map sale_id (sales (content c)))) dayId sq
             kg price comments])%list /\
       (dense (content c) dayId ->
        sq = Z.of_nat (List.length (Select.sales_of_day (content c) dayId)) + 1 /\
        dense (content c') dayId) /\
       (match idb_faults w with true :: _ => False | _ => True end ->
        r = inr (next_rowid (map sale_id (sales (content c))), sq))) /\
  (forall dayId unitPrice validSales n w c,
     ready w c ->
     existsb (fun x => day_id x =? dayId) (days (content c)) = true ->
     exists n' w' c' rows,
       Migrate.insert_chunk_sales dayId unitPrice validSales 0 n w = (inr n', w') /\
       _db w' = Some c' /\
       sales (content c') = (sales (content c) ++ rows)%list /\
       map sale_seq rows = count_from 0 (List.length validSales) /\
       map sale_day_id rows = map (fun _ => dayId) validSales) /\
  (forall dayId parsed n w c,
     ready w c ->
     existsb (fun x => day_id x =? dayId) (days (content c)) = true ->
     exists n' w' c' rows,
       Migrate.insert_parsed_sales dayId parsed n w = (inr n', w') /\
       _db w' = Some c' /\
       sales (content c') = (sales (content c) ++ rows)%list /\
       map sale_seq rows = map Migrate.seq parsed /\
       map sale_day_id rows = map (fun _ => dayId) parsed).
Proof.
  split; [| split; [| split]].
  - intros saleId dayId w c H I T N.
    destruct (deleteSale_resequences saleId dayId w c H I T N)
      as (r & w' & c' & E & H' & S & Ok).
    exists r, w', c'. repeat split; auto.
    unfold dense. rewrite S, renumber_seq, length_map_renumber. reflexivity.
  - intros dayId kg price comments w c H T F.
    destruct (addSale_appends dayId kg price comments w c H T F)
      as (r & w' & c' & E & H' & S & Ok).
    exists r, w', c', (if next_seq (content c) dayId =? 0 then 1
                       else next_seq (content c) dayId).
    repeat split; auto.
    + rewrite (dense_next _ _ H0).
      destruct (Z.eqb_spec (Z.of_nat (List.length
                  (Select.sales_of_day (content c) dayId)) + 1) 0); [lia | reflexivity].
    + rewrite (dense_next _ _ H0) in S.
      destruct (Z.eqb_spec (Z.of_nat (List.length
                  (Select.sales_of_day (content c) dayId)) + 1) 0) in S; [lia |].
      apply (dense_append _ _ _ _ _ _ _ H0 S).
  - intros dayId up l n w c R D.
    destruct (insert_chunk_sales_ready dayId up l 0 n w c R D)
      as (w' & c' & rows & E & R' & _ & S & Q & Y).
    eexists _, w', c', rows. split; [exact E |].
    split; [apply R' |]. auto.
  - intros dayId l n w c R D.
    destruct (insert_parsed_sales_ready dayId l n w c R D)
      as (w' & c' & rows & E & R' & _ & S & Q & Y).
    eexists _, w', c', rows. split; [exact E |].
    split; [apply R' |]. auto.
Qed.

Lemma dense_sequencing_witness :
  exists r w' c',
    DBSales.deleteSale 2 1 (world_after 100 [10%Q; 20%Q; 30%Q]) = (r, w') /\
    _db w' = Some c' /\
    map sale_id (Select.sales_of_day (content c') 1) = [1; 3] /\
    map sale_seq (Select.sales_of_day (content c') 1) = [1; 2].
Proof.
  assert (N : NoDup (map sale_id (sales (day_before 100 [10%Q; 20%Q; 30%Q])))).
  { repeat constructor; cbn; intros H;
      repeat (destruct H as [H | H]; [discriminate H |]); exact H. }
  destruct (proj1 dense_sequencing 2 1 (world_after 100 [10%Q; 20%Q; 30%Q]) _
              eq_refl eq_refl eq_refl N)
    as (r & w' & c' & E & H & S & _).
  exists r, w', c'. split; [exact E |]. split; [exact H |].
  rewrite S. split; reflexivity.
Defined.


(* ================================================================== *)
(** * Further properties of the code *)

(** ** Initialisation *)

Lemma must_reseed_dec w :
  must_reseed w \/
  exists image, idb w = Some image /\ DB._isSchemaCurrent (open image) = true.
Proof.
  unfold must_reseed. destruct (idb w) as [image |]; [| left; exact I].
  destruct (DB._isSchemaCurrent (open image)) eqn:G; [right | left; reflexivity].
  exists image. split; [reflexivity | exact G].
Qed.

(** [init] when the seed cannot be fetched. *)
Lemma init_seed_missing w :
  _db w = None -> seed w = None -> must_reseed w ->
  DB.init w = (inl SeedFetchFailed, w).
Proof.
  unfold must_reseed. intros H S G.
  destruct w as [db dirty entry faults sd0 clk leg tr]; simpl in *; subst.
  unfold DB.init, bind at 1, get; simpl.
  destruct entry as [image |].
  - unfold bind at 1. unfold bind at 1. unfold DB._loadFromIDB, bind at 1, get, ret.
    simpl. rewrite G. reflexivity.
  - reflexivity.
Qed.

(** [init] when the seed is fetched and the put of it fails. *)
Lemma init_put_fails w sd later :
  _db w = None -> seed w = Some sd -> must_reseed w ->
  idb_faults w = true :: later ->
  DB.init w =
    (inl IdbError,
     mkWorld (Some (pragma_foreign_keys_on (open sd))) (_dirty w) (idb w) later
       (seed w) (clock w) (legacy w) (trace w)).
Proof.
  unfold must_reseed. intros H S G F.
  destruct w as [db dirty entry faults sd0 clk leg tr]; simpl in *; subst.
  unfold DB.init, bind at 1, get; simpl.
  destruct entry as [image |].
  - unfold bind at 1. unfold bind at 1. unfold DB._loadFromIDB, bind at 1, get, ret.
    simpl. rewrite G. reflexivity.
  - reflexivity.
Qed.

(** Every way [init] can go. *)
Lemma init_cases w :
  (exists c, _db w = Some c /\ DB.init w = (inr c, w)) \/
  (exists image,
     _db w = None /\ idb w = Some image /\
     DB._isSchemaCurrent (open image) = true /\
     DB.init w = (inr (pragma_foreign_keys_on (open image)),
                  set_db (Some (pragma_foreign_keys_on (open image))) w)) \/
  (_db w = None /\ must_reseed w /\ seed w = None /\
   DB.init w = (inl SeedFetchFailed, w)) \/
  (exists sd later,
     _db w = None /\ must_reseed w /\ seed w = Some sd /\
     idb_faults w = true :: later /\
     DB.init w =
       (inl IdbError,
        mkWorld (Some (pragma_foreign_keys_on (open sd))) (_dirty w) (idb w) later
          (seed w) (clock w) (legacy w) (trace w))) \/
  (exists sd,
     _db w = None /\ must_reseed w /\ seed w = Some sd /\
     match idb_faults w with true :: _ => False | _ => True end /\
     DB.init w =
       (inr (pragma_foreign_keys_on (open sd)),
        mkWorld (Some (pragma_foreign_keys_on (open sd))) (_dirty w) (Some sd)
          (tl (idb_faults w)) (seed w) (clock w) (legacy w) (Saved sd :: trace w))).
Proof.
  destruct (_db w) as [c |] eqn:H.
  - left. exists c. split; [reflexivity | apply init_known_handle; exact H].
  - right. destruct (must_reseed_dec w) as [G | (image & E & G)].
    + right.
      pose proof (fun sd => init_reseeds w sd H) as R.
      pose proof (fun sd later => init_put_fails w sd later H) as P.
      pose proof (init_seed_missing w H) as M.
      revert R P M.
      destruct (seed w) as [sd |]; intros R P M.
      * right. revert R P.
        destruct (idb_faults w) as [| [|] later]; intros R P.
        -- right. exists sd. repeat split; auto.
        -- left. exists sd, later. repeat split; auto.
        -- right. exists sd. repeat split; auto.
      * left. repeat split; auto.
    + left. exists image. repeat split; auto. apply init_reuses; auto.
Qed.

Lemma init_returns_handle w c w' :
  DB.init w = (inr c, w') -> _db w' = Some c.
Proof.
  intros E.
  destruct (init_cases w)
    as [(c0 & H & I) | [(image & _ & _ & _ & I) | [(_ & _ & _ & I) |
        [(sd & later & _ & _ & _ & _ & I) | (sd & _ & _ & _ & _ & I)]]]];
    rewrite I in E; try discriminate; injection E as <- <-; auto.
Qed.

(** X1. A first [init] of a session, with a seed that has the required
    tables and puts that work, returns a handle on which the engine is
    ready: the required tables are there and no transaction is open.  The
    handle holds the stored image when the guard accepted it, and foreign
    keys are then on; else it holds the seed, which is then the stored
    image as well. *)
Theorem init_makes_ready (w : world) (sd : database)
  (Hnew : _db w = None) (Hseed : seed w = Some sd)
  (Hschema : DB._isSchemaCurrent (open sd) = true) (Hputs : reliable w) :
  exists c w',
    DB.init w = (inr c, w') /\ ready w' c /\
    tx_saved c = None /\
    ((idb w = Some (content c) /\ idb w' = idb w /\ foreign_keys c = true) \/
     (must_reseed w /\ content c = sd /\ idb w' = Some sd)).
Proof.
  destruct (init_cases w)
    as [(c0 & H & I) | [(image & _ & E & G & I) | [(_ & _ & S & I) |
        [(sd' & later & _ & _ & _ & F & I) | (sd' & _ & G & S & F & I)]]]].
  - rewrite Hnew in H. discriminate.
  - eexists _, _. split; [exact I |]. split; [| split]; try reflexivity.
    + split; [reflexivity |]. split; [exact G | exact Hputs].
    + left. split; [exact E |]. split; reflexivity.
  - rewrite Hseed in S. discriminate.
  - exfalso. pose proof (reliable_head w Hputs) as R. rewrite F in R. exact R.
  - rewrite Hseed in S. injection S as <-.
    eexists _, _. split; [exact I |]. split; [| split]; try reflexivity.
    + split; [reflexivity |]. split; [exact Hschema |].
      unfold reliable in *. cbn [idb_faults].
      destruct (idb_faults w) as [| b l]; [reflexivity |].
      cbn [tl]. cbn [forallb] in Hputs. apply andb_prop in Hputs. apply Hputs.
    + right. split; [exact G |]. split; reflexivity.
Qed.

Lemma init_makes_ready_witness :
  exists c w',
    DB.init (mkWorld None false (Some no_sales_image) [] (Some seed_image)
               "2026-02-03" None []) = (inr c, w') /\
    ready w' c /\ tx_saved c = None.
Proof.
  destruct (init_makes_ready
              (mkWorld None false (Some no_sales_image) [] (Some seed_image)
                 "2026-02-03" None [])
              seed_image eq_refl eq_refl eq_refl eq_refl)
    as (c & w' & E & R & K & _).
  exists c, w'. split; [exact E |]. split; [exact R | exact K].
Defined.

(** X2. [init] is idempotent: after an [init] that returned, another
    [init] returns the same handle and leaves the world as it is. *)
Theorem init_idempotent (w w' : world) (c : connection)
  (Hinit : DB.init w = (inr c, w')) :
  DB.init w' = (inr c, w').
Proof.
  apply init_known_handle. apply (init_returns_handle w c w' Hinit).
Qed.

Lemma init_idempotent_witness :
  exists c w',
    DB.init (mkWorld None false None [] (Some seed_image) "2026-02-03" None [])
      = (inr c, w') /\
    DB.init w' = (inr c, w').
Proof.
  eexists _, _. split; [reflexivity |].
  apply (init_idempotent
           (mkWorld None false None [] (Some seed_image) "2026-02-03" None [])).
  reflexivity.
Defined.

(** X3. When the seed is needed and cannot be fetched, [init] throws and
    the world is as before: there is still no handle, and every query and
    write still throws [NotInitialised]. *)
Theorem init_without_seed (w : world)
  (Hnew : _db w = None) (Hseed : seed w = None) (Hneeded : must_reseed w) :
  DB.init w = (inl SeedFetchFailed, w) /\
  (forall A (q : Select.sql A), DB.query q w = (inl NotInitialised, w)) /\
  (forall s, DB.run s w = (inl NotInitialised, w)).
Proof.
  split; [apply init_seed_missing; assumption |]. split.
  - intros A q. apply query_not_initialised. exact Hnew.
  - intros s. apply run_not_initialised. exact Hnew.
Qed.

Lemma init_without_seed_witness :
  DB.init (mkWorld None false (Some no_sales_image) [] None "2026-02-03" None [])
  = (inl SeedFetchFailed,
     mkWorld None false (Some no_sales_image) [] None "2026-02-03" None []).
Proof.
  apply (init_without_seed
           (mkWorld None false (Some no_sales_image) [] None "2026-02-03" None [])
           eq_refl eq_refl eq_refl).
Defined.

(** X4. When the seed is fetched but the put of it fails, [init] throws
    with the handle already set, on the seed: the next [init] returns that
    handle and writes nothing, so the IndexedDB entry is still what it was
    and the seed is in use without having been stored. *)
Theorem init_put_failure_leaves_handle (w : world) (sd : database) (later : list bool)
  (Hnew : _db w = None) (Hseed : seed w = Some sd) (Hneeded : must_reseed w)
  (Hfault : idb_faults w = true :: later) :
  exists w1 h,
    DB.init w = (inl IdbError, w1) /\
    _db w1 = Some h /\ content h = sd /\ tx_saved h = None /\
    idb w1 = idb w /\
    DB.init w1 = (inr h, w1).
Proof.
  eexists _, _. split; [apply init_put_fails; eassumption |].
  split; [reflexivity |]. split; [reflexivity |]. split; [reflexivity |].
  split; [reflexivity |].
  apply init_known_handle. reflexivity.
Qed.

Lemma init_put_failure_leaves_handle_witness :
  exists w1 h,
    DB.init (mkWorld None false None [true] (Some seed_image) "2026-02-03" None [])
      = (inl IdbError, w1) /\
    idb w1 = None /\ content h = seed_image /\
    DB.init w1 = (inr h, w1).
Proof.
  destruct (init_put_failure_leaves_handle
              (mkWorld None false None [true] (Some seed_image) "2026-02-03" None [])
              seed_image [] eq_refl eq_refl I eq_refl)
    as (w1 & h & E & _ & C & _ & D & E2).
  exists w1, h. split; [exact E |]. split; [exact D |]. split; [exact C | exact E2].
Defined.

(** ** Reads and writes of the engine *)

Lemma select_keeps_connection {A} (q : Select.sql A) c :
  is_select q = true ->
  match Select.exec q c with
  | inl _ => True
  | inr (_, c') => c' = c
  end.
Proof.
  destruct q; cbn [is_select]; intros S; try discriminate;
    cbn [Select.exec]; unfold Select.select, Select.need;
    repeat match goal with
           | |- context [has_table ?d ?t] => destruct (has_table d t)
           end; auto.
Qed.

(** X5. A SELECT through [DB.query] never changes anything, whether it
    answers or throws; and before [init] every [DB.query] throws
    [NotInitialised]. *)
Theorem query_read_only :
  (forall A (q : Select.sql A) w,
     is_select q = true -> snd (DB.query q w) = w) /\
  (forall A (q : Select.sql A) w,
     _db w = None -> DB.query q w = (inl NotInitialised, w)).
Proof.
  split; [| intros A q w H; apply query_not_initialised; exact H].
  intros A q w S. destruct (_db w) as [c |] eqn:H.
  - unfold DB.query. rewrite (bind_ok _ _ _ _ _ (require_db_some w c H)).
    unfold DB.on_db. rewrite H.
    pose proof (select_keeps_connection q c S) as K.
    destruct (Select.exec q c) as [e | [l c']]; [reflexivity |].
    subst c'. cbn [snd]. apply set_db_same. exact H.
  - rewrite (query_not_initialised q w H). reflexivity.
Qed.

Lemma query_read_only_witness :
  snd (DB.query (Select.SalesOfDay 1) (world_after 100 [10%Q; 20%Q]))
    = world_after 100 [10%Q; 20%Q] /\
  snd (DB.query (Select.SettingValue "k")
         (set_db (Some (open no_sales_image)) fresh_world))
    = set_db (Some (open no_sales_image)) fresh_world.
Proof.
  split; apply (proj1 query_read_only); reflexivity.
Defined.

Lemma run_returns_synced s w r w' :
  DB.run s w = (inr r, w') -> synced w'.
Proof.
  intros E.
  destruct (run_inr_inv s w r w' E) as (c & c' & H & R & _).
  rewrite (run_statement_ok s w c c' H R) in E.
  set (m := record MarkedDirty (set_dirty true (set_db (Some c') w))) in E.
  destruct (persist_cases m)
    as [[_ [D | D]] | [(c1 & later & _ & _ & _ & P) | (c1 & H1 & _ & P)]].
  - discriminate D.
  - discriminate D.
  - rewrite (bind_fail _ _ _ _ _ P) in E. discriminate.
  - rewrite (bind_ok _ _ _ _ _ P) in E. injection E as _ <-.
    exists c1. repeat split.
Qed.

Lemma transaction_returns_synced fn w w' :
  DB.transaction fn w = (inr tt, w') -> synced w'.
Proof.
  unfold DB.transaction. intros E.
  apply bind_inr in E. destruct E as ([] & w0 & _ & E).
  unfold try_catch in E.
  match type of E with
  | (match ?body with _ => _ end) = _ => destruct body as [[e | []] w1] eqn:B
  end.
  - unfold bind in E.
    destruct (DB.db_run rollback w1) as [[e1 | []] w2]; discriminate.
  - injection E as <-.
    apply bind_inr in B. destruct B as ([] & w2 & _ & B).
    apply bind_inr in B. destruct B as ([] & w3 & _ & B).
    apply bind_inr in B. destruct B as ([] & w4 & C & B).
    apply bind_inr in B. destruct B as ([] & m & D & B).
    unfold DB.mark_dirty, modify in D. injection D as <-.
    assert (H4 : exists c4, _db w4 = Some c4).
    { unfold DB.db_run, DB.on_db in C.
      destruct (_db w3) as [c3 |]; [| discriminate].
      destruct (commit c3) as [e | c4]; [discriminate |].
      injection C as <-. exists c4. reflexivity. }
    destruct H4 as (c4 & H4).
    destruct (persist_cases (record MarkedDirty (set_dirty true w4)))
      as [[_ [D | D]] | [(c1 & later & _ & _ & _ & P) | (c1 & H1 & _ & P)]].
    + discriminate D.
    + cbn in D. rewrite H4 in D. discriminate.
    + rewrite P in B. discriminate.
    + rewrite P in B. injection B as <-. exists c1. repeat split.
Qed.

(** X6. Whenever a write returns, it is durable: after [DB.run] or
    [DB.transaction] has returned, the IndexedDB entry holds the image of
    the live database and the dirty flag is clear.  The same holds for the
    writes of db-sales.js that go through them. *)
Theorem writes_are_durable :
  (forall s w r w', DB.run s w = (inr r, w') -> synced w') /\
  (forall fn w w', DB.transaction fn w = (inr tt, w') -> synced w') /\
  (forall dayId kg price comments w r w',
     DBSales.addSale dayId kg price comments w = (inr r, w') -> synced w') /\
  (forall saleId dayId w w',
     DBSales.deleteSale saleId dayId w = (inr tt, w') -> synced w') /\
  (forall dayId w w', DBSales.deleteDay dayId w = (inr tt, w') -> synced w') /\
  (forall dayId stock w w',
     DBSales.updateOpeningStock dayId stock w = (inr tt, w') -> synced w') /\
  (forall key value w w',
     DBSales.saveSetting key value w = (inr tt, w') -> synced w').
Proof.
  split; [apply run_returns_synced |].
  split; [apply transaction_returns_synced |].
  split; [| split; [| split; [| split]]].
  - intros dayId kg price comments w r w' E. unfold DBSales.addSale in E.
    apply bind_inr in E. destruct E as (l & w1 & _ & E).
    apply bind_inr in E. destruct E as (res & w2 & E & F).
    injection F as _ <-. apply (run_returns_synced _ _ _ _ E).
  - intros saleId dayId w w' E. apply (transaction_returns_synced _ _ _ E).
  - intros dayId w w' E. unfold DBSales.deleteDay in E.
    apply bind_inr in E. destruct E as (res & w2 & E & F).
    injection F as <-. apply (run_returns_synced _ _ _ _ E).
  - intros dayId stock w w' E. unfold DBSales.updateOpeningStock in E.
    apply bind_inr in E. destruct E as (res & w2 & E & F).
    injection F as <-. apply (run_returns_synced _ _ _ _ E).
  - intros key value w w' E. unfold DBSales.saveSetting in E.
    apply bind_inr in E. destruct E as (res & w2 & E & F).
    injection F as <-. apply (run_returns_synced _ _ _ _ E).
Qed.

Lemma writes_are_durable_witness :
  synced (snd (DBSales.addSale 1 5 6250 "Paid" (world_after 100 [10%Q; 20%Q]))).
Proof.
  apply (proj1 (proj2 (proj2 writes_are_durable)) 1 5%Q 6250%Q "Paid"
           (world_after 100 [10%Q; 20%Q]) (3, 3)).
  vm_compute. reflexivity.
Defined.

(** ** Transactions that go wrong *)

(** X7. When the statements of a transaction complete and the put of
    [persist] then fails, the caller does not get the IndexedDB error: the
    handler runs ROLLBACK after COMMIT, and the error of that ROLLBACK is
    what is thrown.  The changes stay committed in memory, the entry is not
    written and the dirty flag stays set. *)
Theorem transaction_persist_failure (ops : list stmt) (w : world)
  (c cn : connection) (later : list bool)
  (Hdb : _db w = Some c) (Hidle : tx_saved c = None)
  (Hops : run_all ops (begun c) = inr cn)
  (Hfault : idb_faults w = true :: later) :
  exists w' c',
    DB.transaction (in_order ops) w = (inl (SqlError NoTransaction), w') /\
    _db w' = Some c' /\ content c' = content cn /\ tx_saved c' = None /\
    idb w' = idb w /\ _dirty w' = true.
Proof.
  assert (S : tx_saved cn = Some (content c)).
  { destruct (run_all_keeps ops (begun c) cn Hops) as [T _]. exact T. }
  pose proof (transaction_commits (in_order ops) w c cn Hdb Hidle
                (in_order_ok ops (set_db (Some (begun c)) w) (begun c) cn eq_refl Hops)
                S) as E.
  cbv zeta in E. rewrite Hfault in E.
  eexists _, (committed cn). split; [exact E |]. repeat split.
Qed.

Lemma transaction_persist_failure_witness :
  exists w' c',
    DB.transaction (in_order [InsertDay "2026-02-01" 100 1250])
      (mkWorld (Some (pragma_foreign_keys_on (open seed_image))) false
         (Some seed_image) [true] (Some seed_image) "2026-02-03" None [])
    = (inl (SqlError NoTransaction), w') /\
    _db w' = Some c' /\ List.length (days (content c')) = 1%nat /\
    idb w' = Some seed_image.
Proof.
  destruct (transaction_persist_failure [InsertDay "2026-02-01" 100 1250]
              (mkWorld (Some (pragma_foreign_keys_on (open seed_image))) false
                 (Some seed_image) [true] (Some seed_image) "2026-02-03" None [])
              _ _ [] eq_refl eq_refl eq_refl eq_refl)
    as (w' & c' & E & H & C & _ & D & _).
  exists w', c'. split; [exact E |]. split; [exact H |].
  split; [rewrite C; reflexivity | exact D].
Defined.

(** [transaction] called while a transaction is open: BEGIN throws, and
    the handler's ROLLBACK undoes the open transaction. *)
Lemma transaction_inside_open fn w c d0 :
  _db w = Some c -> tx_saved c = Some d0 ->
  DB.transaction fn w =
    (inl (SqlError TransactionActive),
     set_db (Some (mkConnection d0 None (foreign_keys c) (last_insert_rowid c)
                     (rows_modified c))) w).
Proof.
  intros H T. unfold DB.transaction.
  rewrite (bind_ok _ _ _ _ _ (require_db_some w c H)).
  unfold try_catch.
  assert (B : DB.db_run begin w = (inl (SqlError TransactionActive), w)).
  { unfold DB.db_run, DB.on_db, begin. rewrite H, T. reflexivity. }
  rewrite (bind_fail _ _ _ _ _ B).
  unfold bind, DB.db_run, DB.on_db, rollback, throw. rewrite H, T. reflexivity.
Qed.

(** X8. Transactions do not nest.  Before [init], [transaction] throws
    [NotInitialised] without running its callback.  A callback that, after
    some statements, starts a transaction of its own makes the whole call
    fail: the inner BEGIN throws, everything done since the outer BEGIN is
    rolled back, and the caller gets the error of the outer handler's
    ROLLBACK; the dirty flag, the entry and the trace are untouched. *)
Theorem transactions_do_not_nest :
  (forall fn w, _db w = None -> DB.transaction fn w = (inl NotInitialised, w)) /\
  (forall ops inner w c ck,
     _db w = Some c -> tx_saved c = None ->
     run_all ops (begun c) = inr ck ->
     exists w' c',
       DB.transaction (fun tx => in_order ops tx ;; DB.transaction inner) w
       = (inl (SqlError NoTransaction), w') /\
       _db w' = Some c' /\ content c' = content c /\ tx_saved c' = None /\
       _dirty w' = _dirty w /\ idb w' = idb w /\ trace w' = trace w).
Proof.
  split.
  - intros fn w H. unfold DB.transaction.
    rewrite (bind_fail _ _ _ _ _ (require_db_none w H)). reflexivity.
  - intros ops inner w c ck H I R.
    assert (S : tx_saved ck = Some (content c)).
    { destruct (run_all_keeps ops (begun c) ck R) as [T _]. exact T. }
    unfold DB.transaction at 1.
    rewrite (bind_ok _ _ _ _ _ (require_db_some w c H)).
    unfold try_catch.
    rewrite (bind_ok _ _ _ _ _ (begin_ok w c H I)).
    assert (F : (in_order ops DB._runInTx ;; DB.transaction inner)
                  (set_db (Some (begun c)) w)
                = (inl (SqlError TransactionActive),
                   set_db (Some (mkConnection (content c) None (foreign_keys ck)
                                   (last_insert_rowid ck) (rows_modified ck))) w)).
    { rewrite (bind_ok _ _ _ _ _
                 (in_order_ok ops (set_db (Some (begun c)) w) (begun c) ck eq_refl R)).
      apply (transaction_inside_open inner
               (set_db (Some ck) (set_db (Some (begun c)) w)) ck (content c) eq_refl S). }
    rewrite (bind_fail _ _ _ _ _ F).
    eexists _, _. split.
    + unfold bind, DB.db_run, DB.on_db, rollback, throw. cbn. reflexivity.
    + repeat split.
Qed.

Lemma transactions_do_not_nest_witness :
  exists w' c',
    DB.transaction
      (fun tx => in_order [InsertDay "2026-02-01" 100 1250] tx ;;
                 DB.transaction (in_order [InsertSale 1 1 5 6250 "Paid"]))
      fresh_world
    = (inl (SqlError NoTransaction), w') /\
    _db w' = Some c' /\ content c' = seed_image.
Proof.
  destruct (proj2 transactions_do_not_nest [InsertDay "2026-02-01" 100 1250]
              (in_order [InsertSale 1 1 5 6250 "Paid"]) fresh_world _ _
              eq_refl eq_refl eq_refl)
    as (w' & c' & E & H & C & _).
  exists w', c'. split; [exact E |]. split; [exact H | exact C].
Defined.

(** ** Today's Day *)

Lemma getOrCreateToday_existing w c x l :
  _db w = Some c -> has_table (content c) "days" = true ->
  filter (date_is (clock w)) (days (content c)) = x :: l ->
  DBSales.getOrCreateToday w = (inr (Some x), w).
Proof.
  intros H T F. unfold DBSales.getOrCreateToday.
  unfold bind at 1. unfold DB.today at 1, bind at 1, get, ret.
  rewrite (bind_ok _ _ _ _ _
             (query_reads (Select.DayByDate (clock w)) w c (x :: l) H
                ltac:(cbn [Select.exec]; rewrite has_table_need by exact T;
                      rewrite F; reflexivity))).
  reflexivity.
Qed.

Lemma today_only_new c today :
  existsb (date_is today) (days (content c)) = false ->
  filter (date_is today) (days (content (with_today c today)))
    = [new_day (content c) today].
Proof.
  intros N. cbn [with_today content set_days days].
  rewrite filter_app, (existsb_false_filter _ _ N). cbn [app filter].
  unfold date_is at 1. cbn [new_day day_date]. rewrite String.eqb_refl.
  reflexivity.
Qed.

(** [getOrCreateToday] when today has no Day yet, with the world it
    leaves. *)
Lemma getOrCreateToday_creates_world w c :
  _db w = Some c ->
  has_table (content c) "days" = true ->
  has_table (content c) "sales" = true ->
  existsb (date_is (clock w)) (days (content c)) = false ->
  DBSales.getOrCreateToday w
    = (inr (Some (new_day (content c) (clock w))), today_created w c).
Proof.
  intros H Td Ts N.
  set (nd := new_day (content c) (clock w)).
  unfold DBSales.getOrCreateToday.
  unfold bind at 1. unfold DB.today at 1, bind at 1, get, ret.
  rewrite (bind_ok _ _ _ _ _
             (query_reads (Select.DayByDate (clock w)) w c [] H
                ltac:(simpl; rewrite has_table_need by exact Td;
                      rewrite existsb_false_filter by exact N; reflexivity))).
  cbn [DBSales.first hd_error].
  assert (P : Select.exec (Select.PrevDay (clock w)) c =
              inr (match prior_day (content c) (clock w) with
                   | Some x => [Select.mkPrev (day_opening_stock x) (day_unit_price x)
                                  (kg_sold_on (content c) x)]
                   | None => []
                   end, c)).
  { simpl. rewrite !has_table_need by assumption. reflexivity. }
  rewrite (bind_ok _ _ _ _ _ (query_reads _ w c _ H P)).
  assert (V : forall (l : list Select.prev_row),
            l = match prior_day (content c) (clock w) with
                | Some x => [Select.mkPrev (day_opening_stock x) (day_unit_price x)
                               (kg_sold_on (content c) x)]
                | None => []
                end ->
            match DBSales.first l with
            | Some p => JsNumber.max0 (JsNumber.sub (Select.prev_opening_stock p)
                                         (Select.kg_sold p))
            | None => 0%Q
            end = day_opening_stock nd /\
            match DBSales.first l with
            | Some p => Select.prev_unit_price p
            | None => 0%Q
            end = day_unit_price nd).
  { intros l ->. unfold nd, new_day, carried; simpl.
    destruct (prior_day (content c) (clock w)); simpl; auto. }
  destruct (V _ eq_refl) as [Vo Vu]. rewrite Vo, Vu. clear V Vo Vu P.
  set (c1 := with_today c (clock w)).
  assert (Ins : Select.exec
                (Select.Write (InsertDay (clock w) (day_opening_stock nd)
                                 (day_unit_price nd))) c = inr ([], c1)).
  { simpl. unfold Sql.run; simpl. rewrite has_table_need_stmt by exact Td.
    rewrite N. reflexivity. }
  rewrite (bind_ok _ _ _ _ _ (query_ok _ w c _ c1 H Ins)).
  assert (U : Sql.run (UpdateDayPriceByDate (day_unit_price nd) (clock w)) c1 = inr c1).
  { unfold Sql.run; simpl. rewrite has_table_need_stmt by exact Td.
    unfold c1, with_today. simpl. f_equal. f_equal.
    - unfold set_days; simpl. f_equal.
      apply update_where_id. intros x Ix Px.
      apply in_app_or in Ix. destruct Ix as [Ix | [<- | []]].
      + exfalso. assert (E : existsb (date_is (clock w)) (days (content c)) = true).
        { apply existsb_exists. exists x. auto. }
        rewrite N in E. discriminate.
      + reflexivity.
    - unfold count_if. rewrite filter_app, (existsb_false_filter _ _ N). simpl.
      unfold date_is. simpl. rewrite String.eqb_refl. reflexivity. }
  assert (Pz : DBSales._persist (clock w) (day_opening_stock nd) (day_unit_price nd)
                 (set_db (Some c1) w) = (inr tt, today_created w c)).
  { unfold DBSales._persist, try_catch.
    unfold bind at 1.
    rewrite (run_statement_ok _ (set_db (Some c1) w) c1 c1 eq_refl U).
    set (m := record MarkedDirty
                (set_dirty true (set_db (Some c1) (set_db (Some c1) w)))).
    unfold today_created.
    destruct (idb_faults w) as [| [|] later] eqn:Fl.
    - rewrite (bind_ok _ _ _ _ _
                 (persist_dirty_ok m c1 eq_refl eq_refl
                    ltac:(cbn; rewrite Fl; exact I))).
      cbn. rewrite Fl. reflexivity.
    - rewrite (bind_fail _ _ _ _ _
                 (persist_dirty_fault m c1 later eq_refl eq_refl
                    ltac:(cbn; rewrite Fl; reflexivity))).
      reflexivity.
    - rewrite (bind_ok _ _ _ _ _
                 (persist_dirty_ok m c1 eq_refl eq_refl
                    ltac:(cbn; rewrite Fl; exact I))).
      cbn. rewrite Fl. reflexivity. }
  rewrite (bind_ok _ _ _ _ _ Pz).
  assert (Hc : _db (today_created w c) = Some c1).
  { unfold today_created. destruct (idb_faults w) as [| [|] later]; reflexivity. }
  assert (F : Select.exec (Select.DayByDate (clock w)) c1 = inr ([nd], c1)).
  { cbn [Select.exec]. rewrite has_table_need by exact Td.
    unfold c1. rewrite (today_only_new c (clock w) N). reflexivity. }
  rewrite (bind_ok _ _ _ _ _ (query_reads _ (today_created w c) c1 _ Hc F)).
  reflexivity.
Qed.

(** X9. [getOrCreateToday] is idempotent.  It returns a Day dated today
    whether or not one existed; when one exists already the world is left
    as it is, and calling it again after it has created the Day returns
    that same Day and changes nothing more. *)
Theorem getOrCreateToday_idempotent (w : world) (c : connection)
  (Hdb : _db w = Some c)
  (Hdays : has_table (content c) "days" = true)
  (Hsales : has_table (content c) "sales" = true) :
  exists d w',
    DBSales.getOrCreateToday w = (inr (Some d), w') /\
    day_date d = clock w /\
    (existsb (date_is (clock w)) (days (content c)) = true -> w' = w) /\
    DBSales.getOrCreateToday w' = (inr (Some d), w').
Proof.
  destruct (filter (date_is (clock w)) (days (content c))) as [| x l] eqn:F.
  - pose proof (filter_nil_existsb _ _ F) as N.
    exists (new_day (content c) (clock w)), (today_created w c).
    split; [apply getOrCreateToday_creates_world; assumption |].
    split; [reflexivity |].
    split; [intros E; rewrite N in E; discriminate |].
    assert (K : clock (today_created w c) = clock w).
    { unfold today_created. destruct (idb_faults w) as [| [|] later]; reflexivity. }
    apply getOrCreateToday_existing
      with (c := with_today c (clock w)) (l := []).
    + unfold today_created. destruct (idb_faults w) as [| [|] later]; reflexivity.
    + exact Hdays.
    + rewrite K. apply today_only_new. exact N.
  - exists x, w.
    assert (E : DBSales.getOrCreateToday w = (inr (Some x), w))
      by (apply getOrCreateToday_existing with (c := c) (l := l); assumption).
    split; [exact E |]. split; [| split; [reflexivity | exact E]].
    assert (Ix : In x (filter (date_is (clock w)) (days (content c))))
      by (rewrite F; left; reflexivity).
    apply filter_In in Ix. destruct Ix as [_ D].
    unfold date_is in D. apply String.eqb_eq in D. exact D.
Qed.

Lemma getOrCreateToday_idempotent_witness :
  exists d w',
    DBSales.getOrCreateToday (world_after 100 [10%Q; 20%Q]) = (inr (Some d), w') /\
    day_date d = "2026-02-03" /\
    DBSales.getOrCreateToday w' = (inr (Some d), w').
Proof.
  destruct (getOrCreateToday_idempotent (world_after 100 [10%Q; 20%Q]) _
              eq_refl eq_refl eq_refl)
    as (d & w' & E & D & _ & E2).
  exists d, w'. split; [exact E |]. split; [exact D | exact E2].
Defined.

(** X10. The Day that [getOrCreateToday] creates is inserted through the
    read path and made durable by a write that follows it.  When the put of
    that write completes, the IndexedDB entry holds the database with the
    new Day.  When the put fails the failure is swallowed: the Day is
    returned all the same, the entry is the old one and the dirty flag
    stays set. *)
Theorem today_persisted_or_swallowed (w : world) (c : connection)
  (Hdb : _db w = Some c)
  (Hdays : has_table (content c) "days" = true)
  (Hsales : has_table (content c) "sales" = true)
  (Hnew : existsb (date_is (clock w)) (days (content c)) = false) :
  exists w' c',
    DBSales.getOrCreateToday w = (inr (Some (new_day (content c) (clock w))), w') /\
    _db w' = Some c' /\
    days (content c') = (days (content c) ++ [new_day (content c) (clock w)])%list /\
    match idb_faults w with
    | true :: _ => idb w' = idb w /\ _dirty w' = true
    | _ => idb w' = Some (content c') /\ _dirty w' = false
    end.
Proof.
  exists (today_created w c), (with_today c (clock w)).
  split; [apply getOrCreateToday_creates_world; assumption |].
  unfold today_created.
  destruct (idb_faults w) as [| [|] later]; repeat split.
Qed.

Lemma today_persisted_or_swallowed_witness :
  exists w' c',
    DBSales.getOrCreateToday
      (mkWorld (Some (pragma_foreign_keys_on (open seed_image))) false
         (Some seed_image) [true] (Some seed_image) "2026-02-03" None [])
    = (inr (Some (mkDay 1 "2026-02-03" 0 0)), w') /\
    _db w' = Some c' /\ List.length (days (content c')) = 1%nat /\
    idb w' = Some seed_image /\ _dirty w' = true.
Proof.
  destruct (today_persisted_or_swallowed
              (mkWorld (Some (pragma_foreign_keys_on (open seed_image))) false
                 (Some seed_image) [true] (Some seed_image) "2026-02-03" None [])
              _ eq_refl eq_refl eq_refl eq_refl)
    as (w' & c' & E & H & D & Sw).
  exists w', c'. split; [exact E |]. split; [exact H |].
  split; [rewrite D; reflexivity | exact Sw].
Defined.

(** ** Settings *)

Lemma upsert_other_keys key key' value l :
  key' <> key ->
  filter (fun kv : string * string => String.eqb (fst kv) key')
    (if existsb (fun kv => String.eqb (fst kv) key) l
     then update_where (fun kv => String.eqb (fst kv) key)
            (fun kv => (fst kv, value)) l
     else (l ++ [(key, value)])%list)
  = filter (fun kv => String.eqb (fst kv) key') l.
Proof.
  intros N.
  assert (Nk : String.eqb key key' = false).
  { apply String.eqb_neq. intros E. apply N. symmetry. exact E. }
  destruct (existsb (fun kv => String.eqb (fst kv) key) l).
  - induction l as [| [k v] l IH]; [reflexivity |].
    cbn [update_where map fst filter] in *.
    destruct (String.eqb k key) eqn:E.
    + apply String.eqb_eq in E. subst k. cbn [fst]. rewrite Nk. exact IH.
    + cbn [fst]. destruct (String.eqb k key'); [f_equal |]; exact IH.
  - rewrite filter_app. cbn [filter fst]. rewrite Nk. apply app_nil_r.
Qed.

(** X11. Settings round trip.  After [saveSetting key value] has returned,
    [getSetting key] answers [value], so the last value saved wins, and
    [getSetting] of any other key answers what it answered before.  A key
    that was never saved reads as null. *)
Theorem settings_round_trip :
  (forall key value w w',
     DBSales.saveSetting key value w = (inr tt, w') ->
     DBSales.getSetting key w' = (inr (Some value), w') /\
     forall key', key' <> key ->
       fst (DBSales.getSetting key' w') = fst (DBSales.getSetting key' w)) /\
  (forall key w c,
     _db w = Some c -> has_table (content c) "settings" = true ->
     existsb (fun kv => String.eqb (fst kv) key) (settings (content c)) = false ->
     DBSales.getSetting key w = (inr None, w)).
Proof.
  split.
  - intros key value w w' E.
    split; [apply (saveSetting_then_get key value w w' E) |].
    intros key' N.
    unfold DBSales.saveSetting in E.
    apply bind_inr in E. destruct E as (r & w1 & E & F).
    injection F as <-.
    destruct (run_inr_inv _ _ _ _ E) as (c & c' & H & R & H').
    unfold Sql.run in R. cbn [exec_stmt] in R. unfold Sql.need in R.
    destruct (has_table (content c) "settings") eqn:T; [| discriminate].
    assert (C : content c' =
                set_settings (content c)
                  (if existsb (fun kv => String.eqb (fst kv) key) (settings (content c))
                   then update_where (fun kv => String.eqb (fst kv) key)
                          (fun kv => (fst kv, value)) (settings (content c))
                   else (settings (content c) ++ [(key, value)])%list)).
    { destruct (existsb (fun kv => String.eqb (fst kv) key) (settings (content c)));
        injection R as <-; reflexivity. }
    rewrite (getSetting_reads key' w c H T).
    rewrite (getSetting_reads key' w1 c' H') by (rewrite C; exact T).
    cbn [fst]. rewrite C. cbn [settings set_settings].
    rewrite (upsert_other_keys key key' value _ N). reflexivity.
  - intros key w c H T N.
    rewrite (getSetting_reads key w c H T).
    rewrite (existsb_false_filter _ _ N). reflexivity.
Qed.

Lemma settings_round_trip_witness :
  exists w1 w2,
    DBSales.saveSetting "theme" "dark" fresh_world = (inr tt, w1) /\
    DBSales.saveSetting "theme" "light" w1 = (inr tt, w2) /\
    DBSales.getSetting "theme" w2 = (inr (Some "light"), w2) /\
    DBSales.getSetting "migration_v1_done" w2 = (inr None, w2).
Proof.
  exists (snd (DBSales.saveSetting "theme" "dark" fresh_world)).
  exists (snd (DBSales.saveSetting "theme" "light"
                 (snd (DBSales.saveSetting "theme" "dark" fresh_world)))).
  split; [vm_compute; reflexivity |].
  assert (E2 : DBSales.saveSetting "theme" "light"
                 (snd (DBSales.saveSetting "theme" "dark" fresh_world))
               = (inr tt,
                  snd (DBSales.saveSetting "theme" "light"
                         (snd (DBSales.saveSetting "theme" "dark" fresh_world)))))
    by (vm_compute; reflexivity).
  split; [exact E2 |].
  split; [apply (proj1 (proj1 settings_round_trip _ _ _ _ E2)) |].
  eapply (proj2 settings_round_trip); vm_compute; reflexivity.
Defined.

(** ** Adding and deleting sales *)

Lemma fold_max_above r : forall i x,
  In x (i :: r) -> x <= fold_left Z.max r i.
Proof.
  induction r as [| y r IH]; intros i x I; cbn [fold_left].
  - destruct I as [<- | []]. lia.
  - destruct I as [<- | [<- | I]].
    + specialize (IH (Z.max i y) (Z.max i y) (or_introl eq_refl)). lia.
    + specialize (IH (Z.max i y) (Z.max i y) (or_introl eq_refl)). lia.
    + apply IH. right. exact I.
Qed.

(** A new rowid is above every rowid of the table. *)
Lemma next_rowid_above ids x : In x ids -> x < next_rowid ids.
Proof.
  destruct ids as [| i r]; [contradiction |].
  intros I. cbn [next_rowid]. pose proof (fold_max_above r i x I). lia.
Qed.

Lemma next_rowid_fresh ids : ~ In (next_rowid ids) ids.
Proof. intros I. pose proof (next_rowid_above ids _ I). lia. Qed.

Lemma with_seq_same x : with_seq (sale_seq x) x = x.
Proof. destruct x; reflexivity. Qed.

(** Renumbering a list that is numbered already changes nothing. *)
Lemma renumber_numbered_already l : forall i,
  map sale_seq l = count_from i (List.length l) -> renumber i l = l.
Proof.
  induction l as [| x l IH]; intros i E; [reflexivity |].
  cbn [map List.length count_from] in E. injection E as Ex El.
  cbn [renumber]. rewrite <- Ex, with_seq_same. f_equal.
  apply IH. rewrite Ex. exact El.
Qed.

Lemma filter_all {A} (p : A -> bool) (l : list A) :
  (forall x, In x l -> p x = true) -> filter p l = l.
Proof.
  induction l as [| x l IH]; intros H; [reflexivity |].
  cbn [filter]. rewrite (H x (or_introl eq_refl)). f_equal.
  apply IH. intros y I. apply H. right. exact I.
Qed.

Lemma sales_of_day_in d day x :
  In x (Select.sales_of_day d day) -> In x (sales d) /\ sale_day_id x = day.
Proof.
  intros I.
  apply (Permutation_in x (sort_perm sale sale_seq _)) in I.
  apply filter_In in I. destruct I as [I D].
  split; [exact I |]. unfold Select.of_day in D. apply Z.eqb_eq in D. exact D.
Qed.

Lemma distinct_ids_same (l : list sale) x y :
  NoDup (map sale_id l) -> In x l -> In y l -> sale_id x = sale_id y -> x = y.
Proof.
  induction l as [| z l IH]; intros N Ix Iy E; [contradiction |].
  cbn [map] in N. apply NoDup_cons_iff in N. destruct N as [Nz Nl].
  destruct Ix as [<- | Ix], Iy as [<- | Iy]; auto.
  - exfalso. apply Nz. rewrite E. apply in_map. exact Iy.
  - exfalso. apply Nz. rewrite <- E. apply in_map. exact Ix.
Qed.

Lemma position_some_in id ids k : position id ids = Some k -> In id ids.
Proof.
  revert k. induction ids as [| j r IH]; intros k; cbn [position]; [discriminate |].
  destruct (Z.eqb_spec j id) as [-> | _]; [left; reflexivity |].
  destruct (position id r) as [k' |]; [| discriminate].
  intros _. right. apply (IH k'). reflexivity.
Qed.

(** [deleteSale] with the table it leaves: the rows without the deleted
    one, those of the Day [dayId] renumbered. *)
Lemma deleteSale_table saleId dayId w c :
  _db w = Some c -> tx_saved c = None ->
  has_table (content c) "sales" = true ->
  exists r w' c',
    DBSales.deleteSale saleId dayId w = (r, w') /\
    _db w' = Some c' /\
    tx_saved c' = None /\
    days (content c') = days (content c) /\
    tables (content c') = tables (content c) /\
    sales (content c') =
      assign
        (map sale_id
           (Select.order_by_seq
              (filter (Select.of_day dayId)
                 (filter (fun x => negb (sale_id x =? saleId)) (sales (content c))))))
        0
        (filter (fun x => negb (sale_id x =? saleId)) (sales (content c))).
Proof.
  intros H I T.
  set (keep := fun x : sale => negb (sale_id x =? saleId)).
  set (s1 := filter keep (sales (content c))).
  set (c1 := mkConnection (set_sales (content c) s1) (Some (content c))
               (foreign_keys c) (last_insert_rowid c)
               (count_if (fun x => sale_id x =? saleId) (sales (content c)))).
  assert (D : Sql.run (DeleteSale saleId) (begun c) = inr c1).
  { unfold Sql.run. cbn [exec_stmt begun content foreign_keys].
    rewrite has_table_need_stmt by exact T. reflexivity. }
  set (ids := map sale_id (Select.sales_of_day (content c1) dayId)).
  assert (Q : Select.exec (Select.SaleIds dayId) c1 = inr (ids, c1)).
  { cbn [Select.exec]. rewrite has_table_need by exact T. reflexivity. }
  destruct (forEach_assign ids 0 (set_db (Some c1) w) c1 eq_refl T)
    as (c2 & F & C2 & X2).
  assert (B : (fun tx : stmt -> M DB.run_result =>
                 tx (DeleteSale saleId) ;;
                 rows <- DB.query (Select.SaleIds dayId) ;;
                 DBSales.forEach rows (fun id i => tx (UpdateSaleSeq (i + 1) id) ;; ret tt) 0)
                DB._runInTx (set_db (Some (begun c)) w)
              = (inr tt, set_db (Some c2) w)).
  { cbv beta.
    rewrite (bind_ok _ _ _ _ _
               (runInTx_ok _ (set_db (Some (begun c)) w) (begun c) c1 eq_refl D)).
    rewrite (bind_ok _ _ _ _ _
               (query_reads _ (set_db (Some c1) (set_db (Some (begun c)) w)) c1 ids
                  eq_refl Q)).
    exact F. }
  pose proof (transaction_commits _ w c c2 H I B X2) as E.
  cbv zeta in E. unfold DBSales.deleteSale.
  assert (Y : days (content (committed c2)) = days (content c) /\
              tables (content (committed c2)) = tables (content c) /\
              sales (content (committed c2)) = assign ids 0 s1).
  { cbn [committed content]. rewrite C2. repeat split. }
  destruct Y as (Yd & Yt & Ys).
  destruct (idb_faults w) as [| [|] later];
    (eexists _, _, (committed c2); split; [exact E |];
     split; [reflexivity |]; split; [reflexivity |];
     split; [exact Yd |]; split; [exact Yt | exact Ys]).
Qed.

Lemma map_fixed (g : sale -> sale) (l : list sale) :
  l = map g l -> forall y, In y l -> g y = y.
Proof.
  induction l as [| z l IH]; intros E y Iy; [contradiction |].
  cbn [map] in E. injection E as Ez El.
  destruct Iy as [<- | Iy]; [symmetry; exact Ez |].
  apply IH; assumption.
Qed.

Lemma numbered_other_day ids l day' x :
  NoDup (map sale_id l) ->
  (forall id, In id ids -> exists y, In y l /\ sale_id y = id /\ sale_day_id y <> day') ->
  In x l -> sale_day_id x = day' ->
  numbered ids 0 x = x.
Proof.
  intros N Hids Ix Dx. unfold numbered.
  destruct (position (sale_id x) ids) as [k |] eqn:P; [| reflexivity].
  exfalso. apply position_some_in in P.
  destruct (Hids _ P) as (y & Iy & Ey & Dy).
  assert (E : y = x) by (apply (distinct_ids_same l); auto).
  subst y. contradiction.
Qed.

(** X12. [deleteSale] resequences only the Day it is given.  The sales of
    every other Day are those before, without the deleted one, with the
    sequence numbers they had: a Sale deleted under the id of a Day that is
    not its own leaves a gap in its own Day. *)
Theorem deleteSale_other_days (saleId dayId : Z) (w : world) (c : connection)
  (Hdb : _db w = Some c) (Hidle : tx_saved c = None)
  (Htable : has_table (content c) "sales" = true)
  (Hids : NoDup (map sale_id (sales (content c)))) :
  exists r w' c',
    DBSales.deleteSale saleId dayId w = (r, w') /\
    _db w' = Some c' /\
    days (content c') = days (content c) /\
    forall day', day' <> dayId ->
      Select.sales_of_day (content c') day' =
        filter (fun x => negb (sale_id x =? saleId))
          (Select.sales_of_day (content c) day').
Proof.
  destruct (deleteSale_table saleId dayId w c Hdb Hidle Htable)
    as (r & w' & c' & E & H' & _ & D & _ & S).
  exists r, w', c'. split; [exact E |]. split; [exact H' |]. split; [exact D |].
  intros day' Nd.
  set (keep := fun x : sale => negb (sale_id x =? saleId)) in *.
  set (s1 := filter keep (sales (content c))) in *.
  set (t := Select.order_by_seq (filter (Select.of_day dayId) s1)) in *.
  assert (N1 : NoDup (map sale_id s1)) by (apply kept_ids_distinct; exact Hids).
  assert (P : Permutation t (filter (Select.of_day dayId) s1))
    by apply (sort_perm sale sale_seq).
  assert (Nt : NoDup (map sale_id t)).
  { apply (Permutation_NoDup (Permutation_map sale_id (Permutation_sym P))).
    apply kept_ids_distinct. exact N1. }
  unfold Select.sales_of_day. rewrite S.
  rewrite (assign_numbered _ 0 s1 Nt).
  rewrite filter_map_same.
  2:{ intros x. unfold numbered, Select.of_day.
      destruct (position (sale_id x) (map sale_id t)); reflexivity. }
  assert (Id : map (numbered (map sale_id t) 0) (filter (Select.of_day day') s1)
               = filter (Select.of_day day') s1).
  { rewrite <- (map_id (filter (Select.of_day day') s1)) at 2.
    apply map_ext_in. intros x Ix. apply filter_In in Ix. destruct Ix as [Ix Dx].
    apply (numbered_other_day (map sale_id t) s1 day'); auto.
    - intros id Iid. apply in_map_iff in Iid. destruct Iid as (y & Ey & Iy).
      apply (Permutation_in y P) in Iy. apply filter_In in Iy.
      destruct Iy as [Iy Dy]. exists y. repeat split; auto.
      unfold Select.of_day in Dy. apply Z.eqb_eq in Dy. lia.
    - unfold Select.of_day in Dx. apply Z.eqb_eq in Dx. exact Dx. }
  rewrite Id. unfold s1. rewrite filter_comm.
  unfold Select.order_by_seq. symmetry. apply (filter_sort sale sale_seq).
Qed.

Lemma two_days_ids : NoDup (map sale_id (sales two_days)).
Proof.
  repeat constructor; cbn; intros H;
    repeat (destruct H as [H | H]; [discriminate H |]); exact H.
Qed.

Lemma deleteSale_other_days_witness :
  exists r w' c',
    DBSales.deleteSale 2 2 two_days_world = (r, w') /\
    _db w' = Some c' /\
    map sale_seq (Select.sales_of_day (content c') 1) = [1; 3].
Proof.
  destruct (deleteSale_other_days 2 2 two_days_world _ eq_refl eq_refl eq_refl
              two_days_ids)
    as (r & w' & c' & E & H & _ & O).
  exists r, w', c'. split; [exact E |]. split; [exact H |].
  rewrite (O 1); [reflexivity | discriminate].
Defined.

(** X13. [deleteSale] with an id that no Sale has: the sales of a dense Day
    are exactly those before, and so are the sales of the other Days. *)
Theorem deleteSale_unknown_id (saleId dayId : Z) (w : world) (c : connection)
  (Hdb : _db w = Some c) (Hidle : tx_saved c = None)
  (Htable : has_table (content c) "sales" = true)
  (Hids : NoDup (map sale_id (sales (content c))))
  (Hdense : dense (content c) dayId)
  (Hunknown : ~ In saleId (map sale_id (sales (content c)))) :
  exists r w' c',
    DBSales.deleteSale saleId dayId w = (r, w') /\
    _db w' = Some c' /\
    forall day,
      Select.sales_of_day (content c') day = Select.sales_of_day (content c) day.
Proof.
  destruct (deleteSale_table saleId dayId w c Hdb Hidle Htable)
    as (r & w' & c' & E & H' & _ & _ & _ & S).
  exists r, w', c'. split; [exact E |]. split; [exact H' |].
  assert (K : filter (fun x => negb (sale_id x =? saleId)) (sales (content c))
              = sales (content c)).
  { apply filter_all. intros x Ix. apply negb_true_iff. apply Z.eqb_neq.
    intros Ex. apply Hunknown. rewrite <- Ex. apply in_map. exact Ix. }
  rewrite K in S.
  assert (T : sales (content c') = sales (content c)).
  { rewrite S.
    pose proof (sort_perm sale sale_seq
                  (filter (Select.of_day dayId) (sales (content c)))) as P.
    assert (Nt : NoDup (map sale_id
                          (Select.order_by_seq
                             (filter (Select.of_day dayId) (sales (content c)))))).
    { apply (Permutation_NoDup (Permutation_map sale_id (Permutation_sym P))).
      apply kept_ids_distinct. exact Hids. }
    rewrite (assign_numbered _ 0 _ Nt).
    transitivity (map (fun x : sale => x) (sales (content c)));
      [| apply map_id].
    apply map_ext_in. intros x Ix.
    destruct (Z.eq_dec (sale_day_id x) dayId) as [Dx | Dx].
    - (* a row of the Day: it gets the number it has *)
      assert (Ixt : In x (Select.order_by_seq
                            (filter (Select.of_day dayId) (sales (content c))))).
      { apply (Permutation_in x (Permutation_sym P)). apply filter_In.
        split; [exact Ix |]. unfold Select.of_day. apply Z.eqb_eq. exact Dx. }
      pose proof (renumber_numbered _ 0 Nt) as Rn.
      pose proof (renumber_numbered_already
                    (Select.sales_of_day (content c) dayId) 0 Hdense) as Ra.
      unfold Select.sales_of_day in Ra. rewrite Ra in Rn.
      apply (map_fixed _ _ Rn). exact Ixt.
    - apply (numbered_other_day _ (sales (content c)) (sale_day_id x)); auto.
      intros id Iid. apply in_map_iff in Iid. destruct Iid as (y & Ey & Iy).
      apply (Permutation_in y P) in Iy. apply filter_In in Iy.
      destruct Iy as [Iy Dy]. exists y. repeat split; auto.
      unfold Select.of_day in Dy. apply Z.eqb_eq in Dy. lia. }
  intros day. unfold Select.sales_of_day. rewrite T. reflexivity.
Qed.

Lemma deleteSale_unknown_id_witness :
  exists r w' c',
    DBSales.deleteSale 99 1 two_days_world = (r, w') /\
    _db w' = Some c' /\
    map sale_id (Select.sales_of_day (content c') 1) = [1; 2; 3].
Proof.
  assert (U : ~ In 99 (map sale_id (sales two_days))).
  { cbn. intros H.
    repeat (destruct H as [H | H]; [discriminate H |]). exact H. }
  destruct (deleteSale_unknown_id 99 1 two_days_world _ eq_refl eq_refl eq_refl
              two_days_ids eq_refl U)
    as (r & w' & c' & E & H & O).
  exists r, w', c'. split; [exact E |]. split; [exact H |].
  rewrite (O 1). reflexivity.
Defined.

(** What [DB.run] returns, when it returns, is read from the connection
    after the statement. *)
Lemma run_result s w c c' r w' :
  _db w = Some c -> Sql.run s c = inr c' -> DB.run s w = (inr r, w') ->
  r = DB.mkResult (rows_modified c') (last_insert_rowid c').
Proof.
  intros H U E. rewrite (run_statement_ok s w c c' H U) in E.
  unfold bind in E.
  destruct (DB.persist _) as [[e | []] w2]; [discriminate |].
  unfold ret in E. injection E as <- _. reflexivity.
Qed.

(** The table after the renumbering of a Day whose sales are numbered from 1
    already is the table before. *)
Lemma assign_dense_same day (l : list sale) :
  NoDup (map sale_id l) ->
  map sale_seq (Select.order_by_seq (filter (Select.of_day day) l)) =
    count_from 0 (List.length (Select.order_by_seq (filter (Select.of_day day) l))) ->
  assign (map sale_id (Select.order_by_seq (filter (Select.of_day day) l))) 0 l = l.
Proof.
  intros N D.
  pose proof (sort_perm sale sale_seq (filter (Select.of_day day) l)) as P.
  assert (Nt : NoDup (map sale_id
                        (Select.order_by_seq (filter (Select.of_day day) l)))).
  { apply (Permutation_NoDup (Permutation_map sale_id (Permutation_sym P))).
    apply kept_ids_distinct. exact N. }
  rewrite (assign_numbered _ 0 _ Nt).
  transitivity (map (fun x : sale => x) l); [| apply map_id].
  apply map_ext_in. intros x Ix.
  destruct (Z.eq_dec (sale_day_id x) day) as [Dx | Dx].
  - assert (Ixt : In x (Select.order_by_seq (filter (Select.of_day day) l))).
    { apply (Permutation_in x (Permutation_sym P)). apply filter_In.
      split; [exact Ix |]. unfold Select.of_day. apply Z.eqb_eq. exact Dx. }
    pose proof (renumber_numbered _ 0 Nt) as Rn.
    rewrite (renumber_numbered_already _ 0 D) in Rn.
    apply (map_fixed _ _ Rn). exact Ixt.
  - apply (numbered_other_day _ l (sale_day_id x)); auto.
    intros id Iid. apply in_map_iff in Iid. destruct Iid as (y & Ey & Iy).
    apply (Permutation_in y P) in Iy. apply filter_In in Iy.
    destruct Iy as [Iy Dy]. exists y. repeat split; auto.
    unfold Select.of_day in Dy. apply Z.eqb_eq in Dy. lia.
Qed.

(** [addSale] with the connection it leaves. *)
Lemma addSale_connection dayId kg price comments w c :
  _db w = Some c ->
  has_table (content c) "sales" = true ->
  (foreign_keys c = true ->
   existsb (fun x => day_id x =? dayId) (days (content c)) = true) ->
  exists r w',
    DBSales.addSale dayId kg price comments w = (r, w') /\
    _db w' =
      Some (mkConnection
              (set_sales (content c)
                 (sales (content c) ++
                  [mkSale (next_rowid (map sale_id (sales (content c)))) dayId
                     (if next_seq (content c) dayId =? 0 then 1
                      else next_seq (content c) dayId)
                     kg price comments]))
              (tx_saved c) (foreign_keys c)
              (next_rowid (map sale_id (sales (content c)))) 1) /\
    forall v, r = inr v ->
      v = (next_rowid (map sale_id (sales (content c))),
           if next_seq (content c) dayId =? 0 then 1 else next_seq (content c) dayId).
Proof.
  intros H T F. unfold DBSales.addSale.
  assert (Q : Select.exec (Select.NextSeq dayId) c = inr ([next_seq (content c) dayId], c)).
  { cbn [Select.exec]. rewrite has_table_need by exact T. reflexivity. }
  rewrite (bind_ok _ _ _ _ _ (query_reads _ w c _ H Q)).
  cbn [DBSales.first hd_error]. cbv zeta.
  pose proof (insert_sale_run c dayId
                (if next_seq (content c) dayId =? 0 then 1
                 else next_seq (content c) dayId) kg price comments T F) as U.
  destruct (run_leaves _ w c _ H U) as (r & w' & E & H' & _).
  destruct r as [e | res].
  - rewrite (bind_fail _ _ _ _ _ E).
    eexists _, w'. split; [reflexivity |]. split; [exact H' |].
    intros v Ev. discriminate.
  - rewrite (bind_ok _ _ _ _ _ E).
    eexists _, w'. split; [reflexivity |]. split; [exact H' |].
    intros v Ev. unfold ret in Ev. injection Ev as <-.
    rewrite (run_result _ w c _ res w' H U E). reflexivity.
Qed.

(** X14. A Sale added to a dense Day and then deleted by the id [addSale]
    returned: the sales table is the one before the two calls, every row
    with the sequence number it had, and the Days are untouched. *)
Theorem addSale_then_deleteSale (dayId : Z) (kg price : Q) (comments : string)
  (w w1 : world) (c : connection) (id seq : Z)
  (Hdb : _db w = Some c) (Hidle : tx_saved c = None)
  (Htable : has_table (content c) "sales" = true)
  (Hday : foreign_keys c = true ->
          existsb (fun x => day_id x =? dayId) (days (content c)) = true)
  (Hids : NoDup (map sale_id (sales (content c))))
  (Hdense : dense (content c) dayId)
  (Hadd : DBSales.addSale dayId kg price comments w = (inr (id, seq), w1)) :
  seq = Z.of_nat (List.length (Select.sales_of_day (content c) dayId)) + 1 /\
  exists r w2 c2,
    DBSales.deleteSale id dayId w1 = (r, w2) /\
    _db w2 = Some c2 /\
    sales (content c2) = sales (content c) /\
    days (content c2) = days (content c).
Proof.
  destruct (addSale_connection dayId kg price comments w c Hdb Htable Hday)
    as (r & w' & E & H1 & V).
  rewrite Hadd in E. injection E as <- <-.
  specialize (V _ eq_refl). injection V as -> ->.
  assert (Sq : (if next_seq (content c) dayId =? 0 then 1
                else next_seq (content c) dayId)
               = Z.of_nat (List.length (Select.sales_of_day (content c) dayId)) + 1).
  { rewrite (dense_next _ _ Hdense).
    destruct (Z.eqb_spec
                (Z.of_nat (List.length (Select.sales_of_day (content c) dayId)) + 1) 0);
      [lia | reflexivity]. }
  split; [exact Sq |].
  match type of H1 with _ = Some ?k => set (c1 := k) in * end.
  destruct (deleteSale_table (next_rowid (map sale_id (sales (content c)))) dayId
              w1 c1 H1 Hidle Htable)
    as (r & w2 & c2 & E & H2 & _ & D & _ & S).
  exists r, w2, c2. split; [exact E |]. split; [exact H2 |].
  split; [| exact D].
  assert (K : filter
                (fun x => negb (sale_id x =? next_rowid (map sale_id (sales (content c)))))
                (sales (content c1)) = sales (content c)).
  { unfold c1. cbn [content set_sales sales]. rewrite filter_app.
    cbn [filter sale_id]. rewrite Z.eqb_refl. cbn [negb]. rewrite app_nil_r.
    apply filter_all. intros x Ix. apply negb_true_iff. apply Z.eqb_neq.
    intros Ex. apply (next_rowid_fresh (map sale_id (sales (content c)))).
    rewrite <- Ex. apply in_map. exact Ix. }
  rewrite K in S. rewrite S.
  apply assign_dense_same; [exact Hids | exact Hdense].
Qed.

Lemma addSale_then_deleteSale_witness :
  exists r w2 c2,
    DBSales.addSale 1 (7 # 1) (8750 # 1) "e" two_days_world
      = (inr (5, 4), snd sale_added) /\
    DBSales.deleteSale 5 1 (snd sale_added) = (r, w2) /\
    _db w2 = Some c2 /\
    sales (content c2) = sales two_days.
Proof.
  assert (A : DBSales.addSale 1 (7 # 1) (8750 # 1) "e" two_days_world
              = (inr (5, 4), snd sale_added))
    by (vm_compute; reflexivity).
  destruct (addSale_then_deleteSale 1 (7 # 1) (8750 # 1) "e" two_days_world _ _ _ _
              eq_refl eq_refl eq_refl (fun _ => eq_refl) two_days_ids eq_refl A)
    as (_ & r & w2 & c2 & E & H & S & _).
  exists r, w2, c2. split; [exact A |].
  split; [exact E |]. split; [exact H | exact S].
Defined.

(** ** What the importer adds *)

Lemma appended_refl d : appended d d [] [].
Proof.
  unfold appended. rewrite !app_nil_r. repeat split. intros x [].
Qed.

Lemma appended_trans d1 d2 d3 nd ns nd' ns' :
  appended d1 d2 nd ns -> appended d2 d3 nd' ns' ->
  appended d1 d3 (nd ++ nd') (ns ++ ns').
Proof.
  intros (D & S & I) (D' & S' & I'). unfold appended.
  rewrite D', D, S', S, !app_assoc. repeat split.
  rewrite !map_app. intros x Ix. apply in_app_iff in Ix. apply in_app_iff.
  destruct Ix as [Ix | Ix]; [left; apply I | right; apply I']; exact Ix.
Qed.

Lemma next_rowid_positive ids :
  (forall x, In x ids -> 0 < x) -> 0 < next_rowid ids.
Proof.
  destruct ids as [| i r]; intros P; [cbn; lia |].
  pose proof (next_rowid_above (i :: r) i (or_introl eq_refl)).
  specialize (P i (or_introl eq_refl)). lia.
Qed.

Lemma positive_next_day d :
  positive_day_ids d -> 0 < next_rowid (map day_id (days d)).
Proof.
  intros P. apply next_rowid_positive. intros x Ix.
  apply in_map_iff in Ix. destruct Ix as (y & <- & Iy). apply P. exact Iy.
Qed.

Lemma positive_appended d d' nd ns :
  appended d d' nd ns -> positive_day_ids d ->
  (forall x, In x nd -> 0 < day_id x) -> positive_day_ids d'.
Proof.
  intros (D & _) P N x Ix. rewrite D in Ix. apply in_app_iff in Ix.
  destruct Ix as [Ix | Ix]; [apply P | apply N]; exact Ix.
Qed.

Lemma constant_days_incl (A : Type) (l : list A) rows id date os up :
  map sale_day_id rows = map (fun _ => id) l ->
  incl (map sale_day_id rows) (map day_id [mkDay id date os up]).
Proof.
  intros E x Ix. rewrite E in Ix. apply in_map_iff in Ix.
  destruct Ix as (y & <- & _). left. reflexivity.
Qed.

(** One daily key: what it adds is what it counts. *)
Lemma migrate_daily_counts store n key w c :
  ready w c -> positive_day_ids (content c) ->
  exists n' w' c' nd ns,
    Migrate.migrate_daily store n key w = (inr n', w') /\
    ready w' c' /\ positive_day_ids (content c') /\
    appended (content c) (content c') nd ns /\
    Migrate.migratedDays n' = Migrate.migratedDays n + Z.of_nat (List.length nd) /\
    Migrate.migratedSales n' = Migrate.migratedSales n + Z.of_nat (List.length ns).
Proof.
  intros R Pos. destruct (ready_tables w c R) as (Td & Ts & _).
  assert (H : _db w = Some c) by apply R.
  assert (Same : forall n', Migrate.migratedDays n' = Migrate.migratedDays n ->
                   Migrate.migratedSales n' = Migrate.migratedSales n ->
                   exists n'' w' c' nd ns,
                     ret n' w = (inr n'', w') /\
                     ready w' c' /\ positive_day_ids (content c') /\
                     appended (content c) (content c') nd ns /\
                     Migrate.migratedDays n'' =
                       Migrate.migratedDays n + Z.of_nat (List.length nd) /\
                     Migrate.migratedSales n'' =
                       Migrate.migratedSales n + Z.of_nat (List.length ns)).
  { intros n' Ed Es. exists n', w, c, [], [].
    split; [reflexivity |]. split; [exact R |]. split; [exact Pos |].
    split; [apply appended_refl |]. cbn [List.length]. lia. }
  unfold Migrate.migrate_daily. cbv zeta.
  rewrite (bind_ok _ _ _ _ _ (getDay_reads _ w c H Td)).
  destruct (filter (date_is (JsString.replace key "dailySales_" "")) (days (content c)))
    as [| x l] eqn:F; cbn [DBSales.first hd_error].
  2:{ apply Same; reflexivity. }
  destruct (Migrate.getItem store key) as [[csv | chunk | m |] |];
    try (apply Same; reflexivity).
  destruct (JsString.truthy csv); cbn [negb]; [| apply Same; reflexivity].
  destruct (Migrate._parseCSV csv) as [p |]; [| apply Same; reflexivity].
  destruct (Migrate.sales p) as [| s0 ss] eqn:Sp; [apply Same; reflexivity |].
  clear Same.
  pose proof (insert_day_or_ignore_run c (JsString.replace key "dailySales_" "")
                (Migrate.openingStock p) (Migrate.unitPrice p) Td
                (filter_nil_existsb _ _ F)) as U.
  destruct (run_ready _ w c _ R U) as [E R1].
  rewrite (bind_ok _ _ _ _ _ E). cbv beta.
  cbn [DB.lastInsertRowid last_insert_rowid].
  pose proof (positive_next_day _ Pos) as Np.
  destruct (Z.eqb_spec (next_rowid (map day_id (days (content c)))) 0) as [Z0 | _];
    [lia |].
  edestruct (insert_parsed_sales_ready
               (next_rowid (map day_id (days (content c)))) (s0 :: ss) n _ _ R1)
    as (w' & c' & rows & E' & R' & D' & S' & _ & Dy).
  { cbn [content days set_days]. apply new_day_exists. }
  rewrite (bind_ok _ _ _ _ _ E').
  cbn [content days sales set_days] in D', S'.
  assert (A : appended (content c) (content c')
                [mkDay (next_rowid (map day_id (days (content c))))
                   (JsString.replace key "dailySales_" "")
                   (Migrate.openingStock p) (Migrate.unitPrice p)] rows).
  { split; [exact D' |]. split; [exact S' |].
    apply (constant_days_incl _ (s0 :: ss)). exact Dy. }
  eexists _, w', c', _, rows. split; [reflexivity |]. split; [exact R' |].
  split.
  { apply (positive_appended _ _ _ _ A Pos).
    intros x [<- | []]. exact Np. }
  split; [exact A |].
  cbn [Migrate.migratedDays Migrate.migratedSales].
  apply (f_equal (@List.length Z)) in Dy. rewrite !length_map in Dy.
  rewrite Dy. cbn [List.length]. lia.
Qed.

(** Today's live chunks: what they add is what is counted. *)
Lemma migrate_chunks_counts store chunkKeys n w c :
  ready w c -> positive_day_ids (content c) ->
  exists n' w' c' nd ns,
    Migrate.migrate_chunks store chunkKeys n w = (inr n', w') /\
    ready w' c' /\ positive_day_ids (content c') /\
    appended (content c) (content c') nd ns /\
    Migrate.migratedDays n' = Migrate.migratedDays n + Z.of_nat (List.length nd) /\
    Migrate.migratedSales n' = Migrate.migratedSales n + Z.of_nat (List.length ns) /\
    Migrate.skippedDays n' = Migrate.skippedDays n.
Proof.
  intros R Pos. destruct (ready_tables w c R) as (Td & Ts & _).
  assert (Same : exists n'' w' c' nd ns,
                   ret n w = (inr n'', w') /\
                   ready w' c' /\ positive_day_ids (content c') /\
                   appended (content c) (content c') nd ns /\
                   Migrate.migratedDays n'' =
                     Migrate.migratedDays n + Z.of_nat (List.length nd) /\
                   Migrate.migratedSales n'' =
                     Migrate.migratedSales n + Z.of_nat (List.length ns) /\
                   Migrate.skippedDays n'' = Migrate.skippedDays n).
  { exists n, w, c, [], [].
    split; [reflexivity |]. split; [exact R |]. split; [exact Pos |].
    split; [apply appended_refl |]. cbn [List.length]. lia. }
  unfold Migrate.migrate_chunks. cbv zeta.
  unfold DB.today at 1. unfold bind at 1. unfold bind at 1. unfold get, ret.
  rewrite (bind_ok _ _ _ _ _ (getDay_ready _ w c R)).
  destruct (filter (date_is (clock w)) (days (content c))) as [| x l] eqn:F;
    cbn [DBSales.first hd_error].
  2:{ exact Same. }
  match goal with
  | |- context [match ?v with [] => _ | _ :: _ => _ end] =>
      destruct v as [| s0 ss] eqn:V
  end.
  { exact Same. }
  clear Same.
  match goal with
  | |- context [DB.run (InsertDayOrIgnore ?d ?o ?u)] =>
      pose proof (insert_day_or_ignore_run c d o u Td (filter_nil_existsb _ _ F)) as U
  end.
  destruct (run_ready _ w c _ R U) as [E R1].
  rewrite (bind_ok _ _ _ _ _ E). cbv beta.
  cbn [DB.lastInsertRowid last_insert_rowid].
  pose proof (positive_next_day _ Pos) as Np.
  destruct (Z.eqb_spec (next_rowid (map day_id (days (content c)))) 0) as [Z0 | _];
    [lia |].
  match goal with
  | |- context [Migrate.insert_chunk_sales ?d ?u ?l ?i ?m] =>
      edestruct (insert_chunk_sales_ready d u l i m _ _ R1)
        as (w' & c' & rows & E' & R' & D' & S' & _ & Dy)
  end.
  { cbn [content days set_days]. apply new_day_exists. }
  rewrite (bind_ok _ _ _ _ _ E').
  cbn [content days sales set_days] in D', S'.
  match type of D' with
  | _ = (_ ++ ?new)%list =>
      assert (A : appended (content c) (content c') new rows)
  end.
  { split; [exact D' |]. split; [exact S' |].
    apply (constant_days_incl _ (s0 :: ss)). exact Dy. }
  eexists _, w', c', _, rows. split; [reflexivity |]. split; [exact R' |].
  split.
  { apply (positive_appended _ _ _ _ A Pos).
    intros x [<- | []]. exact Np. }
  split; [exact A |].
  cbn [Migrate.migratedDays Migrate.migratedSales Migrate.skippedDays].
  apply (f_equal (@List.length Z)) in Dy. rewrite !length_map in Dy.
  rewrite Dy. cbn [List.length]. lia.
Qed.

Lemma for_of_daily_counts store : forall keys n w c,
  ready w c -> positive_day_ids (content c) ->
  exists n' w' c' nd ns,
    for_of keys (Migrate.migrate_daily store) n w = (inr n', w') /\
    ready w' c' /\ positive_day_ids (content c') /\
    appended (content c) (content c') nd ns /\
    Migrate.migratedDays n' = Migrate.migratedDays n + Z.of_nat (List.length nd) /\
    Migrate.migratedSales n' = Migrate.migratedSales n + Z.of_nat (List.length ns).
Proof.
  induction keys as [| key keys IH]; intros n w c R Pos.
  - exists n, w, c, [], []. split; [reflexivity |]. split; [exact R |].
    split; [exact Pos |]. split; [apply appended_refl |]. cbn [List.length]. lia.
  - destruct (migrate_daily_counts store n key w c R Pos)
      as (n1 & w1 & c1 & nd1 & ns1 & E1 & R1 & P1 & A1 & Cd1 & Cs1).
    destruct (IH n1 w1 c1 R1 P1)
      as (n2 & w2 & c2 & nd2 & ns2 & E2 & R2 & P2 & A2 & Cd2 & Cs2).
    exists n2, w2, c2, (nd1 ++ nd2)%list, (ns1 ++ ns2)%list.
    split; [cbn [for_of]; rewrite (bind_ok _ _ _ _ _ E1); exact E2 |].
    split; [exact R2 |]. split; [exact P2 |].
    split; [exact (appended_trans _ _ _ _ _ _ _ A1 A2) |].
    rewrite !length_app. lia.
Qed.

Lemma upsert_setting_rows c key value :
  has_table (content c) "settings" = true ->
  exists c', Sql.run (UpsertSetting key value) c = inr c' /\
             days (content c') = days (content c) /\
             sales (content c') = sales (content c).
Proof.
  intros T. unfold Sql.run. cbn [exec_stmt].
  rewrite has_table_need_stmt by exact T.
  destruct (existsb (fun kv => String.eqb (fst kv) key) (settings (content c)));
    eexists; (split; [reflexivity | split; reflexivity]).
Qed.

Lemma saveSetting_rows key value w c :
  ready w c ->
  exists w' c', DBSales.saveSetting key value w = (inr tt, w') /\ ready w' c' /\
                days (content c') = days (content c) /\
                sales (content c') = sales (content c).
Proof.
  intros R. destruct (ready_tables w c R) as (_ & _ & T).
  destruct (upsert_setting_rows c key value T) as (c' & U & D & S).
  destruct (run_ready _ w c c' R U) as [E R'].
  exists (written c' w), c'. split.
  - unfold DBSales.saveSetting. rewrite (bind_ok _ _ _ _ _ E). reflexivity.
  - split; [exact R' |]. split; [exact D | exact S].
Qed.

Lemma appended_rows d d' d'' nd ns :
  appended d d' nd ns -> days d'' = days d' -> sales d'' = sales d' ->
  appended d d'' nd ns.
Proof.
  intros (D & S & I) Ed Es. unfold appended. rewrite Ed, Es. auto.
Qed.

Lemma insert_in {A} (le : A -> A -> bool) (x y : A) (l : list A) :
  In y (x :: l) -> In y (Stable.insert le x l).
Proof.
  induction l as [| z l IH]; intros I; cbn [Stable.insert]; [exact I |].
  destruct (le x z); [exact I |].
  destruct I as [<- | [<- | I]].
  - right. apply IH. left. reflexivity.
  - left. reflexivity.
  - right. apply IH. right. exact I.
Qed.

Lemma stable_sort_in {A} (le : A -> A -> bool) (y : A) (l : list A) :
  In y l -> In y (Stable.sort le l).
Proof.
  induction l as [| x l IH]; intros I; [contradiction |].
  cbn [Stable.sort fold_right]. apply insert_in.
  destruct I as [<- | I]; [left; reflexivity | right; apply IH; exact I].
Qed.

Lemma has_date_appended d d' nd ns date :
  appended d d' nd ns ->
  existsb (date_is date) (days d) = true ->
  existsb (date_is date) (days d') = true.
Proof.
  intros (D & _) E. rewrite D, existsb_app, E. reflexivity.
Qed.

(** One daily key that can be read: its date has a Day afterwards. *)
Lemma migrate_daily_covers store n key w c n' w' c' :
  ready w c -> importable store key = true ->
  Migrate.migrate_daily store n key w = (inr n', w') -> _db w' = Some c' ->
  existsb (date_is (JsString.replace key "dailySales_" "")) (days (content c')) = true.
Proof.
  intros R Imp. destruct (ready_tables w c R) as (Td & Ts & _).
  assert (H : _db w = Some c) by apply R.
  unfold Migrate.migrate_daily. cbv zeta.
  rewrite (bind_ok _ _ _ _ _ (getDay_reads _ w c H Td)).
  destruct (filter (date_is (JsString.replace key "dailySales_" "")) (days (content c)))
    as [| x l] eqn:F; cbn [DBSales.first hd_error].
  2:{ unfold ret. intros E H'. injection E as _ <-.
      rewrite H in H'. injection H' as <-.
      assert (Ix : In x (filter (date_is (JsString.replace key "dailySales_" ""))
                           (days (content c)))) by (rewrite F; left; reflexivity).
      apply filter_In in Ix. apply existsb_exists. exists x. exact Ix. }
  unfold importable in Imp.
  destruct (Migrate.getItem store key) as [[csv | chunk | m |] |];
    try discriminate Imp.
  destruct (JsString.truthy csv); [| discriminate Imp]. cbn [negb andb] in *.
  destruct (Migrate._parseCSV csv) as [p |]; [| discriminate Imp].
  destruct (Migrate.sales p) as [| s0 ss] eqn:Sp; [discriminate Imp |].
  pose proof (insert_day_or_ignore_run c (JsString.replace key "dailySales_" "")
                (Migrate.openingStock p) (Migrate.unitPrice p) Td
                (filter_nil_existsb _ _ F)) as U.
  destruct (run_ready _ w c _ R U) as [E R1].
  rewrite (bind_ok _ _ _ _ _ E). cbv beta.
  cbn [DB.lastInsertRowid last_insert_rowid].
  assert (New : forall d,
            days d = (days (content c) ++
                      [mkDay (next_rowid (map day_id (days (content c))))
                         (JsString.replace key "dailySales_" "")
                         (Migrate.openingStock p) (Migrate.unitPrice p)])%list ->
            existsb (date_is (JsString.replace key "dailySales_" "")) (days d) = true).
  { intros d Ed. rewrite Ed, existsb_app. cbn [existsb]. unfold date_is at 2.
    cbn [day_date]. rewrite String.eqb_refl, orb_true_r. reflexivity. }
  destruct (next_rowid (map day_id (days (content c))) =? 0).
  - unfold ret. intros E0 H'. injection E0 as _ <-.
    cbn [written _db] in H'. injection H' as <-. apply New. reflexivity.
  - edestruct (insert_parsed_sales_ready
                 (next_rowid (map day_id (days (content c)))) (s0 :: ss) n _ _ R1)
      as (w2 & c2 & rows & E' & R' & D' & _).
    { cbn [content days set_days]. apply new_day_exists. }
    rewrite (bind_ok _ _ _ _ _ E'). unfold ret. intros E0 H'. injection E0 as _ <-.
    rewrite (proj1 R') in H'. injection H' as <-.
    apply New. exact D'.
Qed.

Lemma for_of_daily_covers store key : forall keys n w c n' w' c',
  ready w c -> positive_day_ids (content c) ->
  In key keys -> importable store key = true ->
  for_of keys (Migrate.migrate_daily store) n w = (inr n', w') -> _db w' = Some c' ->
  existsb (date_is (JsString.replace key "dailySales_" "")) (days (content c')) = true.
Proof.
  induction keys as [| k keys IH]; intros n w c n' w' c' R Pos I Imp E H';
    [contradiction |].
  destruct (migrate_daily_counts store n k w c R Pos)
    as (n1 & w1 & c1 & nd1 & ns1 & E1 & R1 & P1 & A1 & _).
  cbn [for_of] in E. rewrite (bind_ok _ _ _ _ _ E1) in E.
  destruct I as [-> | I].
  - pose proof (migrate_daily_covers store n key w c n1 w1 c1 R Imp E1 (proj1 R1)) as C1.
    destruct (for_of_daily_counts store keys n1 w1 c1 R1 P1)
      as (n2 & w2 & c2 & nd2 & ns2 & E2 & R2 & _ & A2 & _).
    rewrite E2 in E. injection E as _ <-.
    rewrite (proj1 R2) in H'. injection H' as <-.
    exact (has_date_appended _ _ _ _ _ A2 C1).
  - exact (IH n1 w1 c1 n' w' c' R1 P1 I Imp E H').
Qed.

Lemma run_counts w c :
  ready w c -> positive_day_ids (content c) ->
  exists r w' c' nd ns,
    Migrate.run w = (inr r, w') /\ ready w' c' /\
    appended (content c) (content c') nd ns /\
    match r with
    | Migrate.Summary m s _ =>
        m = Z.of_nat (List.length nd) /\ s = Z.of_nat (List.length ns)
    | _ => nd = [] /\ ns = []
    end /\
    (r <> Migrate.AlreadyDone ->
     forall store key,
       legacy w = Some store -> In key (Migrate.keys store) ->
       JsString.startsWith key "dailySales_" = true ->
       importable store key = true ->
       existsb (date_is (JsString.replace key "dailySales_" ""))
         (days (content c')) = true).
Proof.
  intros R Pos. destruct (isDone_ready w c R) as (b & D).
  unfold Migrate.run. rewrite (bind_ok _ _ _ _ _ D).
  destruct b.
  { exists Migrate.AlreadyDone, w, c, [], []. split; [reflexivity |].
    split; [exact R |]. split; [apply appended_refl |].
    split; [split; reflexivity |]. intros N. contradiction N. reflexivity. }
  unfold bind at 1. unfold get at 1.
  destruct (legacy w) as [store |].
  - destruct (Migrate.keys store) as [| k ks] eqn:K.
    + destruct (saveSetting_rows Migrate.MIGRATION_DONE_KEY "1" w c R)
        as (w' & c' & E & H' & Ed & Es).
      rewrite (bind_ok _ _ _ _ _ E).
      exists Migrate.StoreEmpty, w', c', [], []. split; [reflexivity |].
      split; [exact H' |].
      split; [exact (appended_rows _ _ _ _ _ (appended_refl _) Ed Es) |].
      split; [split; reflexivity |].
      intros _ store' key L I. injection L as <-. rewrite K in I. contradiction.
    + cbv zeta.
      destruct (for_of_daily_counts store
                  (Stable.sort String.leb
                     (filter (fun k => JsString.startsWith k "dailySales_") (k :: ks)))
                  (Migrate.mkCounters 0 0 0) w c R Pos)
        as (n1 & w1 & c1 & nd1 & ns1 & E1 & R1 & P1 & A1 & Cd1 & Cs1).
      pose proof (fun key I Imp =>
                    for_of_daily_covers store key _ _ w c n1 w1 c1 R Pos I Imp E1
                      (proj1 R1)) as Cov.
      rewrite (bind_ok _ _ _ _ _ E1).
      assert (X : exists n2 w2 c2 nd2 ns2,
                 match Stable.sort Migrate.chunk_le
                         (filter (fun k => JsString.startsWith k "salesChunk_") (k :: ks))
                 with
                 | [] => ret n1
                 | _ :: _ =>
                     Migrate.migrate_chunks store
                       (Stable.sort Migrate.chunk_le
                          (filter (fun k => JsString.startsWith k "salesChunk_") (k :: ks)))
                       n1
                 end w1 = (inr n2, w2) /\ ready w2 c2 /\
                 appended (content c1) (content c2) nd2 ns2 /\
                 Migrate.migratedDays n2 =
                   Migrate.migratedDays n1 + Z.of_nat (List.length nd2) /\
                 Migrate.migratedSales n2 =
                   Migrate.migratedSales n1 + Z.of_nat (List.length ns2)).
      { destruct (Stable.sort Migrate.chunk_le
                    (filter (fun k => JsString.startsWith k "salesChunk_") (k :: ks))).
        - exists n1, w1, c1, [], []. split; [reflexivity |]. split; [exact R1 |].
          split; [apply appended_refl |]. cbn [List.length]. lia.
        - destruct (migrate_chunks_counts store (s :: l) n1 w1 c1 R1 P1)
            as (n2 & w2 & c2 & nd2 & ns2 & E2 & R2 & _ & A2 & Cd2 & Cs2 & _).
          exists n2, w2, c2, nd2, ns2. auto. }
      destruct X as (n2 & w2 & c2 & nd2 & ns2 & E2 & R2 & A2 & Cd2 & Cs2).
      rewrite (bind_ok _ _ _ _ _ E2).
      destruct (saveSetting_rows Migrate.MIGRATION_DONE_KEY "1" w2 c2 R2)
        as (w' & c' & E & H' & Ed & Es).
      rewrite (bind_ok _ _ _ _ _ E).
      eexists _, w', c', (nd1 ++ nd2)%list, (ns1 ++ ns2)%list.
      split; [reflexivity |]. split; [exact H' |].
      split.
      { exact (appended_rows _ _ _ _ _ (appended_trans _ _ _ _ _ _ _ A1 A2) Ed Es). }
      split.
      { rewrite !length_app.
        cbn [Migrate.migratedDays Migrate.migratedSales] in Cd1, Cs1.
        split; lia. }
      intros _ store' key L I Sw Imp. injection L as <-. rewrite K in I.
      rewrite Ed.
      apply (has_date_appended _ _ _ _ _ A2).
      apply Cov; [| exact Imp].
      apply stable_sort_in. apply filter_In. split; [exact I | exact Sw].
  - destruct (saveSetting_rows Migrate.MIGRATION_DONE_KEY "1" w c R)
      as (w' & c' & E & H' & Ed & Es).
    rewrite (bind_ok _ _ _ _ _ E).
    exists Migrate.StoreMissing, w', c', [], []. split; [reflexivity |].
    split; [exact H' |].
    split; [exact (appended_rows _ _ _ _ _ (appended_refl _) Ed Es) |].
    split; [split; reflexivity |].
    intros _ store' key L. discriminate L.
Qed.

(** X15. The importer only appends, and its summary counts what it
    appended.  On an initialised engine with working puts, whatever [run]
    resolves to, the Days and Sales that were there are still there, unchanged
    and in place; new Days and Sales come after them, every new Sale in a new
    Day; [migrated] is the number of new Days and [sales] the number of new
    Sales (none when [run] ends early). *)
Theorem import_appends_what_it_counts (w w' : world) (c : connection)
  (r : Migrate.result)
  (Hready : ready w c) (Hids : positive_day_ids (content c))
  (Hrun : Migrate.run w = (inr r, w')) :
  exists c' nd ns,
    _db w' = Some c' /\
    days (content c') = (days (content c) ++ nd)%list /\
    sales (content c') = (sales (content c) ++ ns)%list /\
    incl (map sale_day_id ns) (map day_id nd) /\
    match r with
    | Migrate.Summary m s _ =>
        m = Z.of_nat (List.length nd) /\ s = Z.of_nat (List.length ns)
    | _ => nd = [] /\ ns = []
    end.
Proof.
  destruct (run_counts w c Hready Hids)
    as (r0 & w0 & c' & nd & ns & E & R' & (D & S & I) & C & _).
  rewrite Hrun in E. injection E as <- <-.
  exists c', nd, ns. split; [apply R' |]. auto.
Qed.

Lemma two_days_positive : positive_day_ids two_days.
Proof. intros x [<- | [<- | []]]; reflexivity. Qed.

Lemma import_appends_what_it_counts_witness :
  exists c' nd ns,
    Migrate.run two_days_store_world
      = (inr (Migrate.Summary 1 2 1), two_days_imported) /\
    _db two_days_imported = Some c' /\
    days (content c') = (days two_days ++ nd)%list /\
    sales (content c') = (sales two_days ++ ns)%list /\
    List.length nd = 1%nat /\ List.length ns = 2%nat.
Proof.
  assert (E : Migrate.run two_days_store_world
              = (inr (Migrate.Summary 1 2 1), two_days_imported))
    by (vm_compute; reflexivity).
  destruct (import_appends_what_it_counts two_days_store_world two_days_imported _ _
              (conj eq_refl (conj eq_refl eq_refl)) two_days_positive E)
    as (c' & nd & ns & H & D & S & _ & Cd & Cs).
  exists c', nd, ns. split; [exact E |]. split; [exact H |].
  split; [exact D |]. split; [exact S |]. split; lia.
Defined.

Lemma has_date_first date l :
  existsb (date_is date) l = true ->
  exists d, DBSales.first (filter (date_is date) l) = Some d /\ day_date d = date.
Proof.
  intros E. apply existsb_exists in E. destruct E as (x & Ix & Dx).
  assert (I : In x (filter (date_is date) l)) by (apply filter_In; auto).
  destruct (filter (date_is date) l) as [| d r] eqn:F; [contradiction |].
  exists d. split; [reflexivity |].
  assert (Id : In d (filter (date_is date) l)) by (rewrite F; left; reflexivity).
  apply filter_In in Id. destruct Id as [_ Dd].
  unfold date_is in Dd. apply String.eqb_eq in Dd. exact Dd.
Qed.

(** X16. No readable daily record is left behind.  After a [run] that did
    the import, every key [dailySales_<date>] of the old store whose item is
    a non-empty CSV string with at least one row that sold something has a
    Day: [getDay(<date>)] returns one. *)
Theorem import_covers_daily_records (w w' : world) (c : connection)
  (r : Migrate.result) (store : Migrate.items) (key : string)
  (Hready : ready w c) (Hids : positive_day_ids (content c))
  (Hrun : Migrate.run w = (inr r, w')) (Hdid : r <> Migrate.AlreadyDone)
  (Hstore : legacy w = Some store) (Hkey : In key (Migrate.keys store))
  (Hdaily : JsString.startsWith key "dailySales_" = true)
  (Hreadable : importable store key = true) :
  exists d,
    DBSales.getDay (JsString.replace key "dailySales_" "") w' = (inr (Some d), w') /\
    day_date d = JsString.replace key "dailySales_" "".
Proof.
  destruct (run_counts w c Hready Hids)
    as (r0 & w0 & c' & nd & ns & E & R' & _ & _ & Cov).
  rewrite Hrun in E. injection E as <- <-.
  specialize (Cov Hdid store key Hstore Hkey Hdaily Hreadable).
  destruct (has_date_first _ _ Cov) as (d & F & Dd).
  exists d. split; [| exact Dd].
  destruct (ready_tables w' c' R') as (Td & _).
  rewrite (getDay_reads _ w' c' (proj1 R') Td), F. reflexivity.
Qed.

Lemma import_covers_daily_records_witness :
  exists d,
    DBSales.getDay "2026-02-01" old_store_imported = (inr (Some d), old_store_imported) /\
    day_date d = "2026-02-01".
Proof.
  assert (E : Migrate.run (world_with (Some old_store))
              = (inr (Migrate.Summary 2 4 0), old_store_imported))
    by (vm_compute; reflexivity).
  assert (P : positive_day_ids seed_image) by (intros x []).
  assert (K : In "dailySales_2026-02-01" (Migrate.keys old_store))
    by (right; right; left; reflexivity).
  exact (import_covers_daily_records (world_with (Some old_store)) old_store_imported
           _ _ old_store "dailySales_2026-02-01"
           (conj eq_refl (conj eq_refl eq_refl)) P E
           ltac:(discriminate) eq_refl K eq_refl eq_refl).
Defined.

(** ** Line ends of the CSV *)

Lemma split_chars_nonempty sep l : JsString.split_chars sep l <> [].
Proof.
  destruct l as [| c r]; cbn [JsString.split_chars]; [discriminate |].
  destruct (Ascii.eqb c sep); [discriminate |].
  destruct (JsString.split_chars sep r); discriminate.
Qed.

Lemma split_crlf l :
  JsString.split_chars Migrate.newline (crlf_chars l) =
    returns_added (JsString.split_chars Migrate.newline l).
Proof.
  induction l as [| c r IH]; [reflexivity |].
  cbn [crlf_chars JsString.split_chars].
  destruct (Ascii.eqb c Migrate.newline) eqn:C.
  - cbn [JsString.split_chars]. rewrite C.
    change (Ascii.eqb carriage_return Migrate.newline) with false. cbv iota.
    rewrite IH. cbn [returns_added].
    pose proof (split_chars_nonempty Migrate.newline r) as N.
    destruct (JsString.split_chars Migrate.newline r); [contradiction | reflexivity].
  - cbn [JsString.split_chars]. rewrite C, IH.
    pose proof (split_chars_nonempty Migrate.newline r) as N.
    destruct (JsString.split_chars Migrate.newline r) as [| p ps]; [contradiction |].
    cbn [returns_added]. destruct ps; reflexivity.
Qed.

Lemma trim_end_return l :
  JsString.trim_end (l ++ [carriage_return]) = JsString.trim_end l.
Proof.
  unfold JsString.trim_end. rewrite rev_unit. reflexivity.
Qed.

Lemma trim_chars_return p :
  JsString.trim_end (JsString.trim_start (p ++ [carriage_return])) =
  JsString.trim_end (JsString.trim_start p).
Proof.
  induction p as [| c p IH]; [reflexivity |].
  cbn [app JsString.trim_start]. destruct (JsString.is_space c); [exact IH |].
  apply (trim_end_return (c :: p)).
Qed.

Lemma chars_of_chars l : JsString.chars (JsString.of_chars l) = l.
Proof. apply list_ascii_of_string_of_list_ascii. Qed.

Lemma trim_return p :
  JsString.trim (JsString.of_chars (p ++ [carriage_return])) =
  JsString.trim (JsString.of_chars p).
Proof.
  unfold JsString.trim. rewrite !chars_of_chars, trim_chars_return. reflexivity.
Qed.

Lemma trim_returns_added pieces :
  map JsString.trim (map JsString.of_chars (returns_added pieces)) =
  map JsString.trim (map JsString.of_chars pieces).
Proof.
  induction pieces as [| p rest IH]; [reflexivity |].
  cbn [returns_added]. destruct rest as [| q rest]; [reflexivity |].
  cbn [map] in *. rewrite trim_return. f_equal. exact IH.
Qed.

(** X17. Line ends do not matter to [_parseCSV]: a CSV whose lines end in
    carriage return and line feed parses to what the same CSV with plain
    line feeds parses to, since every line is trimmed before it is read. *)
Theorem parseCSV_crlf (csv : string) :
  Migrate._parseCSV (crlf csv) = Migrate._parseCSV csv.
Proof.
  assert (L : Migrate.csv_lines (crlf csv) = Migrate.csv_lines csv).
  { unfold Migrate.csv_lines, JsString.split, crlf.
    rewrite chars_of_chars, split_crlf, trim_returns_added. reflexivity. }
  unfold Migrate._parseCSV. cbv zeta. rewrite L. reflexivity.
Qed.

(** ** Backup and restore *)

Lemma restoreDB_puts file w :
  match idb_faults w with true :: _ => False | _ => True end ->
  DB.restoreDB true file w =
    (inr tt,
     mkWorld (Some (pragma_foreign_keys_on (open file))) (_dirty w) (Some file)
       (tl (idb_faults w)) (seed w) (clock w) (legacy w) (Saved file :: trace w)).
Proof.
  intros F. unfold DB.restoreDB, bind, modify, DB.db_read, DB.on_db, DB._saveToIDB.
  cbn. destruct (idb_faults w) as [| [|] later]; [reflexivity | contradiction |
    reflexivity].
Qed.

Lemma restoreDB_put_fails file w later :
  idb_faults w = true :: later ->
  DB.restoreDB true file w =
    (inl IdbError,
     mkWorld (Some (pragma_foreign_keys_on (open file))) (_dirty w) (idb w)
       later (seed w) (clock w) (legacy w) (trace w)).
Proof.
  intros F. unfold DB.restoreDB, bind, modify, DB.db_read, DB.on_db, DB._saveToIDB.
  cbn. rewrite F. reflexivity.
Qed.

(** X18. [restoreDB] does not run the schema guard, [init] does.  With
    working puts the file becomes the content of the live database and the
    stored image, whatever tables it has; at the next page load [init] keeps
    it when it has the required tables, and otherwise replaces it by the
    seed, so that the restored data is gone. *)
Theorem restore_then_reload (w : world) (file sd : database)
  (Hputs : reliable w) (Hseed : seed w = Some sd) :
  exists w1 h,
    DB.restoreDB true file w = (inr tt, w1) /\
    _db w1 = Some h /\ content h = file /\ tx_saved h = None /\
    idb w1 = Some file /\
    exists c w2,
      DB.init (reloaded w1) = (inr c, w2) /\
      content c = (if DB._isSchemaCurrent (open file) then file else sd) /\
      idb w2 = Some (content c).
Proof.
  pose proof (reliable_head w Hputs) as F.
  eexists _, _. split; [apply (restoreDB_puts file w F) |].
  split; [reflexivity |]. split; [reflexivity |]. split; [reflexivity |].
  split; [reflexivity |].
  match goal with |- context [DB.init ?w1] => set (v := w1) end.
  assert (Rv : reliable v).
  { unfold reliable in *. unfold v, reloaded. cbn [idb_faults].
    destruct (idb_faults w) as [| b l]; [reflexivity |].
    cbn [tl]. cbn [forallb] in Hputs. apply andb_prop in Hputs. apply Hputs. }
  destruct (init_cases v)
    as [(c0 & H & I) | [(image & _ & E & G & I) | [(_ & _ & S & I) |
        [(sd' & later & _ & _ & _ & Fv & I) | (sd' & _ & G & S & Fv & I)]]]].
  - discriminate H.
  - cbn in E. injection E as <-.
    eexists _, _. split; [exact I |]. rewrite G. split; reflexivity.
  - cbn in S. rewrite Hseed in S. discriminate.
  - exfalso. pose proof (reliable_head v Rv) as R. rewrite Fv in R. exact R.
  - cbn in S. rewrite Hseed in S. injection S as <-.
    unfold must_reseed in G. cbn in G.
    eexists _, _. split; [exact I |]. cbn in G |- *. rewrite G.
    split; reflexivity.
Qed.

Lemma restore_then_reload_witness :
  exists w1 c w2,
    DB.restoreDB true no_sales_image two_days_world = (inr tt, w1) /\
    idb w1 = Some no_sales_image /\
    DB.init (reloaded w1) = (inr c, w2) /\
    content c = seed_image.
Proof.
  destruct (restore_then_reload two_days_world no_sales_image seed_image
              eq_refl eq_refl)
    as (w1 & h & E & _ & _ & _ & S & c & w2 & I & C & _).
  exists w1, c, w2. split; [exact E |]. split; [exact S |].
  split; [exact I | exact C].
Defined.

(** X19. A restore whose put fails is not retried.  [restoreDB] throws with
    the file already the content of the live database; IndexedDB still holds
    the image from before, and since [_dirty] was not set, [persist] puts
    nothing: unless another write follows, the next page load does not see
    the restored data. *)
Theorem restore_put_failure_not_retried (w : world) (file : database)
  (later : list bool)
  (Hfault : idb_faults w = true :: later) (Hclean : _dirty w = false) :
  exists w1 h,
    DB.restoreDB true file w = (inl IdbError, w1) /\
    _db w1 = Some h /\ content h = file /\
    idb w1 = idb w /\
    DB.persist w1 = (inr tt, record PersistCalled w1) /\
    idb (reloaded (snd (DB.persist w1))) = idb w.
Proof.
  eexists _, _. split; [apply (restoreDB_put_fails file w later Hfault) |].
  split; [reflexivity |]. split; [reflexivity |]. split; [reflexivity |].
  unfold DB.persist, bind, modify, get, ret. cbn. rewrite Hclean. cbn.
  split; reflexivity.
Qed.

Lemma restore_put_failure_not_retried_witness :
  exists w1,
    DB.restoreDB true two_days
      (mkWorld (Some (pragma_foreign_keys_on (open seed_image))) false
         (Some seed_image) [true] (Some seed_image) "2026-02-03" None [])
      = (inl IdbError, w1) /\
    idb (reloaded (snd (DB.persist w1))) = Some seed_image.
Proof.
  destruct (restore_put_failure_not_retried
              (mkWorld (Some (pragma_foreign_keys_on (open seed_image))) false
                 (Some seed_image) [true] (Some seed_image) "2026-02-03" None [])
              two_days [] eq_refl eq_refl)
    as (w1 & h & E & _ & _ & _ & _ & S).
  exists w1. split; [exact E | exact S].
Defined.

(** X20. A backup restores to the data it was taken from.  With no
    transaction open, [exportDB] hands out the content of the database and
    leaves that content, the dirty flag and the IndexedDB entry as they
    were; given to [restoreDB] on any engine with working puts, it makes the
    content of the live database and the stored image there equal to the
    content exported, with no transaction open.  Before [init], [exportDB]
    throws. *)
Theorem export_restore_round_trip :
  (forall w c w2,
     _db w = Some c -> tx_saved c = None -> reliable w2 ->
     exists w' h w3 c3,
       DB.exportDB w = (inr (content c), w') /\
       _db w' = Some h /\ content h = content c /\
       _dirty w' = _dirty w /\ idb w' = idb w /\ trace w' = trace w /\
       DB.restoreDB true (content c) w2 = (inr tt, w3) /\
       _db w3 = Some c3 /\
       content c3 = content c /\ tx_saved c3 = None /\
       idb w3 = Some (content c)) /\
  (forall w, _db w = None -> DB.exportDB w = (inl NotInitialised, w)).
Proof.
  split.
  - intros w c w2 H T R. pose proof (reliable_head w2 R) as F.
    exists w, c. eexists _, _.
    split.
    { unfold DB.exportDB, bind, DB.require_db, get, ret, DB.db_read, DB.on_db.
      cbn. rewrite H. cbn. rewrite H. cbn. destruct w; cbn in *. subst. reflexivity. }
    split; [exact H |]. split; [reflexivity |]. split; [reflexivity |].
    split; [reflexivity |]. split; [reflexivity |].
    split; [apply (restoreDB_puts (content c) w2 F) |].
    repeat split.
  - intros w H. unfold DB.exportDB, bind, DB.require_db, get, ret, throw.
    cbn. rewrite H. reflexivity.
Qed.

Lemma export_restore_round_trip_witness :
  exists w' w3 c3,
    DB.exportDB two_days_world = (inr two_days, w') /\
    DB.restoreDB true two_days fresh_world = (inr tt, w3) /\
    _db w3 = Some c3 /\ content c3 = two_days.
Proof.
  destruct (proj1 export_restore_round_trip two_days_world _ fresh_world
              eq_refl eq_refl eq_refl)
    as (w' & h & w3 & c3 & E & _ & _ & _ & _ & _ & R & H & C & _).
  exists w', w3, c3. split; [exact E |]. split; [exact R |].
  split; [exact H | exact C].
Defined.
